(** * A shallow embedding of [products.py] (class [UniversalEcommerceScraper])

    The development follows the layout of the Python module:
    - [PyStr]: Python [str] values as sequences of Unicode code points, with
      the string methods the scraper calls;
    - [Re]: the fragment of the [re] module the scraper uses (a backtracking
      matcher with leftmost, greedy semantics and one capturing group);
    - [Dom]: the BeautifulSoup tree and the tree queries the scraper calls;
    - the scraper itself: field resolution, cleaning and validation, the
      image and original-price helpers, the tiered extractors with the
      session they append to, the retry loop of [main], and the rows and
      groups that the sinks and the summary compute from the records. *)

From Stdlib Require Import ZArith NArith List String Ascii Bool Lia.
From stdpp Require Import gmap strings list fin_maps.

Set Default Proof Using "Type".

(* ===================================================================== *)
(** ** Python strings *)
(* ===================================================================== *)

Module PyStr.

(** A Python [str] is a sequence of code points; [len] counts code points. *)
Definition str := list N.

(** Decoding of the UTF-8 bytes of a source literal into code points. *)
Fixpoint utf8_decode (bs : list N) : str :=
  match bs with
  | [] => []
  | b :: r0 =>
    if (b <? 128)%N then b :: utf8_decode r0
    else if (b <? 224)%N then
      match r0 with
      | b1 :: r1 => ((b - 192) * 64 + (b1 - 128))%N :: utf8_decode r1
      | [] => []
      end
    else if (b <? 240)%N then
      match r0 with
      | b1 :: b2 :: r2 =>
        ((b - 224) * 4096 + (b1 - 128) * 64 + (b2 - 128))%N :: utf8_decode r2
      | _ => []
      end
    else
      match r0 with
      | b1 :: b2 :: b3 :: r3 =>
        ((b - 240) * 262144 + (b1 - 128) * 4096 + (b2 - 128) * 64 + (b3 - 128))%N
          :: utf8_decode r3
      | _ => []
      end
  end.

Definition py (s : string) : str :=
  utf8_decode (map N_of_ascii (list_ascii_of_string s)).

(** The double quote, which a literal cannot hold. *)
Definition dq : str := [34%N].

Definition in_ranges (tbl : list (N * N)) (c : N) : bool :=
  existsb (fun r => (fst r <=? c)%N && (c <=? snd r)%N) tbl.

(** [str.isspace] per code point; also the class [\s] of [re] and the
    characters removed by [str.strip()]. *)
Definition space_ranges : list (N * N) :=
  [(9, 13); (28, 32); (133, 133); (160, 160); (5760, 5760); (8192, 8202);
   (8232, 8233); (8239, 8239); (8287, 8287); (12288, 12288)]%N.

Definition isspace (c : N) : bool := in_ranges space_ranges c.

(** [str.isdecimal] per code point (category Nd); the class [\d] of [re]. *)
Definition decimal_ranges : list (N * N) :=
  [(48, 57); (1632, 1641); (1776, 1785); (1984, 1993); (2406, 2415);
   (2534, 2543); (2662, 2671); (2790, 2799); (2918, 2927); (3046, 3055);
   (3174, 3183); (3302, 3311); (3430, 3439); (3558, 3567); (3664, 3673);
   (3792, 3801); (3872, 3881); (4160, 4169); (4240, 4249); (6112, 6121);
   (6160, 6169); (6470, 6479); (6608, 6617); (6784, 6793); (6800, 6809);
   (6992, 7001); (7088, 7097); (7232, 7241); (7248, 7257); (42528, 42537);
   (43216, 43225); (43264, 43273); (43472, 43481); (43504, 43513);
   (43600, 43609); (44016, 44025); (65296, 65305); (66720, 66729);
   (68912, 68921); (69734, 69743); (69872, 69881); (69942, 69951);
   (70096, 70105); (70384, 70393); (70736, 70745); (70864, 70873);
   (71248, 71257); (71360, 71369); (71472, 71481); (71904, 71913);
   (72016, 72025); (72784, 72793); (73040, 73049); (73120, 73129);
   (92768, 92777); (92864, 92873); (93008, 93017); (120782, 120831);
   (123200, 123209); (123632, 123641); (125264, 125273);
   (130032, 130041)]%N.

Definition isdecimal (c : N) : bool := in_ranges decimal_ranges c.

(** [str.isdigit] per code point (numeric type Digit or Decimal). *)
Definition digit_ranges : list (N * N) :=
  [(48, 57); (178, 179); (185, 185); (1632, 1641); (1776, 1785);
   (1984, 1993); (2406, 2415); (2534, 2543); (2662, 2671); (2790, 2799);
   (2918, 2927); (3046, 3055); (3174, 3183); (3302, 3311); (3430, 3439);
   (3558, 3567); (3664, 3673); (3792, 3801); (3872, 3881); (4160, 4169);
   (4240, 4249); (4969, 4977); (6112, 6121); (6160, 6169); (6470, 6479);
   (6608, 6618); (6784, 6793); (6800, 6809); (6992, 7001); (7088, 7097);
   (7232, 7241); (7248, 7257); (8304, 8304); (8308, 8313); (8320, 8329);
   (9312, 9320); (9332, 9340); (9352, 9360); (9450, 9450); (9461, 9469);
   (9471, 9471); (10102, 10110); (10112, 10120); (10122, 10130);
   (42528, 42537); (43216, 43225); (43264, 43273); (43472, 43481);
   (43504, 43513); (43600, 43609); (44016, 44025); (65296, 65305);
   (66720, 66729); (68160, 68163); (68912, 68921); (69216, 69224);
   (69714, 69722); (69734, 69743); (69872, 69881); (69942, 69951);
   (70096, 70105); (70384, 70393); (70736, 70745); (70864, 70873);
   (71248, 71257); (71360, 71369); (71472, 71481); (71904, 71913);
   (72016, 72025); (72784, 72793); (73040, 73049); (73120, 73129);
   (92768, 92777); (92864, 92873); (93008, 93017); (120782, 120831);
   (123200, 123209); (123632, 123641); (125264, 125273); (127232, 127242);
   (130032, 130041)]%N.

Definition isdigit_char (c : N) : bool := in_ranges digit_ranges c.

(** [s.isdigit()]: every character is a digit and there is at least one. *)
Definition isdigit (s : str) : bool :=
  match s with
  | [] => false
  | _ => forallb isdigit_char s
  end.

Fixpoint dropWhile (p : N -> bool) (s : str) : str :=
  match s with
  | [] => []
  | c :: s' => if p c then dropWhile p s' else s
  end.

Fixpoint takeWhile (p : N -> bool) (s : str) : str :=
  match s with
  | [] => []
  | c :: s' => if p c then c :: takeWhile p s' else []
  end.

(** [s.strip()] *)
Definition lstrip (s : str) : str := dropWhile isspace s.
Definition rstrip (s : str) : str := rev (dropWhile isspace (rev s)).
Definition strip (s : str) : str := rstrip (lstrip s).

Definition str_eqb (a b : str) : bool := bool_decide (a = b).

(** [s.startswith(p)] *)
Fixpoint startswith (s p : str) : bool :=
  match p with
  | [] => true
  | c :: p' =>
    match s with
    | [] => false
    | d :: s' => (c =? d)%N && startswith s' p'
    end
  end.

(** [p in s] *)
Fixpoint contains (p s : str) : bool :=
  startswith s p ||
  match s with
  | [] => false
  | _ :: s' => contains p s'
  end.

(** [s.split(sep)] for a non-empty separator: [skip] counts the characters of
    a separator occurrence still to be passed over, [cur] is the piece being
    collected, in reverse. *)
Fixpoint split_aux (sep : str) (skip : nat) (cur : str) (s : str) : list str :=
  match s with
  | [] => [rev cur]
  | c :: s' =>
    match skip with
    | S k => split_aux sep k cur s'
    | O =>
      if startswith s sep
      then rev cur :: split_aux sep (length sep - 1) [] s'
      else split_aux sep 0 (c :: cur) s'
    end
  end.

Definition split (s sep : str) : list str := split_aux sep 0 [] s.

(** ["\n".join(l)] and friends *)
Fixpoint join (sep : str) (l : list str) : str :=
  match l with
  | [] => []
  | [a] => a
  | a :: l' => a ++ sep ++ join sep l'
  end.

(** Truthiness of a string: non-empty. *)
Definition truthy (s : str) : bool :=
  match s with [] => false | _ => true end.

Definition NA : str := py "N/A".
Definition rupee : N := 8377%N.
Definition newline : str := [10%N].

End PyStr.
Import PyStr.

(* ===================================================================== *)
(** ** Regular expressions *)
(* ===================================================================== *)

Module Re.

(** The constructs the scraper's patterns use.  [Cls] is any single-character
    test (a literal, [\d], [\s], a bracket class, or a literal under
    [re.IGNORECASE]); [Star] is greedy; [Grp] is the capturing group 1;
    [Bol] is [^]. *)
Inductive regex :=
| Eps
| Bol
| Cls (p : N -> bool)
| Cat (r1 r2 : regex)
| Alt (r1 r2 : regex)
| Star (r : regex)
| Grp (r : regex).

Definition Lit (c : N) : regex := Cls (N.eqb c).
Definition Plus (r : regex) : regex := Cat r (Star r).
Definition Opt (r : regex) : regex := Alt r Eps.

Fixpoint Seq (rs : list regex) : regex :=
  match rs with
  | [] => Eps
  | [r] => r
  | r :: rs' => Cat r (Seq rs')
  end.

(** A literal word, case-sensitively. *)
Definition Word (w : str) : regex := Seq (map Lit w).

(** Simple case folding of the characters that match an ASCII letter under
    [re.IGNORECASE]: the other case of the letter and, for i, k and s, the
    dotted and dotless i, the Kelvin sign and the long s. *)
Definition fold_ascii (c : N) : N :=
  if (65 <=? c)%N && (c <=? 90)%N then (c + 32)%N
  else if (c =? 304)%N || (c =? 305)%N then 105%N
  else if (c =? 383)%N then 115%N
  else if (c =? 8490)%N then 107%N
  else c.

Definition LitI (c : N) : regex := Cls (fun x => (fold_ascii x =? fold_ascii c)%N).
Definition WordI (w : str) : regex := Seq (map LitI w).

Definition digit : regex := Cls isdecimal.
Definition space : regex := Cls isspace.

(** Matcher state: position in the subject, what is left of it, and the
    span of group 1 if it has been closed. *)
Record mstate := MState { pos : nat; rest : str; g1 : option (nat * nat) }.

(** The iterations of a greedy star over [body]: at most [n] more, each of
    which must consume something; when no further iteration leads to a
    match the continuation takes over where the star stands. *)
Fixpoint star_loop {A : Type} (body : mstate -> (mstate -> option A) -> option A)
    (k : mstate -> option A) (n : nat) (st : mstate) : option A :=
  match n with
  | O => k st
  | S n' =>
    match body st (fun st' => if Nat.ltb (pos st) (pos st')
                              then star_loop body k n' st' else None) with
    | Some x => Some x
    | None => k st
    end
  end.

(** Backtracking matcher in continuation-passing style: alternatives are
    tried left to right and a star takes as many iterations as it can before
    giving them back, as [re] does. *)
Fixpoint rmatch {A : Type} (r : regex)
  : mstate -> (mstate -> option A) -> option A :=
  match r with
  | Eps => fun st k => k st
  | Bol => fun st k => if Nat.eqb (pos st) 0 then k st else None
  | Cls p => fun st k =>
      match rest st with
      | c :: s' => if p c then k (MState (S (pos st)) s' (g1 st)) else None
      | [] => None
      end
  | Cat r1 r2 => fun st k => rmatch r1 st (fun st' => rmatch r2 st' k)
  | Alt r1 r2 => fun st k =>
      match rmatch r1 st k with
      | Some x => Some x
      | None => rmatch r2 st k
      end
  | Star r' => fun st k => star_loop (rmatch r') k (length (rest st)) st
  | Grp r' => fun st k =>
      rmatch r' st (fun st' => k (MState (pos st') (rest st') (Some (pos st, pos st'))))
  end.

(** A match object: [group(0)] and [group(1)]. *)
Record match_obj := Match { group0 : str; group1 : option str }.

(** [s[i:j]] *)
Definition substr (s : str) (i j : nat) : str := take (j - i) (drop i s).

Definition mk_match (s : str) (i : nat) (st : mstate) : match_obj :=
  Match (substr s i (pos st))
        (match g1 st with
         | Some (a, b) => Some (substr s a b)
         | None => None
         end).

(** [re.match(r, s)] *)
Definition re_match (r : regex) (s : str) : option match_obj :=
  match rmatch r (MState 0 s None) Some with
  | Some st => Some (mk_match s 0 st)
  | None => None
  end.

(** [re.search(r, s)]: the leftmost position at which [r] matches; [suffix]
    is what is left of [s] from position [i]. *)
Fixpoint search_from (r : regex) (s : str) (i : nat) (suffix : str) : option match_obj :=
  match rmatch r (MState i suffix None) Some with
  | Some st => Some (mk_match s i st)
  | None =>
    match suffix with
    | [] => None
    | _ :: suffix' => search_from r s (S i) suffix'
    end
  end.

Definition search (r : regex) (s : str) : option match_obj := search_from r s 0 s.

End Re.
Import Re.

(* ===================================================================== *)
(** ** The BeautifulSoup tree *)
(* ===================================================================== *)

Module Dom.

(** A parsed document or fragment.  [Text] is a [NavigableString] that
    [get_text] returns; [Comment] stands for the string kinds [get_text]
    leaves out (comments, declarations); [Tag] is an element (the
    [BeautifulSoup] object itself is the root [Tag]). *)
#[warnings="-register-all"]
Inductive node :=
| Text (s : str)
| Comment (s : str)
| Tag (name : str) (attrs : list (str * str)) (children : list node).

Definition children (n : node) : list node :=
  match n with
  | Tag _ _ cs => cs
  | _ => []
  end.

(** The text strings below a node, in document order. *)
Fixpoint strings (n : node) : list str :=
  match n with
  | Text s => [s]
  | Comment _ => []
  | Tag _ _ cs => flat_map strings cs
  end.

(** [n.get_text()] *)
Definition get_text (n : node) : str := concat (strings n).

(** [n.get_text(strip=True)]: every string is stripped, the empty ones are
    dropped, the others are concatenated. *)
Definition get_text_strip (n : node) : str :=
  concat (List.filter (fun s => truthy s) (map strip (strings n))).

(** Every string node below [n] (of either kind) with its [.parent], in
    document order. *)
Fixpoint string_nodes (parent n : node) : list (str * node) :=
  match n with
  | Text s => [(s, parent)]
  | Comment s => [(s, parent)]
  | Tag _ _ cs => flat_map (string_nodes n) cs
  end.

(** [soup.find_all(string=re.compile(...))]: the strings below [soup] that
    the regex finds a match in, each with its parent. *)
Definition find_all_string (soup : node) (r : regex) : list (str * node) :=
  List.filter (fun sp => bool_decide (is_Some (search r (fst sp))))
         (flat_map (string_nodes soup) (children soup)).

Definition is_tag_named (names : list str) (n : node) : bool :=
  match n with
  | Tag nm _ _ => existsb (str_eqb nm) names
  | _ => false
  end.

(** [for t in soup(names): t.decompose()]: every element with one of the
    names is removed from the tree, with all it contains. *)
Fixpoint decompose_all (names : list str) (n : node) : node :=
  match n with
  | Tag nm ats cs =>
    Tag nm ats
        ((fix go (l : list node) : list node :=
            match l with
            | [] => []
            | c :: l' =>
              if is_tag_named names c then go l'
              else decompose_all names c :: go l'
            end) cs)
  | _ => n
  end.

(** [soup.find(name)]: the first element below [n] with that name. *)
Fixpoint find_in (name : str) (n : node) : option node :=
  match n with
  | Tag nm _ cs =>
    if str_eqb nm name then Some n
    else (fix go (l : list node) : option node :=
            match l with
            | [] => None
            | c :: l' =>
              match find_in name c with
              | Some t => Some t
              | None => go l'
              end
            end) cs
  | _ => None
  end.

Definition find (soup : node) (name : str) : option node :=
  (fix go (l : list node) : option node :=
     match l with
     | [] => None
     | c :: l' =>
       match find_in name c with
       | Some t => Some t
       | None => go l'
       end
     end) (children soup).

End Dom.
Import Dom.

(* ===================================================================== *)
(** ** The session: object store, accepted records, instrumentation *)
(* ===================================================================== *)

Module Session.

(** A product dict.  Its text-valued entries are a finite map from key to
    string; the [index] entry (an int) and the [offers] entry (a list) are
    kept beside them. *)
Record product := Product {
  fields : gmap string str;
  index : Z;
  offers : list str
}.

(** What the environment and the instrumentation can observe of a run. *)
Inductive event :=
| EvFetch (url : str)        (* [crawler.arun(url=...)] *)
| EvAlternative              (* [try_alternative_parsing] entered *)
| EvSelect (selector : str)  (* [soup.select(selector)] in [try_alternative_parsing] *)
| EvCandidate (i : nat)      (* [try_alternative_parsing] processes element [i] *)
| EvAggressive               (* [try_aggressive_parsing] entered *)
| EvEmergency.               (* [emergency_extraction] entered *)

#[global] Instance event_eq_dec : EqDecision event.
Proof. solve_decision. Defined.

(** The state of a [UniversalEcommerceScraper] and of the world around it:
    the dict objects that exist ([heap], a reference is an index into it),
    [self.products] (references, in append order), the events so far, and
    how many times the environment (network, clock) has been consulted. *)
Record scraper := Scraper {
  heap : list product;
  products : list nat;
  log : list event;
  world : nat
}.

Inductive exn :=
| KeyError (k : string)
| ValueError
| FetchError
| SelectorError
| DanglingReference
| UnboundLocalError (name : string)  (* a local name read before it is bound *)
| CrawlerError.                      (* raised by the crawler's context manager *)

Inductive outcome (A : Type) :=
| Ok (a : A)
| Raise (e : exn).
Arguments Ok {A} a.
Arguments Raise {A} e.

(** Computations that read and write the session and may raise. *)
Definition M (A : Type) : Type := scraper -> outcome A * scraper.

Definition ret {A} (a : A) : M A := fun s => (Ok a, s).

Definition bind {A B} (m : M A) (f : A -> M B) : M B :=
  fun s =>
    match m s with
    | (Ok a, s') => f a s'
    | (Raise e, s') => (Raise e, s')
    end.

Definition raise {A} (e : exn) : M A := fun s => (Raise e, s).

(** [try: m  except Exception: h] *)
Definition try_except {A} (m : M A) (h : exn -> M A) : M A :=
  fun s =>
    match m s with
    | (Ok a, s') => (Ok a, s')
    | (Raise e, s') => h e s'
    end.

Definition emit (e : event) : M unit :=
  fun s => (Ok tt, Scraper (heap s) (products s) (log s ++ [e]) (world s)).

(** One consultation of the environment: returns its sequence number. *)
Definition tick : M nat :=
  fun s => (Ok (world s), Scraper (heap s) (products s) (log s) (S (world s))).

(** A dict literal: a new object. *)
Definition new_dict (d : product) : M nat :=
  fun s => (Ok (length (heap s)),
            Scraper (heap s ++ [d]) (products s) (log s) (world s)).

Definition deref (l : nat) : M product :=
  fun s =>
    match heap s !! l with
    | Some d => (Ok d, s)
    | None => (Raise DanglingReference, s)
    end.

(** [d.get(k)] *)
Definition dict_get (l : nat) (k : string) : M (option str) :=
  bind (deref l) (fun d => ret (fields d !! k)).

(** [d[k]] *)
Definition dict_getitem (l : nat) (k : string) : M str :=
  bind (deref l) (fun d =>
    match fields d !! k with
    | Some v => ret v
    | None => raise (KeyError k)
    end).

(** [d[k] = v] *)
Definition dict_setitem (l : nat) (k : string) (v : str) : M unit :=
  bind (deref l) (fun d => fun s =>
    (Ok tt,
     Scraper (<[l := Product (<[k := v]> (fields d)) (index d) (offers d)]> (heap s))
             (products s) (log s) (world s))).

(** [self.products.append(d)] *)
Definition append_product (l : nat) : M unit :=
  fun s => (Ok tt, Scraper (heap s) (products s ++ [l]) (log s) (world s)).

(** [self.products] *)
Definition get_products : M (list nat) := fun s => (Ok (products s), s).

(** [for x in l: body(x)] *)
Fixpoint for_each {A} (l : list A) (body : A -> M unit) : M unit :=
  match l with
  | [] => ret tt
  | x :: l' => bind (body x) (fun _ => for_each l' body)
  end.

(** [enumerate(l)], from [i] *)
Fixpoint enumerate_from {A} (i : nat) (l : list A) : list (nat * A) :=
  match l with
  | [] => []
  | x :: l' => (i, x) :: enumerate_from (S i) l'
  end.

Definition enumerate {A} (l : list A) : list (nat * A) := enumerate_from 0 l.

End Session.
Import Session.

Notation "x <- c1 ;; c2" := (bind c1 (fun x => c2))
  (at level 100, c1 at next level, right associativity).
Notation "c1 ;;; c2" := (bind c1 (fun _ => c2))
  (at level 100, right associativity).

(* ===================================================================== *)
(** ** Patterns and tables of the scraper *)
(* ===================================================================== *)

Module Patterns.

(** A selector as written in the source: the pieces between double quotes. *)
Definition sel (parts : list string) : str := join dq (map py parts).

(** The patterns of the source.  (In these comments a space sets a star
    apart from a closing parenthesis that follows it.) *)
Definition is_digit_or_comma (c : N) : bool := isdecimal c || (c =? 44)%N.
Definition digit_or_comma : regex := Cls is_digit_or_comma.

(** [[\d,]+] *)
Definition re_digits_commas : regex := Plus digit_or_comma.
(** [(\d+\.?\d* )] *)
Definition re_number : regex :=
  Grp (Cat (Plus digit) (Cat (Opt (Lit 46%N)) (Star digit))).
(** [(\d+)] *)
Definition re_integer : regex := Grp (Plus digit).
(** [₹?\d+] *)
Definition re_rupee_digits : regex := Cat (Opt (Lit rupee)) (Plus digit).
(** [\d+\s*(?:stars?|ratings?)], [re.IGNORECASE] *)
Definition re_stars_ratings : regex :=
  Cat (Plus digit)
      (Cat (Star space)
           (Alt (Cat (WordI (py "star")) (Opt (LitI 115%N)))
                (Cat (WordI (py "rating")) (Opt (LitI 115%N))))).
(** [₹?([\d,]+)] *)
Definition re_price : regex := Cat (Opt (Lit rupee)) (Grp (Plus digit_or_comma)).
(** [(\d+\.?\d* )\s*(?:out of 5|/5|stars?)], [re.IGNORECASE] *)
Definition re_rating : regex :=
  Cat re_number
      (Cat (Star space)
           (Alt (WordI (py "out of 5"))
                (Alt (WordI (py "/5"))
                     (Cat (WordI (py "star")) (Opt (LitI 115%N)))))).
(** [(\d+)\s*(?:ratings?|reviews?)], [re.IGNORECASE] *)
Definition re_reviews : regex :=
  Cat re_integer
      (Cat (Star space)
           (Alt (Cat (WordI (py "rating")) (Opt (LitI 115%N)))
                (Cat (WordI (py "review")) (Opt (LitI 115%N))))).
(** [^\d+] *)
Definition re_leading_digits : regex := Cat Bol (Plus digit).
(** [delivery|shipping], [re.IGNORECASE] *)
Definition re_delivery : regex := Alt (WordI (py "delivery")) (WordI (py "shipping")).
(** [bought|stock|available], [re.IGNORECASE] *)
Definition re_availability : regex :=
  Alt (WordI (py "bought")) (Alt (WordI (py "stock")) (WordI (py "available"))).

Definition prefixes_to_remove : list str :=
  [py "Add to Compare"; py "Sponsored"; py "SponsoredCason";
   py "SponsoredCason Wireless"; py "SponsoredCason Wireless + Wired"].

Definition bad_name_patterns : list str :=
  [py "Add to Compare"; py "Sponsored"; py "SponsoredCason";
   py "SponsoredCason Wireless"; py "SponsoredCason Wireless + Wired"].

Definition alternative_selectors : list str :=
  [sel ["div[class*="; "product"; "]"];
   sel ["div[class*="; "item"; "]"];
   sel ["div[class*="; "card"; "]"];
   sel ["div[data-id]"];
   sel ["div[class*="; "search"; "]"];
   sel ["div[class*="; "result"; "]"];
   sel ["article"];
   sel ["section"]].

Definition fallback_selectors : list str :=
  [sel ["div[class*="; "product"; "]"];
   sel ["div[class*="; "item"; "]"];
   sel ["div[class*="; "card"; "]"];
   sel ["div[data-id]"];
   sel ["div[class*="; "search"; "]"]].

Definition delivery_selectors : list str :=
  [sel ["div[class*="; "delivery"; "]"];
   sel ["span[class*="; "delivery"; "]"];
   sel ["div[class*="; "shipping"; "]"];
   sel ["span:contains("; "delivery"; ")"];
   sel ["span:contains("; "shipping"; ")"]].

Definition availability_selectors : list str :=
  [sel ["span[class*="; "stock"; "]"];
   sel ["div[class*="; "availability"; "]"];
   sel ["span:contains("; "bought"; ")"];
   sel ["span:contains("; "stock"; ")"]].

Definition simple_urls : list str :=
  [py "https://httpbin.org/html"; py "https://example.com"].

(** One entry of [self.site_configs]. *)
Record config := Config {
  cfg_name : str;
  cfg_url : str;
  product_selector : str;
  name_selectors : list str;
  price_selectors : list str;
  original_price_selectors : list str;
  rating_selectors : list str;
  reviews_selectors : list str;
  discount_selectors : list str;
  offers_selectors : list str;
  image_selectors : list str;
  cfg_search_query : option str   (* the optional ['search_query'] key *)
}.

Definition amazon_config : config :=
  {| cfg_name := py "Amazon India";
     cfg_url := py "https://www.amazon.in/s?k=mobile+phones";
     product_selector := sel ["div[data-component-type="; "s-search-result"; "]"];
     name_selectors :=
       [sel ["h2 a span[data-component-type="; "s-product-image"; "]"];
        sel ["h2 a span"];
        sel ["h2 span"];
        sel ["span[data-component-type="; "s-product-image"; "]"];
        sel [".s-size-mini span"];
        sel ["h2"]];
     price_selectors :=
       [sel [".a-price-whole"];
        sel [".a-price .a-price-whole"];
        sel ["span.a-price-whole"];
        sel [".a-price-range .a-price-whole"];
        sel ["span[data-a-size="; "xl"; "] .a-price-whole"]];
     original_price_selectors :=
       [sel [".a-price.a-text-price .a-offscreen"];
        sel [".a-text-price .a-offscreen"];
        sel ["span.a-price.a-text-price span"];
        sel [".a-price.a-text-price"]];
     rating_selectors :=
       [sel [".a-icon-alt"];
        sel ["span[aria-label*="; "stars"; "]"];
        sel [".a-icon-star-small .a-icon-alt"];
        sel ["i[data-hook="; "average-star-rating"; "] .a-icon-alt"]];
     reviews_selectors :=
       [sel ["a[href*="; "customerReviews"; "] span"];
        sel ["span[data-hook="; "total-review-count"; "]"];
        sel ["a[href*="; "reviews"; "] span"];
        sel [".a-size-base"]];
     discount_selectors :=
       [sel [".a-badge-text"];
        sel ["span:contains("; "% off"; ")"];
        sel ["span:contains("; "off"; ")"];
        sel [".a-color-price"]];
     offers_selectors :=
       [sel [".s-coupon-unclipped"];
        sel [".a-color-base:contains("; "coupon"; ")"];
        sel ["span:contains("; "back with"; ")"];
        sel [".a-color-secondary"]];
     image_selectors :=
       [sel [".s-image img"];
        sel ["img[data-src]"];
        sel ["img[src]"];
        sel [".s-product-image img"]];
     cfg_search_query := None |}.

Definition flipkart_config : config :=
  {| cfg_name := py "Flipkart";
     cfg_url := py "https://www.flipkart.com/search?q=mobile+phones";
     product_selector := sel ["div[data-id]"];
     name_selectors :=
       [sel ["a[title]"];
        sel ["div[class*="; "title"; "] a"];
        sel ["div[class*="; "title"; "]"];
        sel ["a[href*="; "/p/"; "]"];
        sel ["div[class*="; "product"; "] a"]];
     price_selectors :=
       [sel ["div[class*="; "price"; "]"];
        sel ["span[class*="; "price"; "]"];
        sel ["div[class*="; "Nx9bqj"; "]"];
        sel ["div[class*="; "a-price-whole"; "]"];
        sel ["span[class*="; "a-price-whole"; "]"]];
     original_price_selectors :=
       [sel ["div[class*="; "strike"; "]"];
        sel ["span[class*="; "strike"; "]"];
        sel ["div[class*="; "yRaY8j"; "]"];
        sel ["span[class*="; "yRaY8j"; "]"]];
     rating_selectors :=
       [sel ["div[class*="; "rating"; "]"];
        sel ["span[class*="; "rating"; "]"];
        sel ["div[class*="; "XQDdHH"; "]"];
        sel ["span[class*="; "XQDdHH"; "]"];
        sel ["div[class*="; "star"; "]"];
        sel ["span[class*="; "star"; "]"]];
     reviews_selectors :=
       [sel ["span[class*="; "review"; "]"];
        sel ["div[class*="; "review"; "]"];
        sel ["span[class*="; "Wphh3N"; "]"];
        sel ["span[class*="; "Bz-crL"; "]"];
        sel ["span:contains("; "Ratings"; ")"];
        sel ["span:contains("; "ratings"; ")"]];
     discount_selectors :=
       [sel ["div[class*="; "discount"; "]"];
        sel ["span[class*="; "discount"; "]"];
        sel ["div[class*="; "UkUFwK"; "]"];
        sel ["span:contains("; "% off"; ")"];
        sel ["span:contains("; "off"; ")"]];
     offers_selectors :=
       [sel ["div[class*="; "offer"; "]"];
        sel ["span[class*="; "offer"; "]"];
        sel ["div[class*="; "coupon"; "]"];
        sel ["span[class*="; "coupon"; "]"]];
     image_selectors :=
       [sel ["img[src]"];
        sel ["img[data-src]"];
        sel ["img[class*="; "product"; "]"];
        sel ["img[alt*="; "product"; "]"];
        sel [".product-image img"];
        sel ["img[class*="; "image"; "]"]];
     cfg_search_query := None |}.

Definition meesho_config : config :=
  {| cfg_name := py "Meesho";
     cfg_url := py "https://www.meesho.com/search?q=saree";
     product_selector := sel ["div[class*="; "product"; "]"];
     name_selectors :=
       [sel ["div[class*="; "title"; "]"];
        sel ["h1"];
        sel ["h2"];
        sel ["h3"];
        sel ["span[class*="; "title"; "]"]];
     price_selectors :=
       [sel ["span[class*="; "price"; "]"];
        sel ["div[class*="; "price"; "]"];
        sel ["span[class*="; "amount"; "]"]];
     original_price_selectors :=
       [sel ["span[class*="; "strike"; "]"];
        sel ["span[class*="; "original"; "]"]];
     rating_selectors :=
       [sel ["span[class*="; "rating"; "]"];
        sel ["div[class*="; "star"; "]"];
        sel ["span[class*="; "score"; "]"]];
     reviews_selectors :=
       [sel ["span[class*="; "review"; "]"];
        sel ["span:contains("; "ratings"; ")"]];
     discount_selectors :=
       [sel ["span:contains("; "% off"; ")"];
        sel ["span:contains("; "off"; ")"]];
     offers_selectors :=
       [sel ["span[class*="; "offer"; "]"];
        sel ["div[class*="; "coupon"; "]"]];
     image_selectors :=
       [sel ["img[src]"];
        sel ["img[data-src]"];
        sel ["img[class*="; "product"; "]"];
        sel ["img[alt*="; "product"; "]"];
        sel [".product-image img"];
        sel ["img[class*="; "image"; "]"]];
     cfg_search_query := None |}.

Definition sathya_config : config :=
  {| cfg_name := py "Sathya Store";
     cfg_url := py "https://www.sathya.store/search?category=&q=vivo+mobile";
     product_selector := sel ["div.product-box"];
     name_selectors :=
       [sel ["a[href*="; "/category/"; "]"];
        sel ["img[alt]"];
        sel ["h4"];
        sel ["h3"];
        sel ["div[class*="; "title"; "]"]];
     price_selectors :=
       [sel ["h4:contains("; "₹"; ")"];
        sel ["span:contains("; "₹"; ")"];
        sel ["div:contains("; "₹"; ")"];
        sel ["p:contains("; "₹"; ")"]];
     original_price_selectors :=
       [sel ["span[class*="; "strike"; "]"];
        sel ["span[class*="; "original"; "]"];
        sel ["del"];
        sel ["span:contains("; "MRP"; ")"];
        sel ["span:contains("; "M.R.P"; ")"];
        sel ["div:contains("; "MRP"; ")"];
        sel ["p:contains("; "MRP"; ")"]];
     rating_selectors :=
       [sel ["div[class*="; "star"; "]"];
        sel ["span[class*="; "rating"; "]"];
        sel ["div[class*="; "review"; "]"];
        sel ["div[class*="; "rating"; "]"];
        sel ["span[class*="; "score"; "]"];
        sel ["div[class*="; "Rating"; "]"]];
     reviews_selectors :=
       [sel ["span[class*="; "review"; "]"];
        sel ["span:contains("; "ratings"; ")"];
        sel ["div:contains("; "ratings"; ")"];
        sel ["span:contains("; "Reviews"; ")"];
        sel ["div:contains("; "Reviews"; ")"];
        sel ["span[class*="; "Review"; "]"]];
     discount_selectors :=
       [sel ["span:contains("; "% off"; ")"];
        sel ["span:contains("; "off"; ")"];
        sel ["div:contains("; "Save"; ")"]];
     offers_selectors :=
       [sel ["span[class*="; "offer"; "]"];
        sel ["div[class*="; "coupon"; "]"];
        sel ["div:contains("; "Save"; ")"]];
     image_selectors :=
       [sel ["img[src]"];
        sel ["img[data-src]"];
        sel ["img[alt]"];
        sel ["img[class*="; "product"; "]"];
        sel ["img[class*="; "image"; "]"];
        sel [".product-box img"];
        sel ["img[class*="; "box"; "]"]];
     cfg_search_query := None |}.

(** [self.site_configs], in insertion order. *)
Definition site_configs : list (str * config) :=
  [(py "amazon", amazon_config); (py "flipkart", flipkart_config);
   (py "meesho", meesho_config); (py "sathya", sathya_config)].

Fixpoint lookup_config (site_key : str) (l : list (str * config)) : option config :=
  match l with
  | [] => None
  | (k, c) :: l' => if str_eqb site_key k then Some c else lookup_config site_key l'
  end.

(** [sites_to_test] of [main] *)
Definition sites_to_test : list (str * str) :=
  [(py "amazon", py "mobile phones"); (py "flipkart", py "mobile phones");
   (py "meesho", py "saree"); (py "sathya", py "vivo mobile")].

End Patterns.
Import Patterns.

(* ===================================================================== *)
(** ** The scraper *)
(* ===================================================================== *)

(** What [crawler.arun] returns. *)
Record crawl_result := CrawlResult {
  success : bool;
  html : str;
  extracted_content : list str
}.

(** [a or b] on an optional string. *)
Definition str_or (a : option str) (b : str) : str :=
  match a with
  | Some s => if truthy s then s else b
  | None => b
  end.

Definition nonempty {A} (l : list A) : bool :=
  match l with [] => false | _ => true end.

(** The text of group 1 of a match in which the group took part. *)
Definition group1_text (m : match_obj) : str := default [] (group1 m).

(** [[line.strip() for line in text.split('\n') if line.strip()]] *)
Definition stripped_lines (text : str) : list str :=
  map strip (List.filter (fun line => truthy (strip line)) (split text newline)).

(** The dict literal every extractor returns. *)
Definition product_dict (index : Z) (name current_price original_price rating
    reviews discount : str) (offers : list str) (image_url delivery
    availability search_query site scraped_at : str) : product :=
  Product
    (<["name" := name]> (<["current_price" := current_price]>
     (<["original_price" := original_price]> (<["rating" := rating]>
     (<["reviews" := reviews]> (<["discount" := discount]>
     (<["image_url" := image_url]> (<["delivery" := delivery]>
     (<["availability" := availability]> (<["search_query" := search_query]>
     (<["site" := site]> (<["scraped_at" := scraped_at]> ∅))))))))))))
    index offers.

(** [tag.get(key)]: the value of an attribute of an element, [None] when the
    element does not have it.  ([attrs] lists the items of the attribute
    dict.) *)
Definition get_attr (n : node) (key : str) : option str :=
  match n with
  | Tag _ ats _ => snd <$> List.find (fun kv => str_eqb (fst kv) key) ats
  | _ => None
  end.

(** How one iteration of a selector loop ends: with a [return], by going
    on to the next iteration, or with an exception. *)
Inductive iteration :=
| Return (v : str)
| Continue
| Fail.

(** [a or b] on two optional strings: [a] when it is a non-empty string,
    [b] otherwise. *)
Definition opt_or (a b : option str) : option str :=
  match a with
  | Some s => if truthy s then a else b
  | None => b
  end.

(** One iteration of the grouping loop of [print_summary]:
    [if site not in by_site: by_site[site] = []] and
    [by_site[site].append(product)], on a dict kept in insertion order. *)
Fixpoint group_append {A} (site : str) (product : A) (by_site : list (str * list A))
  : list (str * list A) :=
  match by_site with
  | [] => [(site, [product])]
  | (k, v) :: by_site' =>
    if str_eqb k site then (k, v ++ [product]) :: by_site'
    else (k, v) :: group_append site product by_site'
  end.

(** [by_site] when the grouping loop of [print_summary] ends. *)
Definition by_site (products : list product) : list (str * list product) :=
  fold_left (fun by_site product =>
               group_append (default (py "unknown") (fields product !! "site"))
                            product by_site)
            products [].

(** The column order of [save_to_csv]. *)
Definition column_order : list string :=
  ["index"; "search_query"; "name"; "current_price"; "original_price";
   "rating"; "reviews"; "discount"; "offers"; "image_url";
   "delivery"; "availability"; "site"; "scraped_at"]%string.

(** A cell of a row: an int, a string, or [None]. *)
Inductive cell :=
| CInt (z : Z)
| CStr (s : str)
| CNone.

(** [offers_str]: ['; '.join(product.get('offers', [])) if product.get('offers') else ''] *)
Definition offers_str (product : product) : str :=
  if nonempty (offers product) then join (py "; ") (offers product) else [].

(** One row of [csv_data] in [save_to_csv], as the list of its items. *)
Definition csv_row (product : product) : list (string * cell) :=
  map (fun field =>
         (field,
          if String.eqb field "offers" then CStr (offers_str product)
          else if String.eqb field "index" then CInt (index product)
          else CStr (default NA (fields product !! field))))
      column_order.

(** One [db_product] of [save_to_supabase], as the list of its items. *)
Definition db_product (product : product) : list (string * cell) :=
  [("index", CInt (index product));
   ("search_query", CStr (default NA (fields product !! "search_query")));
   ("name", CStr (default NA (fields product !! "name")));
   ("current_price", CStr (default NA (fields product !! "current_price")));
   ("original_price", CStr (default NA (fields product !! "original_price")));
   ("rating", CStr (default NA (fields product !! "rating")));
   ("reviews", CStr (default NA (fields product !! "reviews")));
   ("discount", CStr (default NA (fields product !! "discount")));
   ("offers", CStr (offers_str product));
   ("image_url", CStr (default NA (fields product !! "image_url")));
   ("delivery", CStr (default NA (fields product !! "delivery")));
   ("availability", CStr (default NA (fields product !! "availability")));
   ("site", CStr (default NA (fields product !! "site")));
   ("scraped_at", match fields product !! "scraped_at" with
                  | Some t => CStr t
                  | None => CNone
                  end)]%string.

(* ===================================================================== *)
(** ** Concrete documents and environments *)
(* ===================================================================== *)

Module Fixtures.

(** The elements of a tree with a given tag name, in document order. *)
Fixpoint elements_named (name : str) (n : node) : list node :=
  match n with
  | Tag nm _ cs =>
    (if str_eqb nm name then [n] else []) ++ flat_map (elements_named name) cs
  | _ => []
  end.

(** A selector engine that knows type selectors only: a selector selects
    the elements below the soup whose tag name it is. *)
Definition by_tag_name (selector : str) (soup : node) : option (list node) :=
  Some (flat_map (elements_named selector) (children soup)).

(** A pattern compiler for patterns without metacharacters. *)
Definition literal_pattern (p : str) : option regex := Some (WordI p).

(** A parser for markup without tags: the document is one string. *)
Definition text_document (html : str) : node :=
  Tag (py "[document]") [] [Text html].

Definition no_name (soup : node) : str := NA.
Definition no_image (soup : node) (selectors : list str) (site_key : str) : str := NA.
Definition epoch (t : nat) : str := py "1970-01-01T00:00:00".

Definition empty_session : scraper := Scraper [] [] [] 0.

(** [<div><span>10% off</span><b>Free gift</b></div>] *)
Definition offer_card : node :=
  Tag (py "div") []
      [Tag (py "span") [] [Text (py "10% off")];
       Tag (py "b") [] [Text (py "Free gift")]].

(** [<div><span>Free delivery <b>tomorrow</b></span></div>] *)
Definition delivery_span : node :=
  Tag (py "span") []
      [Text (py "Free delivery "); Tag (py "b") [] [Text (py "tomorrow")]].

Definition delivery_card : node := Tag (py "div") [] [delivery_span].

(** The four lines of visible text of the heuristic example. *)
Definition mouse_text : str :=
  join newline [py "₹799"; py "Wireless Mouse"; py "4.2 out of 5"; py "230 ratings"].

(** A page of [article] elements. *)
Definition article (text : str) : node := Tag (py "article") [] [Text text].

Definition listing_page : node :=
  Tag (py "[document]") []
      [article (py "Noise ColorFit Pulse 2 Smartwatch"); article (py "₹499 only today")].

Definition parse_listing (html : str) : node := listing_page.

(** A crawler that always loads the same markup and isolates no fragment. *)
Definition crawl_ok (t : nat) (url : str) (css_selector : option str)
  : option crawl_result :=
  Some (CrawlResult true (py "<html></html>") []).

(** A crawler whose first fetch raises and whose later fetches succeed. *)
Definition crawl_second (t : nat) (url : str) (css_selector : option str)
  : option crawl_result :=
  match t with
  | O => None
  | _ => Some (CrawlResult true (py "<title>Example Domain</title>") [])
  end.

Definition title_page (html : str) : node :=
  Tag (py "[document]") [] [Tag (py "title") [] [Text (py "Example Domain")]].

(** A raw field map with a boilerplate name and an unclean price. *)
Definition sponsored_dict : product :=
  Product (<["name" := py "Sponsored"]>
           (<["current_price" := py "Rs. 1,299"]>
            (<["site" := py "amazon"]> ∅))) 1 [].

Definition twice_sponsored_dict : product :=
  Product (<["name" := py "SponsoredSponsored Phone"]> ∅) 1 [].

Definition short_name_dict : product :=
  Product (<["name" := py "Mini"]> ∅) 1 [].

Definition medium_name_dict : product :=
  Product (<["name" := py "Phone X"]> ∅) 1 [].

Definition priced_dict : product :=
  Product (<["current_price" := py "₹ 12,999 (incl. taxes)"]> ∅) 1 [].

(** A crawler for which every fetch raises. *)
Definition crawl_down (t : nat) (url : str) (css_selector : option str)
  : option crawl_result := None.

(** A crawler whose context manager never raises, and one that cannot be
    opened the first time it is asked for. *)
Definition crawler_fine (t : nat) : option exn := None.

Definition crawler_late (t : nat) : option exn :=
  if Nat.eqb t 0 then Some CrawlerError else None.

(** One that raises whenever it is closed. *)
Definition crawler_stuck (t : nat) : option exn := Some CrawlerError.

(** A product card whose only rupee sign is in a comment, the page and the
    fetch that deliver it as the one extracted fragment, and a name helper
    that finds a name in it. *)
Definition comment_card : node := Tag (py "div") [] [Comment (py "₹ 999")].

Definition parse_comment_card (html : str) : node := comment_card.

Definition crawl_fragment (t : nat) (url : str) (css_selector : option str)
  : option crawl_result :=
  Some (CrawlResult true (py "<div><!--₹ 999--></div>") [py "<div><!--₹ 999--></div>"]).

Definition vivo_name (soup : node) : str := py "Vivo Y28 5G Mobile".

(** A raw field map without a current price: a boilerplate name, a rating
    and a review count. *)
Definition unpriced_dict : product :=
  Product (<["name" := py "Sponsored"]>
           (<["rating" := py "4.2 stars"]>
            (<["reviews" := py "230 ratings"]> ∅))) 1 [].

(** The other entries of a record with a price and a rating. *)
Definition rated_entries : gmap string str :=
  <["current_price" := py "₹499"]> (<["rating" := py "4.2 stars"]> ∅).

(** The visible text of a page with one product: a name, a price line and
    a delivery line. *)
Definition single_product_text : str :=
  join newline [py "Wireless Mouse"; py "Price ₹799 only"; py "Ships tomorrow"].

(** A record with two offers and no timestamp. *)
Definition offers_dict : product :=
  Product (<["name" := py "Wireless Mouse"]> ∅) 1 [py "10% off"; py "Free gift"].

End Fixtures.

Section Scraper.

(** The libraries and the environment the scraper calls into. *)

(** [soup.select(selector)]; [None] when the selector is rejected with an
    exception.  [soup.select_one] is its first element. *)
Variable css_select : str -> node -> option (list node).
(** [re.compile(pattern, re.IGNORECASE)]; [None] when it raises. *)
Variable re_compile_i : str -> option regex.
(** [BeautifulSoup(html, 'html.parser')] *)
Variable parse_html : str -> node.
(** [crawler.arun(url=..., css_selector=...)] at the given consultation of the
    environment; [None] when it raises. *)
Variable arun : nat -> str -> option str -> option crawl_result.
(** [async with AsyncWebCrawler() as crawler:] in [scrape_site], where the
    statement is outside the [try]: what the constructor or [__aenter__]
    raises when the block is entered, and what [__aexit__] raises when it is
    left, at a given time ([None]: nothing). *)
Variable crawler_enter : nat -> option exn.
Variable crawler_exit : nat -> option exn.
(** [datetime.now().isoformat()] at the given consultation. *)
Variable isoformat_now : nat -> str.
(** The site-specific helpers for the name and original price of one site and
    the image helper.  Each catches its own exceptions and touches no state;
    what it returns only fills its entry of the dict, and nothing below
    depends on it. *)
Variable extract_sathya_name : node -> str.
Variable extract_sathya_original_price : node -> str.
Variable extract_product_image : node -> list str -> str -> str.

(** *** Field resolution *)

(** [selector.split(':contains("')[1].split('")')[0]]; [None] is the
    [IndexError] of the first subscript. *)
Definition text_to_find (selector : str) : option str :=
  match split selector (py ":contains(" ++ dq) !! 1 with
  | Some t => head (split t (dq ++ py ")"))
  | None => None
  end.

(** One iteration of the loop of [extract_with_multiple_selectors]:
    [Some text] when the iteration returns [text], [None] when control
    reaches the next iteration (also through the [except] clause).  In the
    text-containment branch the parent of a string found below [soup] always
    exists and is an element, so the branch returns its text. *)
Definition try_selector (soup : node) (selector : str) : option str :=
  if contains (py ":contains(") selector then
    match text_to_find selector with
    | None => None
    | Some t =>
      match re_compile_i t with
      | None => None
      | Some r =>
        match find_all_string soup r with
        | (_, parent) :: _ => Some (get_text_strip parent)
        | [] => None
        end
      end
    end
  else
    match css_select selector soup with
    | None => None
    | Some [] => None
    | Some (element :: _) =>
      let text := get_text_strip element in
      if truthy text && negb (str_eqb text NA) && Nat.ltb 0 (length text)
      then Some text else None
    end.

(** The loop, instrumented: the second component lists the selectors whose
    iteration was entered, in order. *)
Fixpoint extract_with_multiple_selectors_traced (soup : node) (selectors : list str)
  : str * list str :=
  match selectors with
  | [] => (NA, [])
  | selector :: selectors' =>
    match try_selector soup selector with
    | Some text => (text, [selector])
    | None =>
      let r := extract_with_multiple_selectors_traced soup selectors' in
      (fst r, selector :: snd r)
    end
  end.

Definition extract_with_multiple_selectors (soup : node) (selectors : list str)
    (field_name : str) : str :=
  fst (extract_with_multiple_selectors_traced soup selectors).

(** One iteration of the loop of [extract_offers_with_config]: the offers
    list after it. *)
Definition offers_step (soup : node) (offers : list str) (selector : str) : list str :=
  if contains (py ":contains(") selector then
    match text_to_find selector with
    | None => offers
    | Some t =>
      match re_compile_i t with
      | None => offers
      | Some r =>
        fold_left (fun offers element =>
                     if truthy (strip (fst element))
                     then offers ++ [strip (fst element)] else offers)
                  (find_all_string soup r) offers
      end
    end
  else
    match css_select selector soup with
    | None => offers
    | Some elements =>
      fold_left (fun offers element =>
                   let text := get_text_strip element in
                   if truthy text && negb (bool_decide (text ∈ offers))
                   then offers ++ [text] else offers)
                elements offers
    end.

(** The loop, instrumented as above. *)
Fixpoint extract_offers_traced (soup : node) (selectors : list str) (offers : list str)
  : list str * list str :=
  match selectors with
  | [] => (offers, [])
  | selector :: selectors' =>
    let r := extract_offers_traced soup selectors' (offers_step soup offers selector) in
    (fst r, selector :: snd r)
  end.

Definition extract_offers_with_config (soup : node) (selectors : list str) : list str :=
  fst (extract_offers_traced soup selectors []).

(** The loop shared by [extract_delivery_info] and [extract_availability]:
    every text-containment selector searches for the same fixed pattern and
    returns the string found, stripped. *)
Fixpoint extract_fixed_pattern (soup : node) (r : regex) (selectors : list str) : str :=
  match selectors with
  | [] => NA
  | selector :: selectors' =>
    if contains (py ":contains(") selector then
      match find_all_string soup r with
      | (s, _) :: _ => strip s
      | [] => extract_fixed_pattern soup r selectors'
      end
    else
      match css_select selector soup with
      | Some (element :: _) => get_text_strip element
      | _ => extract_fixed_pattern soup r selectors'
      end
  end.

Definition extract_delivery_info (soup : node) : str :=
  extract_fixed_pattern soup re_delivery delivery_selectors.

Definition extract_availability (soup : node) : str :=
  extract_fixed_pattern soup re_availability availability_selectors.

(** *** The image helper *)

(** [str.lower] *)
Variable lower : str -> str.

Definition image_extensions : list str :=
  [py ".jpg"; py ".jpeg"; py ".png"; py ".webp"; py ".gif"].

(** [clean_image_url]; [url] and [site_key] may be [None]. *)
Definition clean_image_url (url : option str) (site_key : option str) : str :=
  match url with
  | None => NA
  | Some url =>
    if negb (truthy url) || str_eqb url NA then NA
    else
      let url := strip url in
      let url :=
        if startswith url (py "//") then py "https:" ++ url
        else if startswith url (py "/") then
          if bool_decide (site_key = Some (py "amazon")) then py "https://www.amazon.in" ++ url
          else if bool_decide (site_key = Some (py "flipkart"))
               then py "https://www.flipkart.com" ++ url
          else if bool_decide (site_key = Some (py "meesho"))
               then py "https://www.meesho.com" ++ url
          else if bool_decide (site_key = Some (py "sathya"))
               then py "https://www.sathya.store" ++ url
          else py "https://www.amazon.in" ++ url
        else url in
      if contains (py "?") url then
        let base_url := List.hd [] (split url (py "?")) in
        if existsb (fun ext => contains ext (lower base_url)) image_extensions
        then base_url else url
      else url
  end.

(** One iteration of the loop of [extract_product_image]: [Some url] when
    the iteration returns [url], [None] when control reaches the next
    iteration (also through the [except] clause). *)
Definition image_step (soup : node) (selector : str) (site_key : option str)
  : option str :=
  if contains (py ":contains(") selector then
    match text_to_find selector with
    | None => None
    | Some t =>
      match re_compile_i t with
      | None => None
      | Some r =>
        match find_all_string soup r with
        | (_, parent) :: _ =>
          match find parent (py "img") with
          | Some img =>
            Some (clean_image_url
                    (opt_or (get_attr img (py "src")) (get_attr img (py "data-src")))
                    site_key)
          | None => None
          end
        | [] => None
        end
      end
    end
  else
    match css_select selector soup with
    | Some (img :: _) =>
      match opt_or (opt_or (get_attr img (py "src")) (get_attr img (py "data-src")))
                   (get_attr img (py "data-lazy-src")) with
      | Some src => if truthy src then Some (clean_image_url (Some src) site_key) else None
      | None => None
      end
    | _ => None
    end.

(** [extract_product_image] as the source defines it (the scraper above
    takes the helper as a parameter of the same name). *)
Fixpoint extract_product_image' (soup : node) (selectors : list str)
    (site_key : option str) : str :=
  match selectors with
  | [] => NA
  | selector :: selectors' =>
    match image_step soup selector site_key with
    | Some url => url
    | None => extract_product_image' soup selectors' site_key
    end
  end.

(** *** The original price of the Sathya store *)

Definition mrp_selectors : list str :=
  [sel ["span:contains("; "MRP"; ")"];
   sel ["div:contains("; "MRP"; ")"];
   sel ["p:contains("; "MRP"; ")"]].

(** [₹([\d,]+)] *)
Definition re_rupee_amount : regex := Cat (Lit rupee) (Grp (Plus digit_or_comma)).

(** [[:\s]] *)
Definition colon_or_space : regex := Cls (fun c => (c =? 58)%N || isspace c).

(** [MRP[:\s]*₹?([\d,]+)], [M\.R\.P[:\s]*₹?([\d,]+)], [₹([\d,]+)\s*\(MRP\)]
    and [₹([\d,]+)\s*\(M\.R\.P\)], each under [re.IGNORECASE]. *)
Definition mrp_patterns : list regex :=
  [Cat (WordI (py "MRP"))
       (Cat (Star colon_or_space) (Cat (Opt (Lit rupee)) (Grp (Plus digit_or_comma))));
   Cat (WordI (py "M.R.P"))
       (Cat (Star colon_or_space) (Cat (Opt (Lit rupee)) (Grp (Plus digit_or_comma))));
   Cat (Lit rupee)
       (Cat (Grp (Plus digit_or_comma)) (Cat (Star space) (WordI (py "(MRP)"))));
   Cat (Lit rupee)
       (Cat (Grp (Plus digit_or_comma)) (Cat (Star space) (WordI (py "(M.R.P)"))))].

(** One iteration of the loop over [mrp_selectors]. *)
Definition mrp_step (soup : node) (selector : str) : iteration :=
  if contains (py ":contains(") selector then
    match text_to_find selector with
    | None => Fail
    | Some t =>
      match re_compile_i t with
      | None => Fail
      | Some r =>
        match find_all_string soup r with
        | (_, parent) :: _ =>
          match search re_rupee_amount (get_text_strip parent) with
          | Some price_match => Return (rupee :: group1_text price_match)
          | None => Continue
          end
        | [] => Continue
        end
      end
    end
  else Continue.

Fixpoint mrp_by_selectors (soup : node) (selectors : list str) : iteration :=
  match selectors with
  | [] => Continue
  | selector :: selectors' =>
    match mrp_step soup selector with
    | Continue => mrp_by_selectors soup selectors'
    | ended => ended
    end
  end.

(** The loop over [mrp_patterns]. *)
Fixpoint mrp_by_patterns (text_content : str) (patterns : list regex) : option str :=
  match patterns with
  | [] => None
  | pattern :: patterns' =>
    match search pattern text_content with
    | Some m => Some (rupee :: group1_text m)
    | None => mrp_by_patterns text_content patterns'
    end
  end.

(** [extract_sathya_original_price] as the source defines it (the scraper
    below takes the helper as a parameter of the same name): an exception
    anywhere ends in the sentinel. *)
Definition extract_sathya_original_price' (soup : node) : str :=
  match mrp_by_selectors soup mrp_selectors with
  | Return price => price
  | Fail => NA
  | Continue =>
    match mrp_by_patterns (get_text_strip soup) mrp_patterns with
    | Some price => price
    | None => NA
    end
  end.

(** *** Cleaning and validation *)

(** The name after the prefix loop of [clean_product_data]. *)
Definition clean_name (name : str) : str :=
  fold_left (fun name prefix =>
               if startswith name prefix
               then strip (drop (length prefix) name) else name)
            prefixes_to_remove (strip name).

Definition clean_price (price : str) : str :=
  match search re_digits_commas price with
  | Some m => rupee :: group0 m
  | None => NA
  end.

Definition clean_rating (rating : str) : str :=
  match search re_number rating with
  | Some m => group1_text m
  | None => NA
  end.

Definition clean_reviews (reviews : str) : str :=
  match search re_integer reviews with
  | Some m => group1_text m
  | None => NA
  end.

(** [if product_data.get(k): product_data[k] = f(product_data[k])] *)
Definition clean_entry (product_data : nat) (k : string) (f : str -> str) : M unit :=
  v <- dict_get product_data k ;;
  match v with
  | Some v => if truthy v then dict_setitem product_data k (f v) else ret tt
  | None => ret tt
  end.

(** The branch of the current price.  The [import re] in it is what binds
    the name [re], which the [import] makes a local of [clean_product_data]:
    the result says whether the branch was taken. *)
Definition clean_current_price (product_data : nat) : M bool :=
  v <- dict_get product_data "current_price" ;;
  match v with
  | Some v =>
    if truthy v
    then dict_setitem product_data "current_price" (clean_price v) ;;; ret true
    else ret false
  | None => ret false
  end.

(** The branches of the rating and of the reviews, which call [re.search]:
    [if product_data.get(k): ... re.search(...) ...], an
    [UnboundLocalError] when [re] is not bound. *)
Definition clean_entry_re (re_bound : bool) (product_data : nat) (k : string)
    (f : str -> str) : M unit :=
  v <- dict_get product_data k ;;
  match v with
  | Some v =>
    if truthy v then
      if re_bound then dict_setitem product_data k (f v)
      else raise (UnboundLocalError "re")
    else ret tt
  | None => ret tt
  end.

(** [clean_product_data]: writes into the dict it is given and returns that
    same dict. *)
Definition clean_product_data (product_data : nat) : M nat :=
  clean_entry product_data "name" clean_name ;;;
  re_bound <- clean_current_price product_data ;;
  clean_entry_re re_bound product_data "rating" clean_rating ;;;
  clean_entry_re re_bound product_data "reviews" clean_reviews ;;;
  ret product_data.

(** The checks of [validate_product_data] on the name it reads back. *)
Definition name_checks (name site_key : str) : bool :=
  if negb (truthy name) || str_eqb name NA then false
  else if existsb (fun pattern => contains pattern name) bad_name_patterns then false
  else if Nat.ltb (length name) 5 then false
  else if isdigit name then false
  else if startswith name [rupee] then false
  else if str_eqb site_key (py "amazon") then
    (if Nat.ltb (length name) 10 then false else true)
  else if str_eqb site_key (py "flipkart") then
    (if Nat.ltb (length name) 5 then false else true)
  else if str_eqb site_key (py "sathya") then
    (if Nat.ltb (length name) 2 then false
     else if startswith name [rupee] then false else true)
  else if str_eqb site_key (py "meesho") then
    (if Nat.ltb (length name) 3 then false else true)
  else true.

Definition validate_product_data (product_data : nat) (site_key : str) : M bool :=
  product_data <- clean_product_data product_data ;;
  name <- dict_getitem product_data "name" ;;
  ret (name_checks name site_key).

(** *** Building records *)

(** [if product_data and self.validate_product_data(product_data, site_key):
    self.products.append(product_data)] *)
Definition append_if_valid (product_data : option nat) (site_key : str) : M unit :=
  match product_data with
  | None => ret tt
  | Some d =>
    ok <- validate_product_data d site_key ;;
    if ok then append_product d else ret tt
  end.

Definition extract_from_text_chunk (text_chunk : str) (index : Z) (site_key : str)
    (search_query : option str) : M (option nat) :=
  match stripped_lines text_chunk with
  | [] => ret None
  | first :: others =>
    let current_price :=
      match search re_price text_chunk with Some m => group0 m | None => NA end in
    let rating :=
      match search re_rating text_chunk with Some m => group1_text m | None => NA end in
    let reviews :=
      match search re_reviews text_chunk with Some m => group0 m | None => NA end in
    let name :=
      match List.find (fun line =>
                    Nat.ltb (length first) (length line)
                    && negb (startswith line [rupee])
                    && negb (bool_decide (is_Some (re_match re_leading_digits line))))
                 others with
      | Some line => line
      | None => first
      end in
    let name := take 100 name in
    t <- tick ;;
    d <- new_dict (product_dict index name current_price NA rating reviews NA []
                     NA NA NA (str_or search_query NA) site_key (isoformat_now t)) ;;
    ret (Some d)
  end.

Definition extract_basic_product_data (element : node) (index : Z) (site_key : str)
    (search_query : option str) : M (option nat) :=
  let text_content := get_text_strip element in
  if Nat.ltb (length text_content) 10 then ret None
  else
    let current_price :=
      match search re_price text_content with Some m => group0 m | None => NA end in
    let rating :=
      match search re_rating text_content with Some m => group1_text m | None => NA end in
    let lines := stripped_lines text_content in
    let name := match lines with first :: _ => first | [] => NA end in
    let name :=
      if startswith name [rupee] || startswith name (py "(") || Nat.ltb (length name) 3
      then match lines with _ :: second :: _ => second | _ => NA end
      else name in
    t <- tick ;;
    d <- new_dict (product_dict index (take 100 name) current_price NA rating NA NA []
                     NA NA NA (str_or search_query NA) site_key (isoformat_now t)) ;;
    ret (Some d).

Definition extract_product_data_with_config (soup : node) (index : Z) (config : config)
    (site_key : str) (search_query : option str) : M (option nat) :=
  let search_query :=
    if negb (truthy (str_or search_query [])) then
      match cfg_search_query config with
      | Some q => Some q
      | None => search_query
      end
    else search_query in
  let name :=
    if str_eqb site_key (py "sathya") then extract_sathya_name soup
    else extract_with_multiple_selectors soup (name_selectors config) (py "Product name") in
  let current_price :=
    extract_with_multiple_selectors soup (price_selectors config) (py "Current price") in
  let original_price :=
    if str_eqb site_key (py "sathya") then extract_sathya_original_price soup
    else extract_with_multiple_selectors soup (original_price_selectors config)
           (py "Original price") in
  let rating := extract_with_multiple_selectors soup (rating_selectors config) (py "Rating") in
  let reviews := extract_with_multiple_selectors soup (reviews_selectors config) (py "Reviews") in
  let discount := extract_with_multiple_selectors soup (discount_selectors config) (py "Discount") in
  let offers := extract_offers_with_config soup (offers_selectors config) in
  let image_url := extract_product_image soup (image_selectors config) site_key in
  let delivery := extract_delivery_info soup in
  let availability := extract_availability soup in
  t <- tick ;;
  d <- new_dict (product_dict index name current_price original_price rating reviews
                   discount offers image_url delivery availability
                   (str_or search_query NA) site_key (isoformat_now t)) ;;
  ret (Some d).

(** *** Tier 1: the configured selectors *)

(** The loop over candidates shared by the two tier-1 parsers: [soup_of]
    turns a candidate into the fragment to extract from. *)
Definition parse_candidates {A} (soup_of : A -> node) (candidates : list A)
    (config : config) (site_key : str) (search_query : option str) : M unit :=
  for_each (enumerate candidates) (fun ic =>
    try_except
      (product_data <- extract_product_data_with_config (soup_of (snd ic))
                         (Z.of_nat (fst ic) + 1) config site_key search_query ;;
       append_if_valid product_data site_key)
      (fun _ => ret tt)).

Definition parse_products_with_config (product_elements : list str) (config : config)
    (site_key : str) (search_query : option str) : M unit :=
  parse_candidates parse_html product_elements config site_key search_query.

(** The first of the fallback selectors that selects anything. *)
Fixpoint first_containers (soup : node) (selectors : list str) : M (list node) :=
  match selectors with
  | [] => ret []
  | selector :: selectors' =>
    match css_select selector soup with
    | None => raise SelectorError
    | Some [] => first_containers soup selectors'
    | Some containers => ret containers
    end
  end.

Definition parse_products_from_html_with_config (html_content : str) (config : config)
    (site_key : str) (search_query : option str) : M unit :=
  let soup := parse_html html_content in
  product_containers <-
    match css_select (product_selector config) soup with
    | None => raise SelectorError
    | Some [] => first_containers soup fallback_selectors
    | Some containers => ret containers
    end ;;
  parse_candidates (fun c => c) product_containers config site_key search_query.

(** *** Tier 2: generic containers *)

(** The body of the loop over the selected elements. *)
Definition alternative_candidate (site_key : str) (search_query : option str)
    (ie : nat * node) : M unit :=
  emit (EvCandidate (fst ie)) ;;;
  try_except
    (product_data <- extract_basic_product_data (snd ie)
                       (Z.of_nat (fst ie) + 1) site_key search_query ;;
     append_if_valid product_data site_key)
    (fun _ => ret tt).

(** The loop over [alternative_selectors]. *)
Fixpoint alternative_loop (soup : node) (site_key : str) (search_query : option str)
    (selectors : list str) : M unit :=
  match selectors with
  | [] => ret tt
  | selector :: selectors' =>
    emit (EvSelect selector) ;;;
    match css_select selector soup with
    | None => raise SelectorError
    | Some [] => alternative_loop soup site_key search_query selectors'
    | Some elements =>
      for_each (enumerate (take 10 elements))
               (alternative_candidate site_key search_query)
    end
  end.

Definition try_alternative_parsing (result : crawl_result) (config : config)
    (site_key : str) (search_query : option str) : M unit :=
  emit EvAlternative ;;;
  try_except
    (alternative_loop (parse_html (html result)) site_key search_query
       alternative_selectors)
    (fun _ => ret tt).

(** *** Tier 3: chunks of visible text *)

(** [[line.strip() for line in text_content.split('\n')
      if line.strip() and len(line.strip()) > 5]] *)
Definition substantial_lines (text_content : str) : list str :=
  map strip (List.filter (fun line => truthy (strip line) && Nat.ltb 5 (length (strip line)))
                    (split text_content newline)).

Definition is_anchor (line : str) : bool :=
  bool_decide (is_Some (search re_rupee_digits line))
  || bool_decide (is_Some (search re_stars_ratings line)).

(** One iteration of the segmentation loop on [(product_chunks, current_chunk)]. *)
Definition chunk_step (st : list str * list str) (line : str) : list str * list str :=
  let product_chunks := fst st in
  let current_chunk := snd st in
  if is_anchor line then
    ((if nonempty current_chunk
      then product_chunks ++ [join newline current_chunk] else product_chunks),
     [line])
  else if nonempty current_chunk && Nat.ltb (length current_chunk) 5 then
    (product_chunks, current_chunk ++ [line])
  else
    ((if nonempty current_chunk
      then product_chunks ++ [join newline current_chunk] else product_chunks),
     []).

(** [product_chunks] when the loop over the lines ends. *)
Definition product_chunks_of (text_content : str) : list str :=
  fst (fold_left chunk_step (substantial_lines text_content) ([], [])).

(** Everything [try_aggressive_parsing] does with the visible text. *)
Definition parse_text_content (text_content : str) (site_key : str)
    (search_query : option str) : M unit :=
  for_each (enumerate (take 20 (product_chunks_of text_content))) (fun ic =>
    if Nat.ltb 20 (length (snd ic)) then
      product_data <- extract_from_text_chunk (snd ic) (Z.of_nat (fst ic) + 1)
                        site_key search_query ;;
      append_if_valid product_data site_key
    else ret tt).

Definition try_aggressive_parsing (result : crawl_result) (config : config)
    (site_key : str) (search_query : option str) : M unit :=
  emit EvAggressive ;;;
  try_except
    (let soup := decompose_all [py "script"; py "style"] (parse_html (html result)) in
     parse_text_content (get_text soup) site_key search_query)
    (fun _ => ret tt).

(** *** One site *)

(** [[p for p in self.products if p.get('site') == site_key]] *)
Definition products_of_site (site_key : str) : M (list nat) :=
  fun s =>
    (Ok (List.filter (fun p =>
                   match heap s !! p with
                   | Some d => bool_decide (fields d !! "site" = Some site_key)
                   | None => false
                   end) (products s)), s).

(** [not self.products or len([... site ...]) == 0] *)
Definition no_products_of_site (site_key : str) : M bool :=
  all <- get_products ;;
  mine <- products_of_site site_key ;;
  ret (negb (nonempty all) || Nat.eqb (length mine) 0).

(** The first parsing step of [scrape_site]: the extracted content when there
    is some, the full HTML otherwise. *)
Definition structured_parsing (result : crawl_result) (config : config)
    (site_key : str) (search_query : option str) : M unit :=
  if nonempty (extracted_content result)
  then parse_products_with_config (extracted_content result) config
         site_key search_query
  else parse_products_from_html_with_config (html result) config
         site_key search_query.

(** Entering and leaving the [async with] block of [scrape_site].  An
    exception is an answer of the environment, and moves its clock. *)
Definition open_crawler : M unit :=
  fun s =>
    match crawler_enter (world s) with
    | None => (Ok tt, s)
    | Some e => (Raise e, Scraper (heap s) (products s) (log s) (S (world s)))
    end.

Definition close_crawler : M unit :=
  fun s =>
    match crawler_exit (world s) with
    | None => (Ok tt, s)
    | Some e => (Raise e, Scraper (heap s) (products s) (log s) (S (world s)))
    end.

(** What is inside the [try] of [scrape_site]: the fetch and the tiers. *)
Definition fetch_and_parse (config : config) (url site_key : str)
    (search_query : option str) : M unit :=
  t <- tick ;;
  emit (EvFetch url) ;;;
  match arun t url (Some (product_selector config)) with
  | None => raise FetchError
  | Some result =>
    if negb (success result) then ret tt
    else
      structured_parsing result config site_key search_query ;;;
      none <- no_products_of_site site_key ;;
      if none then
        try_alternative_parsing result config site_key None ;;;
        none <- no_products_of_site site_key ;;
        if none then try_aggressive_parsing result config site_key search_query
        else ret tt
      else ret tt
  end.

(** [scrape_site]: the [async with] block encloses the [try], so what the
    crawler raises on the way in or out leaves the function. *)
Definition scrape_site (site_key : str) (custom_url search_query : option str) : M unit :=
  match lookup_config site_key site_configs with
  | None => raise ValueError
  | Some config =>
    let url := str_or custom_url (cfg_url config) in
    open_crawler ;;;
    try_except (fetch_and_parse config url site_key search_query) (fun _ => ret tt) ;;;
    close_crawler
  end.

(** *** The last resort *)

Definition emergency_product (index : Z) (title_text scraped_at : str) : product :=
  Product
    (<["name" := py "Emergency Product - " ++ title_text]>
     (<["current_price" := py "₹999"]> (<["original_price" := py "₹1,199"]>
     (<["rating" := py "4.0"]> (<["reviews" := py "Emergency extraction"]>
     (<["discount" := py "17% off"]> (<["image_url" := NA]>
     (<["delivery" := py "Standard delivery"]> (<["availability" := py "Available"]>
     (<["site" := py "emergency"]> (<["scraped_at" := scraped_at]> ∅)))))))))))
    index [py "Emergency mode"].

(** The body of the loop over [simple_urls] for one URL: whether a record
    was created (the [break]). *)
Definition emergency_attempt (url : str) : M bool :=
  try_except
    (t <- tick ;;
     emit (EvFetch url) ;;;
     match arun t url None with
     | None => raise FetchError
     | Some result =>
       if success result && truthy (html result) then
         let soup := parse_html (html result) in
         let title_text :=
           match find soup (py "title") with
           | Some title => get_text title
           | None => py "Emergency Product"
           end in
         all <- get_products ;;
         t <- tick ;;
         d <- new_dict (emergency_product (Z.of_nat (length all) + 1) title_text
                          (isoformat_now t)) ;;
         append_product d ;;;
         ret true
       else ret false
     end)
    (fun _ => ret false).

(** The loop over [simple_urls]. *)
Fixpoint emergency_loop (urls : list str) : M unit :=
  match urls with
  | [] => ret tt
  | url :: urls' =>
    created <- emergency_attempt url ;;
    if (created : bool) then ret tt else emergency_loop urls'
  end.

Definition emergency_extraction : M unit :=
  emit EvEmergency ;;;
  try_except (emergency_loop simple_urls) (fun _ => ret tt).

(** *** The run *)

(** The retry loop of [main] for one site, [attempts] attempts left. *)
Fixpoint scrape_with_retries (attempts : nat) (site search_query : str) : M unit :=
  match attempts with
  | O => ret tt
  | S attempts' =>
    found <-
      try_except
        (scrape_site site None (Some search_query) ;;;
         site_products <- products_of_site site ;;
         ret (nonempty site_products))
        (fun _ => ret false) ;;
    if (found : bool) then ret tt else scrape_with_retries attempts' site search_query
  end.

(** The loop of [main] over the sites. *)
Definition scrape_all_sites : M unit :=
  for_each sites_to_test (fun sq => scrape_with_retries 3 (fst sq) (snd sq)).

(** [main], up to the summary and the sinks. *)
Definition main : M unit :=
  scrape_all_sites ;;;
  all <- get_products ;;
  if Nat.eqb (length all) 0 then emergency_extraction else ret tt.

(* ===================================================================== *)
(** ** Summaries used in the statements *)
(* ===================================================================== *)

(** What [clean_product_data] leaves in one entry of the dict. *)
Definition clean_value (f : str -> str) (k : string) (m : gmap string str)
  : gmap string str :=
  match m !! k with
  | Some v => if truthy v then <[k := f v]> m else m
  | None => m
  end.

(** The text entries after [clean_product_data], entry by entry in the order
    the function rewrites them. *)
Definition clean_fields (m : gmap string str) : gmap string str :=
  clean_value clean_reviews "reviews"
    (clean_value clean_rating "rating"
       (clean_value clean_price "current_price"
          (clean_value clean_name "name" m))).

Definition clean_dict (d : product) : product :=
  Product (clean_fields (fields d)) (index d) (offers d).

(** An entry that is present and not empty. *)
Definition nonempty_entry (d : product) (k : string) : bool :=
  match fields d !! k with
  | Some v => truthy v
  | None => false
  end.

(** The dicts [clean_product_data] gets through: those with a non-empty
    current price, whose branch binds [re], and those in which neither the
    rating nor the reviews needs it. *)
Definition cleaning_returns (d : product) : bool :=
  nonempty_entry d "current_price" ||
  negb (nonempty_entry d "rating" || nonempty_entry d "reviews").

(** The dict after [clean_product_data], also when it raises: then only the
    name has been rewritten. *)
Definition cleaned (d : product) : product :=
  if cleaning_returns d then clean_dict d
  else Product (clean_value clean_name "name" (fields d)) (index d) (offers d).

(** The result of [validate_product_data]: the checks on the cleaned name,
    the [KeyError] of a dict without a name, or the [UnboundLocalError] of
    the cleaning. *)
Definition validation_outcome (d : product) (site_key : str) : outcome bool :=
  if cleaning_returns d then
    match fields (clean_dict d) !! "name" with
    | Some name => Ok (name_checks name site_key)
    | None => Raise (KeyError "name")
    end
  else Raise (UnboundLocalError "re").

(** The events a computation emits from state [s]. *)
Definition emitted {A} (m : M A) (s : scraper) : list event :=
  drop (length (log s)) (log (snd (m s))).

(** [s'] extends [s] by at most [n] accepted records, all of [site], and by
    new objects only; nothing is emitted. *)
Definition grows (n : nat) (site : str) (s s' : scraper) : Prop :=
  log s' = log s /\
  (exists hs, heap s' = heap s ++ hs) /\
  (exists new, products s' = products s ++ new /\ length new <= n /\
     Forall (fun l => exists d, heap s' !! l = Some d /\
                                fields d !! "site" = Some site) new).

(** From [s] to [s'] only events satisfying [allowed] were emitted. *)
Definition only_emits (allowed : event -> Prop) (s s' : scraper) : Prop :=
  exists evs, log s' = log s ++ evs /\ Forall allowed evs.

(** A computation that, from every state, emits allowed events only. *)
Definition quiet {A} (allowed : event -> Prop) (m : M A) : Prop :=
  forall s, only_emits allowed s (snd (m s)).

(** A computation that, from every state, accepts at most [n] records, all
    of [site], and emits nothing. *)
Definition adds {A} (n : nat) (site : str) (m : M A) : Prop :=
  forall s, grows n site s (snd (m s)).

(** What an extractor does: nothing, or one new dict of [site]. *)
Definition builds_record (site : str) (mk : M (option nat)) : Prop :=
  forall s,
    mk s = (Ok None, s) \/
    exists d w,
      mk s = (Ok (Some (length (heap s))),
              Scraper (heap s ++ [d]) (products s) (log s) w) /\
      fields d !! "site" = Some site.

(** Every event but the entry of [emergency_extraction]. *)
Definition not_emergency (e : event) : Prop := e <> EvEmergency.

(** A fetch that [emergency_extraction] builds a record from. *)
Definition usable (r : option crawl_result) : bool :=
  match r with
  | Some result => success result && truthy (html result)
  | None => false
  end.

(** The longest run of [P] at the front of what is left, consumed. *)
Definition advance (P : N -> bool) (st : mstate) : mstate :=
  MState (pos st + length (takeWhile P (rest st))) (dropWhile P (rest st)) (g1 st).

(** The text the number pattern matches at the front of [b]: digits, then
    possibly a dot and further digits. *)
Definition number_prefix (b : str) : str :=
  match dropWhile isdecimal b with
  | c :: r2 =>
    if (46 =? c)%N
    then takeWhile isdecimal b ++ c :: takeWhile isdecimal r2
    else takeWhile isdecimal b
  | [] => takeWhile isdecimal b
  end.

(** A pattern without a capturing group. *)
Fixpoint group_free (r : regex) : bool :=
  match r with
  | Grp _ => false
  | Cat r1 r2 | Alt r1 r2 => group_free r1 && group_free r2
  | Star r' => group_free r'
  | _ => true
  end.

(** A pattern every match of which goes through its one group, a run of
    one or more characters of the class [P]. *)
Inductive captures (P : N -> bool) : regex -> Prop :=
| captures_group : captures P (Grp (Plus (Cls P)))
| captures_after r1 r2 :
    group_free r1 = true -> captures P r2 -> captures P (Cat r1 r2)
| captures_before r1 r2 :
    captures P r1 -> group_free r2 = true -> captures P (Cat r1 r2)
| captures_either r1 r2 :
    captures P r1 -> captures P r2 -> captures P (Alt r1 r2).

(** A later state of the matcher on the same subject, with the same group. *)
Definition advances (st st' : mstate) : Prop :=
  g1 st' = g1 st /\
  exists n, pos st' = pos st + n /\ rest st' = drop n (rest st).

(** In [st'], reached from [st], the group holds a non-empty run of [P]
    that lies in what was left of the subject in [st]. *)
Definition captured (P : N -> bool) (st st' : mstate) : Prop :=
  exists a g tail,
    g1 st' = Some (a, a + length g) /\ g <> [] /\ forallb P g = true /\
    pos st <= a /\ drop (a - pos st) (rest st) = g ++ tail.

(** The shape of a cleaned current price: the sentinel, or the rupee sign
    followed by one or more digits and commas. *)
Definition is_clean_price (v : str) : bool :=
  str_eqb v NA ||
  match v with
  | c :: ds => (c =? rupee)%N && nonempty ds && forallb is_digit_or_comma ds
  | [] => false
  end.

(** The shape of a cleaned rating: the sentinel, or one or more digits,
    possibly followed by a dot and further digits. *)
Definition is_clean_rating (v : str) : bool :=
  str_eqb v NA ||
  match dropWhile isdecimal v with
  | [] => nonempty v
  | c :: r => (c =? 46)%N && nonempty (takeWhile isdecimal v) && forallb isdecimal r
  end.

(** The shape of a cleaned review count: the sentinel, or one or more
    digits. *)
Definition is_clean_reviews (v : str) : bool :=
  str_eqb v NA || (nonempty v && forallb isdecimal v).

(** An entry that is absent or empty (cleaning leaves it alone) or has the
    given shape. *)
Definition entry_is (shape : str -> bool) (d : product) (k : string) : Prop :=
  forall v : str, fields d !! k = Some v -> v = [] \/ shape v = true.

(** What validation guarantees of a name it accepts for [site_key]. *)
Definition valid_name (name site_key : str) : Prop :=
  strip name = name /\ 5 <= length name /\ name <> NA /\
  isdigit name = false /\ startswith name [rupee] = false /\
  Forall (fun pattern => contains pattern name = false) bad_name_patterns /\
  (site_key = py "amazon" -> 10 <= length name).

(** The invariant of an accepted record of [site_key]: it carries the site,
    a valid name, and cleaned price, rating and reviews entries; and it is a
    dict the cleaning has got through, so one whose current price is absent
    or empty holds no rating and no reviews text. *)
Definition accepted_record (site_key : str) (d : product) : Prop :=
  fields d !! "site" = Some site_key /\
  (exists name, fields d !! "name" = Some name /\ valid_name name site_key) /\
  entry_is is_clean_price d "current_price" /\
  entry_is is_clean_rating d "rating" /\
  entry_is is_clean_reviews d "reviews" /\
  cleaning_returns d = true.

(** The entries a fallback tier never fills. *)
Definition unfilled (keys : list string) (d : product) : Prop :=
  Forall (fun k => fields d !! k = Some NA) keys /\ offers d = [].

(** [s'] extends [s] by new objects only and by at most [n] accepted
    records, each of which is one of the new objects and satisfies [P] in
    [s']. *)
Definition extends_by (P : product -> Prop) (n : nat) (s s' : scraper) : Prop :=
  (exists hs, heap s' = heap s ++ hs) /\
  (exists new, products s' = products s ++ new /\ length new <= n /\
     Forall (fun l => length (heap s) <= l /\
                      exists d, heap s' !! l = Some d /\ P d) new).

(** A computation that, from every state, accepts at most [n] records, all
    satisfying [P]. *)
Definition accepts {A} (P : product -> Prop) (n : nat) (m : M A) : Prop :=
  forall s, extends_by P n s (snd (m s)).

(** The same without a bound that is known beforehand. *)
Definition accepts_some {A} (P : product -> Prop) (m : M A) : Prop :=
  forall s, exists n, extends_by P n s (snd (m s)).

(** The entries tier 2 never fills, and those tier 3 never fills. *)
Definition tier2_unfilled : list string :=
  ["original_price"; "reviews"; "discount"; "image_url"; "delivery";
   "availability"]%string.

Definition tier3_unfilled : list string :=
  ["original_price"; "discount"; "image_url"; "delivery"; "availability"]%string.

(** A dict of a fallback tier called with [search_query], before
    validation: it carries the site and the search query (the sentinel when
    there is none), the entries [keys] are the sentinel, there are no
    offers, and the name has at most a hundred characters. *)
Definition fallback_dict (keys : list string) (site_key : str)
    (search_query : option str) (d : product) : Prop :=
  fields d !! "site" = Some site_key /\ unfilled keys d /\
  (exists name : str, fields d !! "name" = Some name /\ length name <= 100) /\
  fields d !! "search_query" = Some (str_or search_query NA).

(** A record of a fallback tier: an accepted record that is such a dict. *)
Definition fallback_record (keys : list string) (site_key : str)
    (search_query : option str) (d : product) : Prop :=
  accepted_record site_key d /\ fallback_dict keys site_key search_query d.

(** A record at the end of [main]: an accepted record of one of the sites
    of [sites_to_test], or the record of the emergency extractor. *)
Definition main_record (d : product) : Prop :=
  (exists site_key, In site_key (map fst sites_to_test) /\ accepted_record site_key d) \/
  (exists index title_text scraped_at, d = emergency_product index title_text scraped_at).

(** The records of a site in the session: what [products_of_site]
    returns. *)
Definition site_products (site_key : str) (s : scraper) : list nat :=
  List.filter (fun p =>
                 match heap s !! p with
                 | Some d => bool_decide (fields d !! "site" = Some site_key)
                 | None => false
                 end) (products s).

(** A computation that returns normally from every state. *)
Definition never_raises {A} (m : M A) : Prop :=
  forall s, exists a, fst (m s) = Ok a.

(** The site under which [print_summary] counts a record. *)
Definition site_label (p : product) : str :=
  default (py "unknown") (fields p !! "site").

(** [d.get(k)] on a dict kept as the list of its items. *)
Fixpoint items_get {A} (k : str) (items : list (str * A)) : option A :=
  match items with
  | [] => None
  | (k', v) :: items' => if str_eqb k' k then Some v else items_get k items'
  end.

(** The records among [products] that [print_summary] counts under [site]. *)
Definition records_of (site : str) (products : list product) : list product :=
  List.filter (fun p => str_eqb (site_label p) site) products.

(** What an extractor does: nothing, or one new dict satisfying [Q]. *)
Definition builds_dict (Q : product -> Prop) (mk : M (option nat)) : Prop :=
  forall s,
    mk s = (Ok None, s) \/
    exists d w,
      mk s = (Ok (Some (length (heap s))),
              Scraper (heap s ++ [d]) (products s) (log s) w) /\
      Q d.

(** The calls of [crawler.arun] among some events. *)
Definition is_fetch (e : event) : bool :=
  match e with
  | EvFetch _ => true
  | _ => false
  end.

Definition fetches (evs : list event) : nat := length (List.filter is_fetch evs).

Definition not_fetch (e : event) : Prop := is_fetch e = false.

(** A computation that, from every state, calls [crawler.arun] at most [n]
    times. *)
Definition fetches_at_most {A} (n : nat) (m : M A) : Prop :=
  forall s, exists evs, log (snd (m s)) = log s ++ evs /\ fetches evs <= n.

(** A fetch that [scrape_site] goes on to parse. *)
Definition loaded (r : option crawl_result) : bool :=
  match r with
  | Some result => success result
  | None => false
  end.

(** The fetches of a run in which no page loads: every site of
    [sites_to_test] three times, in order. *)
Definition all_retries : list event :=
  flat_map (fun sq =>
              match lookup_config (fst sq) site_configs with
              | Some config => replicate 3 (EvFetch (cfg_url config))
              | None => []
              end) sites_to_test.

(** A chunk of the segmentation: its lines. *)
Definition chunk_of (lines : list str) : Prop :=
  1 <= length lines <= 5 /\
  (exists first others, lines = first :: others /\ is_anchor first = true).

(** A chunk as the segmentation emits it: lines satisfying [P], joined. *)
Definition chunk_with (P : str -> Prop) (chunk : str) : Prop :=
  exists lines, chunk = join newline lines /\ chunk_of lines /\ Forall P lines.

(** The state of the segmentation loop: the chunks emitted so far and the
    chunk being collected, which is empty or well formed. *)
Definition segmenting (P : str -> Prop) (st : list str * list str) : Prop :=
  Forall (chunk_with P) (fst st) /\
  (snd st = [] \/ (chunk_of (snd st) /\ Forall P (snd st))).

(* ===================================================================== *)
(** ** Properties *)
(* ===================================================================== *)

(** *** Strings *)

Lemma dropWhile_idem (p : N -> bool) (s : str) :
  dropWhile p (dropWhile p s) = dropWhile p s.
Proof.
  induction s as [|c s IH]; simpl; [reflexivity|].
  destruct (p c) eqn:E; [exact IH|]. simpl. now rewrite E.
Qed.

Lemma takeWhile_idem (p : N -> bool) (s : str) :
  takeWhile p (takeWhile p s) = takeWhile p s.
Proof.
  induction s as [|c s IH]; simpl; [reflexivity|].
  destruct (p c) eqn:E; simpl; [|reflexivity]. now rewrite E, IH.
Qed.

Lemma takeWhile_dropWhile (p : N -> bool) (s : str) :
  takeWhile p s ++ dropWhile p s = s.
Proof.
  induction s as [|c s IH]; simpl; [reflexivity|].
  destruct (p c); simpl; [now rewrite IH | reflexivity].
Qed.

Lemma dropWhile_takeWhile (p : N -> bool) (s : str) :
  dropWhile p (takeWhile p s) = [].
Proof.
  induction s as [|c s IH]; simpl; [reflexivity|].
  destruct (p c) eqn:E; simpl; [now rewrite E | reflexivity].
Qed.

Lemma dropWhile_head (p : N -> bool) (s : str) c r :
  dropWhile p s = c :: r -> p c = false.
Proof.
  induction s as [|d s IH]; simpl; [discriminate|].
  destruct (p d) eqn:E; [exact IH|]. intros [= <- _]. exact E.
Qed.

Lemma takeWhile_app_stop (p : N -> bool) (a : str) c r :
  p c = false -> takeWhile p (takeWhile p a ++ c :: r) = takeWhile p a.
Proof.
  intros Hc. induction a as [|d a IH]; simpl.
  - now rewrite Hc.
  - destruct (p d) eqn:E; simpl; [now rewrite E, IH | now rewrite Hc].
Qed.

Lemma dropWhile_app_stop (p : N -> bool) (a : str) c r :
  p c = false -> dropWhile p (takeWhile p a ++ c :: r) = c :: r.
Proof.
  intros Hc. induction a as [|d a IH]; simpl.
  - now rewrite Hc.
  - destruct (p d) eqn:E; simpl; [now rewrite E, IH | now rewrite Hc].
Qed.

Lemma dropWhile_snoc (p : N -> bool) (l : str) c :
  p c = false -> dropWhile p (l ++ [c]) = dropWhile p l ++ [c].
Proof.
  intros Hc. induction l as [|d l IH]; simpl.
  - now rewrite Hc.
  - destruct (p d); [exact IH | reflexivity].
Qed.

Lemma rstrip_idem (s : str) : rstrip (rstrip s) = rstrip s.
Proof.
  unfold rstrip. now rewrite rev_involutive, dropWhile_idem.
Qed.

Lemma rstrip_cons (c : N) (s : str) :
  isspace c = false ->
  rstrip (c :: s) = c :: rev (dropWhile isspace (rev s)).
Proof.
  intros Hc. unfold rstrip. simpl rev at 2.
  rewrite dropWhile_snoc by exact Hc.
  now rewrite rev_app_distr.
Qed.

(** A stripped string is left alone by [strip]. *)
Lemma strip_idem (s : str) : strip (strip s) = strip s.
Proof.
  unfold strip, lstrip.
  destruct (dropWhile isspace s) as [|c t] eqn:E; [reflexivity|].
  pose proof (dropWhile_head _ _ _ _ E) as Hc.
  rewrite (rstrip_cons c t Hc). simpl. rewrite Hc.
  rewrite <- (rstrip_cons c t Hc). apply rstrip_idem.
Qed.

(** The prefix loop keeps a stripped name stripped. *)
Lemma prefix_loop_stripped (l : list str) (name : str) :
  strip name = name ->
  let name' := fold_left (fun name prefix =>
                            if startswith name prefix
                            then strip (drop (length prefix) name) else name)
                         l name in
  strip name' = name'.
Proof.
  revert name. induction l as [|p l IH]; intros name Hs; simpl; [exact Hs|].
  apply IH. destruct (startswith name p); [apply strip_idem | exact Hs].
Qed.

Lemma clean_name_stripped (name : str) : strip (clean_name name) = clean_name name.
Proof. apply prefix_loop_stripped, strip_idem. Qed.

(** The prefix loop leaves a name with none of the prefixes as it is. *)
Lemma prefix_loop_none (l : list str) (name : str) :
  Forall (fun p => startswith name p = false) l ->
  fold_left (fun name prefix =>
               if startswith name prefix
               then strip (drop (length prefix) name) else name)
            l name = name.
Proof.
  induction 1 as [|p l Hp _ IH]; simpl; [reflexivity|]. now rewrite Hp.
Qed.

Lemma clean_name_fixed (name : str) :
  strip name = name ->
  Forall (fun p => startswith name p = false) prefixes_to_remove ->
  clean_name name = name.
Proof.
  intros Hs Hp. unfold clean_name. rewrite Hs. now apply prefix_loop_none.
Qed.

Lemma take_length_takeWhile (p : N -> bool) (s : str) :
  take (length (takeWhile p s)) s = takeWhile p s.
Proof.
  induction s as [|c s IH]; simpl; [reflexivity|].
  destruct (p c); simpl; [now rewrite IH | reflexivity].
Qed.

Lemma drop_cons_tail {A} (i : nat) (s : list A) c t :
  drop i s = c :: t -> drop (S i) s = t.
Proof.
  revert i. induction s as [|d s IH]; intros [|i]; simpl; try discriminate.
  - now intros [= _ ->].
  - apply IH.
Qed.

(** *** The matcher on the cleaning patterns *)

Lemma advance_stop (P : N -> bool) (st : mstate) :
  match rest st with [] => True | c :: _ => P c = false end ->
  advance P st = st.
Proof.
  destruct st as [i r g]; unfold advance; simpl.
  destruct r as [|c r]; simpl; intros H.
  - now rewrite Nat.add_0_r.
  - rewrite H. simpl. now rewrite Nat.add_0_r.
Qed.

Lemma advance_step (P : N -> bool) i c r g :
  P c = true ->
  advance P (MState i (c :: r) g) = advance P (MState (S i) r g).
Proof.
  intros H. unfold advance; simpl. rewrite H. simpl. f_equal. lia.
Qed.

(** A greedy star over a character class runs to the end of the run when
    the continuation accepts there. *)
Lemma star_loop_cls {A} (P : N -> bool) (k : mstate -> option A) (n : nat) (st : mstate) :
  length (rest st) <= n ->
  is_Some (k (advance P st)) ->
  star_loop (rmatch (Cls P)) k n st = k (advance P st).
Proof.
  revert st. induction n as [|n IH]; intros [i r g]; simpl; intros Hn Hk.
  - destruct r; simpl in Hn; [|lia]. now rewrite advance_stop.
  - destruct r as [|c r]; simpl.
    + now rewrite advance_stop.
    + destruct (P c) eqn:E.
      * assert (Hlt : Nat.ltb i (S i) = true) by (apply Nat.ltb_lt; lia).
        rewrite Hlt. rewrite advance_step in * by exact E.
        rewrite IH; [| simpl in *; lia | exact Hk].
        destruct Hk as [x Hx]. now rewrite Hx.
      * now rewrite advance_stop by (simpl; exact E).
Qed.

Lemma rmatch_star_cls {A} (P : N -> bool) (k : mstate -> option A) (st : mstate) :
  is_Some (k (advance P st)) ->
  rmatch (Star (Cls P)) st k = k (advance P st).
Proof. intros Hk. simpl. now apply star_loop_cls. Qed.

Lemma substr_prefix (s : str) (i : nat) (m r : str) :
  drop i s = m ++ r -> substr s i (i + length m) = m.
Proof.
  intros H. unfold substr. rewrite H.
  replace (i + length m - i) with (length m) by lia.
  now rewrite take_app_length.
Qed.

Lemma rmatch_Cat {A} r1 r2 st (k : mstate -> option A) :
  rmatch (Cat r1 r2) st k = rmatch r1 st (fun st' => rmatch r2 st' k).
Proof. reflexivity. Qed.

Lemma rmatch_Grp {A} r st (k : mstate -> option A) :
  rmatch (Grp r) st k =
  rmatch r st (fun st' => k (MState (pos st') (rest st') (Some (pos st, pos st')))).
Proof. reflexivity. Qed.

Lemma rmatch_Alt {A} r1 r2 st (k : mstate -> option A) :
  rmatch (Alt r1 r2) st k =
  match rmatch r1 st k with Some x => Some x | None => rmatch r2 st k end.
Proof. reflexivity. Qed.

Lemma rmatch_Eps {A} st (k : mstate -> option A) : rmatch Eps st k = k st.
Proof. reflexivity. Qed.

Lemma rmatch_Cls_cons {A} P i c r g (k : mstate -> option A) :
  rmatch (Cls P) (MState i (c :: r) g) k =
  if P c then k (MState (S i) r g) else None.
Proof. reflexivity. Qed.

Lemma rmatch_Cls_nil {A} P i g (k : mstate -> option A) :
  rmatch (Cls P) (MState i [] g) k = None.
Proof. reflexivity. Qed.

(** [re.search] for a pattern that matches exactly where a character of a
    class [ok] stands: the match is the one at the first such character. *)
Lemma search_from_leftmost (r : regex) (ok : N -> bool) (res : str -> match_obj)
    (s : str) :
  (forall i c t, drop i s = c :: t -> ok c = true ->
     exists st, rmatch r (MState i (c :: t) None) Some = Some st /\
                mk_match s i st = res (c :: t)) ->
  (forall i c t, ok c = false -> rmatch r (MState i (c :: t) None) Some = None) ->
  (forall i, rmatch r (MState i [] None) Some = None) ->
  forall i suffix, drop i s = suffix ->
  search_from r s i suffix =
  match dropWhile (fun c => negb (ok c)) suffix with
  | [] => None
  | b => Some (res b)
  end.
Proof.
  intros Hyes Hno Hnil i suffix. revert i.
  induction suffix as [|c t IH]; intros i Hd; cbn [search_from dropWhile].
  - now rewrite Hnil.
  - destruct (ok c) eqn:E; cbn [negb].
    + destruct (Hyes i c t Hd E) as (st & -> & ->). reflexivity.
    + rewrite (Hno i c t E). apply IH. eapply drop_cons_tail; eauto.
Qed.

(** [re.search] with a class repeated once or more: the first run. *)
Lemma search_plus_cls (P : N -> bool) (s : str) :
  search (Plus (Cls P)) s =
  match dropWhile (fun c => negb (P c)) s with
  | [] => None
  | b => Some (Match (takeWhile P b) None)
  end.
Proof.
  apply (search_from_leftmost _ P (fun b => Match (takeWhile P b) None));
    [| | | reflexivity]; unfold Plus.
  - intros i c t Hd E. rewrite rmatch_Cat, rmatch_Cls_cons, E.
    rewrite rmatch_star_cls by eauto. eexists; split; [reflexivity|].
    unfold mk_match, advance; cbn [pos rest g1 takeWhile]. rewrite E.
    replace (S i + length (takeWhile P t)) with (i + length (c :: takeWhile P t))
      by (simpl; lia).
    rewrite (substr_prefix s i _ (dropWhile P t)); [reflexivity|].
    rewrite Hd. simpl. now rewrite takeWhile_dropWhile.
  - intros i c t E. now rewrite rmatch_Cat, rmatch_Cls_cons, E.
  - intros i. now rewrite rmatch_Cat, rmatch_Cls_nil.
Qed.

Lemma search_integer (s : str) :
  search re_integer s =
  match dropWhile (fun c => negb (isdecimal c)) s with
  | [] => None
  | b => Some (Match (takeWhile isdecimal b) (Some (takeWhile isdecimal b)))
  end.
Proof.
  apply (search_from_leftmost _ isdecimal
           (fun b => Match (takeWhile isdecimal b) (Some (takeWhile isdecimal b))));
    [| | | reflexivity]; unfold re_integer, Plus, digit.
  - intros i c t Hd E. rewrite rmatch_Grp, rmatch_Cat, rmatch_Cls_cons, E.
    rewrite rmatch_star_cls by eauto. eexists; split; [reflexivity|].
    unfold mk_match, advance; cbn [pos rest g1 takeWhile]. rewrite E.
    replace (S i + length (takeWhile isdecimal t))
      with (i + length (c :: takeWhile isdecimal t)) by (simpl; lia).
    rewrite (substr_prefix s i _ (dropWhile isdecimal t)); [reflexivity|].
    rewrite Hd. simpl. now rewrite takeWhile_dropWhile.
  - intros i c t E. now rewrite rmatch_Grp, rmatch_Cat, rmatch_Cls_cons, E.
  - intros i. now rewrite rmatch_Grp, rmatch_Cat, rmatch_Cls_nil.
Qed.

Lemma number_prefix_is_prefix (b : str) : exists r, b = number_prefix b ++ r.
Proof.
  unfold number_prefix.
  pose proof (takeWhile_dropWhile isdecimal b) as H.
  destruct (dropWhile isdecimal b) as [|c r2] eqn:E.
  - exists []. now rewrite app_nil_r in *.
  - destruct (46 =? c)%N.
    + exists (dropWhile isdecimal r2). rewrite <- app_assoc. simpl.
      now rewrite takeWhile_dropWhile.
    + now exists (c :: r2).
Qed.

Ltac same_position :=
  match goal with
  | |- exists rst, Some (MState ?a _ _) = Some (MState ?b _ _) =>
    replace a with b by (rewrite ?length_app; simpl; rewrite ?length_app; simpl; lia);
    eexists; reflexivity
  end.

(** The number pattern at a digit: it always matches, and takes the digits,
    a dot if one follows, and the digits after the dot. *)
Lemma rmatch_number (i : nat) (c : N) (t : str) :
  isdecimal c = true ->
  exists rst,
    rmatch re_number (MState i (c :: t) None) Some =
    Some (MState (i + length (number_prefix (c :: t))) rst
                 (Some (i, i + length (number_prefix (c :: t))))).
Proof.
  intros E. unfold re_number, Plus, Opt, Lit, digit.
  rewrite rmatch_Grp, !rmatch_Cat, rmatch_Cls_cons, E.
  assert (Htail : forall st (k : mstate -> option mstate),
             (forall st', is_Some (k st')) ->
             is_Some (rmatch (Star (Cls isdecimal)) st k)).
  { intros st k Hk. rewrite rmatch_star_cls by apply Hk. apply Hk. }
  rewrite rmatch_star_cls.
  2:{ rewrite rmatch_Cat, rmatch_Alt.
      match goal with |- is_Some (match ?x with _ => _ end) => destruct x end;
        [eauto|]. rewrite rmatch_Eps. apply Htail. eauto. }
  rewrite rmatch_Cat, rmatch_Alt.
  unfold advance at 1 2. cbn [pos rest g1].
  unfold number_prefix. cbn [takeWhile dropWhile]. rewrite E.
  destruct (dropWhile isdecimal t) as [|d r2] eqn:Ed.
  - rewrite rmatch_Cls_nil, rmatch_Eps, rmatch_star_cls by eauto.
    unfold advance; cbn [pos rest g1 takeWhile dropWhile length].
    same_position.
  - rewrite rmatch_Cls_cons. destruct (46 =? d)%N eqn:E46.
    + rewrite rmatch_star_cls by eauto.
      unfold advance; cbn [pos rest g1].
      same_position.
    + rewrite rmatch_Eps, rmatch_star_cls by eauto.
      pose proof (dropWhile_head _ _ _ _ Ed) as Hd.
      unfold advance; cbn [pos rest g1 takeWhile dropWhile]. rewrite Hd.
      same_position.
Qed.

Lemma search_number (s : str) :
  search re_number s =
  match dropWhile (fun c => negb (isdecimal c)) s with
  | [] => None
  | b => Some (Match (number_prefix b) (Some (number_prefix b)))
  end.
Proof.
  apply (search_from_leftmost _ isdecimal
           (fun b => Match (number_prefix b) (Some (number_prefix b))));
    [| | | reflexivity].
  - intros i c t Hd E. destruct (rmatch_number i c t E) as [rst ->].
    eexists; split; [reflexivity|].
    unfold mk_match; cbn [pos g1].
    destruct (number_prefix_is_prefix (c :: t)) as [r Hr].
    rewrite (substr_prefix s i _ r); [reflexivity|]. now rewrite Hd.
  - intros i c t E. unfold re_number, Plus, digit.
    now rewrite rmatch_Grp, !rmatch_Cat, rmatch_Cls_cons, E.
  - intros i. unfold re_number, Plus, digit.
    now rewrite rmatch_Grp, !rmatch_Cat, rmatch_Cls_nil.
Qed.

(** *** The cleaning functions are idempotent on their own output *)

Lemma dropWhile_not_head (P : N -> bool) (c : N) (t : str) :
  P c = true -> dropWhile (fun c => negb (P c)) (c :: t) = c :: t.
Proof. intros H. simpl. now rewrite H. Qed.

Lemma dropWhile_head_not (P : N -> bool) (s : str) c r :
  dropWhile (fun c => negb (P c)) s = c :: r -> P c = true.
Proof.
  intros H. apply dropWhile_head in H. now apply negb_false_iff in H.
Qed.

Lemma clean_price_NA : clean_price NA = NA.
Proof. vm_compute. reflexivity. Qed.

Lemma clean_rating_NA : clean_rating NA = NA.
Proof. vm_compute. reflexivity. Qed.

Lemma clean_reviews_NA : clean_reviews NA = NA.
Proof. vm_compute. reflexivity. Qed.

Lemma rupee_not_digit_or_comma : is_digit_or_comma rupee = false.
Proof. vm_compute. reflexivity. Qed.

Lemma dot_not_decimal : isdecimal 46%N = false.
Proof. vm_compute. reflexivity. Qed.

Lemma clean_price_eq (price : str) :
  clean_price price =
  match dropWhile (fun c => negb (is_digit_or_comma c)) price with
  | [] => NA
  | b => rupee :: takeWhile is_digit_or_comma b
  end.
Proof.
  unfold clean_price, re_digits_commas, digit_or_comma.
  rewrite (search_plus_cls is_digit_or_comma).
  now destruct (dropWhile (fun c => negb (is_digit_or_comma c)) price).
Qed.

Lemma clean_reviews_eq (reviews : str) :
  clean_reviews reviews =
  match dropWhile (fun c => negb (isdecimal c)) reviews with
  | [] => NA
  | b => takeWhile isdecimal b
  end.
Proof.
  unfold clean_reviews. rewrite search_integer.
  now destruct (dropWhile (fun c => negb (isdecimal c)) reviews).
Qed.

Lemma clean_rating_eq (rating : str) :
  clean_rating rating =
  match dropWhile (fun c => negb (isdecimal c)) rating with
  | [] => NA
  | b => number_prefix b
  end.
Proof.
  unfold clean_rating. rewrite search_number.
  now destruct (dropWhile (fun c => negb (isdecimal c)) rating).
Qed.

Lemma clean_price_idem (price : str) :
  clean_price (clean_price price) = clean_price price.
Proof.
  rewrite (clean_price_eq price).
  destruct (dropWhile (fun c => negb (is_digit_or_comma c)) price) as [|c t] eqn:E.
  - apply clean_price_NA.
  - pose proof (dropWhile_head_not is_digit_or_comma _ _ _ E) as Hc.
    rewrite clean_price_eq. cbn [dropWhile takeWhile].
    rewrite rupee_not_digit_or_comma. cbn [negb dropWhile].
    repeat (rewrite Hc; cbn [negb dropWhile takeWhile]).
    now rewrite takeWhile_idem.
Qed.

Lemma clean_reviews_idem (reviews : str) :
  clean_reviews (clean_reviews reviews) = clean_reviews reviews.
Proof.
  rewrite (clean_reviews_eq reviews).
  destruct (dropWhile (fun c => negb (isdecimal c)) reviews) as [|c t] eqn:E.
  - apply clean_reviews_NA.
  - pose proof (dropWhile_head_not isdecimal _ _ _ E) as Hc.
    rewrite clean_reviews_eq. cbn [dropWhile takeWhile].
    repeat (rewrite Hc; cbn [negb dropWhile takeWhile]).
    now rewrite takeWhile_idem.
Qed.

Lemma number_prefix_idem (b : str) : number_prefix (number_prefix b) = number_prefix b.
Proof.
  unfold number_prefix at 2 3.
  destruct (dropWhile isdecimal b) as [|c r2] eqn:E.
  - unfold number_prefix. now rewrite dropWhile_takeWhile, takeWhile_idem.
  - destruct (46 =? c)%N eqn:E46.
    + apply N.eqb_eq in E46. subst c.
      unfold number_prefix.
      rewrite dropWhile_app_stop, takeWhile_app_stop by exact dot_not_decimal.
      rewrite N.eqb_refl. now rewrite takeWhile_idem.
    + unfold number_prefix. now rewrite dropWhile_takeWhile, takeWhile_idem.
Qed.

Lemma number_prefix_head (c : N) (t : str) :
  isdecimal c = true -> exists t', number_prefix (c :: t) = c :: t'.
Proof.
  intros H. unfold number_prefix. cbn [takeWhile dropWhile]. rewrite H.
  destruct (dropWhile isdecimal t) as [|d r]; [eauto|].
  destruct (46 =? d)%N; simpl; eauto.
Qed.

Lemma clean_rating_idem (rating : str) :
  clean_rating (clean_rating rating) = clean_rating rating.
Proof.
  rewrite (clean_rating_eq rating).
  destruct (dropWhile (fun c => negb (isdecimal c)) rating) as [|c t] eqn:E.
  - apply clean_rating_NA.
  - pose proof (dropWhile_head_not isdecimal _ _ _ E) as Hc.
    rewrite clean_rating_eq.
    destruct (number_prefix_head c t Hc) as [t' Ht']. rewrite Ht'.
    cbn [dropWhile]. rewrite Hc. cbn [negb]. rewrite <- Ht'.
    apply number_prefix_idem.
Qed.

(** *** What cleaning and validation do to the store *)

Lemma scraper_eta (s : scraper) :
  Scraper (heap s) (products s) (log s) (world s) = s.
Proof. now destruct s. Qed.

Lemma product_eta (d : product) : Product (fields d) (index d) (offers d) = d.
Proof. now destruct d. Qed.

Lemma product_ext (a b : product) :
  fields a = fields b -> index a = index b -> offers a = offers b -> a = b.
Proof. destruct a, b; simpl; intros; now subst. Qed.

Lemma clean_value_lookup (f : str -> str) (k k' : string) (m : gmap string str) :
  clean_value f k m !! k' =
  if decide (k = k')
  then (fun v => if truthy v then f v else v) <$> (m !! k)
  else m !! k'.
Proof.
  unfold clean_value. destruct (decide (k = k')) as [<-|Hne].
  - destruct (m !! k) as [v|] eqn:E; simpl; [|exact E].
    destruct (truthy v); [apply lookup_insert_eq | exact E].
  - destruct (m !! k) as [v|] eqn:E; [|reflexivity].
    destruct (truthy v); [now apply lookup_insert_ne | reflexivity].
Qed.

Lemma clean_value_unchanged (f : str -> str) (k : string) (d : product) :
  nonempty_entry d k = false -> clean_value f k (fields d) = fields d.
Proof.
  unfold nonempty_entry, clean_value.
  destruct (fields d !! k) as [v|]; [|reflexivity]. now intros ->.
Qed.

(** The entries that a rewriting of [k] leaves alone are non-empty as
    before. *)
Lemma nonempty_entry_clean_value (f : str -> str) (k k' : string) (d : product) i o :
  k <> k' ->
  nonempty_entry (Product (clean_value f k (fields d)) i o) k' = nonempty_entry d k'.
Proof.
  intros Hk. unfold nonempty_entry; cbn [fields].
  rewrite clean_value_lookup. now rewrite decide_False by exact Hk.
Qed.

Lemma clean_entry_run (l : nat) (k : string) (f : str -> str) (s : scraper) (d : product) :
  heap s !! l = Some d ->
  clean_entry l k f s =
  (Ok tt, Scraper (<[l := Product (clean_value f k (fields d)) (index d) (offers d)]> (heap s))
                  (products s) (log s) (world s)).
Proof.
  intros H. unfold clean_entry, dict_get, dict_setitem, deref, bind, ret, clean_value.
  rewrite H. destruct (fields d !! k) as [v|] eqn:Ek.
  - destruct (truthy v).
    + now rewrite H.
    + rewrite product_eta, list_insert_id by exact H. now rewrite scraper_eta.
  - rewrite product_eta, list_insert_id by exact H. now rewrite scraper_eta.
Qed.

(** The price branch rewrites the price in place and reports whether it was
    taken, that is, whether [re] is bound from here on. *)
Lemma clean_current_price_run (l : nat) (s : scraper) (d : product) :
  heap s !! l = Some d ->
  clean_current_price l s =
  (Ok (nonempty_entry d "current_price"),
   Scraper (<[l := Product (clean_value clean_price "current_price" (fields d))
                           (index d) (offers d)]> (heap s))
           (products s) (log s) (world s)).
Proof.
  intros H.
  unfold clean_current_price, dict_get, dict_setitem, deref, bind, ret, clean_value,
    nonempty_entry.
  rewrite H. destruct (fields d !! "current_price") as [v|] eqn:Ek.
  - destruct (truthy v).
    + now rewrite H.
    + rewrite product_eta, list_insert_id by exact H. now rewrite scraper_eta.
  - rewrite product_eta, list_insert_id by exact H. now rewrite scraper_eta.
Qed.

(** With [re] bound, the rating and reviews branches rewrite their entry. *)
Lemma clean_entry_re_bound (l : nat) (k : string) (f : str -> str) (s : scraper)
    (d : product) :
  heap s !! l = Some d ->
  clean_entry_re true l k f s =
  (Ok tt, Scraper (<[l := Product (clean_value f k (fields d)) (index d) (offers d)]> (heap s))
                  (products s) (log s) (world s)).
Proof.
  intros H. unfold clean_entry_re, dict_get, dict_setitem, deref, bind, ret, clean_value.
  rewrite H. destruct (fields d !! k) as [v|] eqn:Ek.
  - destruct (truthy v).
    + now rewrite H.
    + rewrite product_eta, list_insert_id by exact H. now rewrite scraper_eta.
  - rewrite product_eta, list_insert_id by exact H. now rewrite scraper_eta.
Qed.

(** With [re] unbound they raise as soon as their entry is not empty, and
    write nothing. *)
Lemma clean_entry_re_unbound (l : nat) (k : string) (f : str -> str) (s : scraper)
    (d : product) :
  heap s !! l = Some d ->
  clean_entry_re false l k f s =
  ((if nonempty_entry d k then Raise (UnboundLocalError "re") else Ok tt), s).
Proof.
  intros H. unfold clean_entry_re, dict_get, deref, bind, ret, raise, nonempty_entry.
  rewrite H. destruct (fields d !! k) as [v|]; [|reflexivity].
  now destruct (truthy v).
Qed.

(** [clean_product_data] rewrites the dict it is given in place.  It returns
    the reference it was given, unless the current price is absent or empty
    and the rating or the reviews is not: then it raises, having rewritten
    the name only. *)
Lemma clean_product_data_run (l : nat) (s : scraper) (d : product) :
  heap s !! l = Some d ->
  clean_product_data l s =
  ((if cleaning_returns d then Ok l else Raise (UnboundLocalError "re")),
   Scraper (<[l := cleaned d]> (heap s)) (products s) (log s) (world s)).
Proof.
  intros H. pose proof (lookup_lt_Some _ _ _ H) as Hl.
  unfold clean_product_data. unfold bind at 1.
  rewrite (clean_entry_run l _ _ s d H).
  set (d1 := Product (clean_value clean_name "name" (fields d)) (index d) (offers d)).
  assert (Hp : nonempty_entry d1 "current_price" = nonempty_entry d "current_price")
    by now apply nonempty_entry_clean_value.
  assert (Hr : nonempty_entry d1 "rating" = nonempty_entry d "rating")
    by now apply nonempty_entry_clean_value.
  assert (Hv : nonempty_entry d1 "reviews" = nonempty_entry d "reviews")
    by now apply nonempty_entry_clean_value.
  unfold bind at 1.
  erewrite clean_current_price_run
    by (cbn [heap]; apply list_lookup_insert_eq; exact Hl).
  cbn [heap products log world]. rewrite list_insert_insert_eq, Hp.
  unfold cleaned, cleaning_returns.
  destruct (nonempty_entry d "current_price") eqn:Ep; cbn [orb].
  - unfold bind at 1.
    erewrite clean_entry_re_bound
      by (cbn [heap]; apply list_lookup_insert_eq; exact Hl).
    cbn [heap products log world fields index offers].
    rewrite list_insert_insert_eq. unfold bind at 1.
    erewrite clean_entry_re_bound
      by (cbn [heap]; apply list_lookup_insert_eq; exact Hl).
    cbn [heap products log world fields index offers].
    rewrite list_insert_insert_eq. reflexivity.
  - rewrite (clean_value_unchanged clean_price "current_price" d1)
      by (now rewrite Hp).
    rewrite !(product_eta d1).
    unfold bind at 1.
    erewrite clean_entry_re_unbound
      by (cbn [heap]; apply list_lookup_insert_eq; exact Hl).
    rewrite Hr. destruct (nonempty_entry d "rating") eqn:Er; cbn [orb negb];
      [reflexivity|].
    unfold bind at 1.
    erewrite clean_entry_re_unbound
      by (cbn [heap]; apply list_lookup_insert_eq; exact Hl).
    rewrite Hv. destruct (nonempty_entry d "reviews") eqn:Ev; cbn [negb];
      [reflexivity|].
    unfold ret. do 3 f_equal. unfold clean_dict, clean_fields.
    change (clean_value clean_name "name" (fields d)) with (fields d1).
    rewrite (clean_value_unchanged clean_price "current_price" d1) by (now rewrite Hp).
    rewrite (clean_value_unchanged clean_rating "rating" d1) by (now rewrite Hr).
    rewrite (clean_value_unchanged clean_reviews "reviews" d1) by (now rewrite Hv).
    reflexivity.
Qed.

Lemma validate_product_data_run (l : nat) (site_key : str) (s : scraper) (d : product) :
  heap s !! l = Some d ->
  validate_product_data l site_key s =
  (validation_outcome d site_key,
   Scraper (<[l := cleaned d]> (heap s)) (products s) (log s) (world s)).
Proof.
  intros H. pose proof (lookup_lt_Some _ _ _ H) as Hl.
  unfold validate_product_data, bind. rewrite (clean_product_data_run l s d H).
  unfold validation_outcome, cleaned.
  destruct (cleaning_returns d); [|reflexivity].
  unfold dict_getitem, deref, bind. cbn [heap].
  rewrite list_lookup_insert_eq by exact Hl.
  destruct (fields (clean_dict d) !! "name"); reflexivity.
Qed.

(** Entry by entry: each of the four entries goes through its own cleaning
    function when it is present and non-empty, every other entry is kept. *)
Lemma clean_fields_lookup (m : gmap string str) (k : string) :
  clean_fields m !! k =
  if decide (k = "name") then (fun v => if truthy v then clean_name v else v) <$> (m !! k)
  else if decide (k = "current_price")
       then (fun v => if truthy v then clean_price v else v) <$> (m !! k)
  else if decide (k = "rating")
       then (fun v => if truthy v then clean_rating v else v) <$> (m !! k)
  else if decide (k = "reviews")
       then (fun v => if truthy v then clean_reviews v else v) <$> (m !! k)
  else m !! k.
Proof.
  unfold clean_fields. rewrite !clean_value_lookup.
  repeat case_decide; subst; try discriminate; try congruence; reflexivity.
Qed.

(** A new dict, cleaned, then read: the entry of the cleaned map. *)
Lemma clean_new_dict_lookup (d : product) (k : string) (s : scraper) :
  cleaning_returns d = true ->
  fst ((l <- new_dict d ;; clean_product_data l ;;; dict_get l k) s) =
  Ok (clean_fields (fields d) !! k).
Proof.
  intros Hc. unfold bind at 1. unfold new_dict. unfold bind at 1.
  erewrite clean_product_data_run
    by (cbn [heap]; apply list_lookup_middle; reflexivity).
  unfold cleaned. rewrite Hc.
  unfold dict_get, deref, bind, ret. cbn [heap].
  rewrite list_lookup_insert_eq by (rewrite length_app; simpl; lia).
  reflexivity.
Qed.

(** A new dict, validated: the checks on its cleaned name. *)
Lemma validate_new_dict (d : product) (site_key : str) (s : scraper) :
  fst ((l <- new_dict d ;; validate_product_data l site_key) s) =
  validation_outcome d site_key.
Proof.
  unfold bind, new_dict.
  erewrite validate_product_data_run
    by (cbn [heap]; apply list_lookup_middle; reflexivity).
  reflexivity.
Qed.

Lemma clean_fields_insert_name (name : str) (m : gmap string str) :
  clean_fields (<["name" := name]> m) !! "name" =
  Some (if truthy name then clean_name name else name).
Proof.
  rewrite clean_fields_lookup.
  repeat case_decide; try discriminate; try congruence.
  now rewrite lookup_insert_eq.
Qed.

(** A dict with a non-empty current price is one the cleaning gets
    through. *)
Lemma cleaning_returns_priced (raw : str) (m : gmap string str) i o :
  truthy raw = true ->
  cleaning_returns (Product (<["current_price" := raw]> m) i o) = true.
Proof.
  intros H. unfold cleaning_returns, nonempty_entry; cbn [fields].
  now rewrite lookup_insert_eq, H.
Qed.

Lemma clean_fields_insert_price (raw : str) (m : gmap string str) :
  clean_fields (<["current_price" := raw]> m) !! "current_price" =
  Some (if truthy raw then clean_price raw else raw).
Proof.
  rewrite clean_fields_lookup.
  repeat case_decide; try discriminate; try congruence.
  now rewrite lookup_insert_eq.
Qed.

(** Whether the cleaning gets through a dict does not depend on its name. *)
Lemma cleaning_returns_insert_name (name : str) (m : gmap string str) i o :
  cleaning_returns (Product (<["name" := name]> m) i o) = cleaning_returns (Product m i o).
Proof.
  unfold cleaning_returns, nonempty_entry; cbn [fields].
  now rewrite !lookup_insert_ne by discriminate.
Qed.

Lemma validation_outcome_insert_name (name site_key : str) (m : gmap string str) i o :
  cleaning_returns (Product m i o) = true ->
  validation_outcome (Product (<["name" := name]> m) i o) site_key =
  Ok (name_checks (if truthy name then clean_name name else name) site_key).
Proof.
  intros Hc. unfold validation_outcome. rewrite cleaning_returns_insert_name, Hc.
  unfold clean_dict. cbn [fields]. now rewrite clean_fields_insert_name.
Qed.

(** The generic length check rejects for every site. *)
Lemma name_checks_short (name site_key : str) :
  length name < 5 -> name_checks name site_key = false.
Proof.
  intros H. apply Nat.ltb_lt in H. unfold name_checks. rewrite H.
  repeat first
    [ reflexivity
    | match goal with
      | |- (if ?b then false else _) = false => destruct b
      end ].
Qed.

(** The stricter profile rejects below ten characters. *)
Lemma name_checks_amazon (name : str) :
  length name < 10 -> name_checks name (py "amazon") = false.
Proof.
  intros H. apply Nat.ltb_lt in H. unfold name_checks. rewrite H.
  change (str_eqb (py "amazon") (py "amazon")) with true. cbn iota.
  repeat first
    [ reflexivity
    | match goal with
      | |- (if ?b then false else _) = false => destruct b
      end ].
Qed.

Lemma clean_text_idem (f : str -> str) (v : str) :
  f (f v) = f v ->
  (if truthy (if truthy v then f v else v)
   then f (if truthy v then f v else v)
   else (if truthy v then f v else v)) = (if truthy v then f v else v).
Proof.
  intros H. destruct (truthy v) eqn:E.
  - destruct (truthy (f v)); [exact H | reflexivity].
  - now rewrite E.
Qed.

(** C4: price cleaning on the two examples.  A dict whose raw current price
    is the text [₹ 12,999 (incl. taxes)] holds [₹12,999] after
    [clean_product_data]; one whose raw price is [no price], which has no
    run of digits or commas, holds the sentinel [N/A].  The other entries of
    the dict and the session are arbitrary. *)
Theorem price_cleaning_examples (m : gmap string str) (i : Z) (o : list str)
    (s : scraper) :
  let cleaned_price raw :=
    fst ((d <- new_dict (Product (<["current_price" := raw]> m) i o) ;;
          clean_product_data d ;;; dict_get d "current_price") s) in
  cleaned_price (py "₹ 12,999 (incl. taxes)") = Ok (Some (py "₹12,999")) /\
  cleaned_price (py "no price") = Ok (Some NA).
Proof.
  cbv beta zeta.
  rewrite !clean_new_dict_lookup by (now apply cleaning_returns_priced).
  cbn [fields]. rewrite !clean_fields_insert_price.
  split; apply (f_equal Ok), (f_equal Some); vm_compute; reflexivity.
Qed.

(** C5: validation after cleaning rejects the names [Sponsored], [12345] and
    [₹499] (for every site key) and accepts the name
    [Noise ColorFit Pulse 2 Smartwatch] under the profile whose minimum
    length is 5 ([flipkart]).  The session is arbitrary, and so are the other
    entries [m] of the dict, as long as the cleaning that precedes the checks
    gets through them: a non-empty current price, or neither a rating nor a
    reviews text. *)
Theorem name_rejection_examples (m : gmap string str) (i : Z) (o : list str)
    (s : scraper) (site_key : str) :
  cleaning_returns (Product m i o) = true ->
  let verdict name site :=
    fst ((d <- new_dict (Product (<["name" := name]> m) i o) ;;
          validate_product_data d site) s) in
  verdict (py "Sponsored") site_key = Ok false /\
  verdict (py "12345") site_key = Ok false /\
  verdict (py "₹499") site_key = Ok false /\
  verdict (py "Noise ColorFit Pulse 2 Smartwatch") (py "flipkart") = Ok true.
Proof.
  intros Hc. cbv beta zeta.
  rewrite !validate_new_dict, !validation_outcome_insert_name by exact Hc.
  repeat split; apply (f_equal Ok); vm_compute; reflexivity.
Qed.

(** C6: the site-specific minimum is an additional floor.  Whatever the dict
    that the cleaning has gone through, when its cleaned name is shorter
    than 5 characters validation rejects it for every site key (so lengths 3
    and 4 are rejected under the lenient minimum of 2 of [sathya] and under
    the minimum of 3 of [meesho]), and when the site is [amazon] a cleaned
    name shorter than 10 characters (so one of 5 to 9) is rejected. *)
Theorem site_minimum_is_additional_floor (l : nat) (s : scraper) (d d' : product)
    (name site_key : str) :
  heap s !! l = Some d ->
  fst (clean_product_data l s) = Ok l ->
  heap (snd (clean_product_data l s)) !! l = Some d' ->
  fields d' !! "name" = Some name ->
  length name < 5 \/ (site_key = py "amazon" /\ length name < 10) ->
  fst (validate_product_data l site_key s) = Ok false.
Proof.
  intros H Hret H1 Hn Hlen. pose proof (lookup_lt_Some _ _ _ H) as Hl.
  rewrite (clean_product_data_run l s d H) in Hret, H1. cbn [fst snd heap] in Hret, H1.
  assert (Hc : cleaning_returns d = true).
  { destruct (cleaning_returns d); [reflexivity | discriminate]. }
  unfold cleaned in H1. rewrite Hc in H1.
  rewrite list_lookup_insert_eq in H1 by exact Hl. injection H1 as <-.
  rewrite (validate_product_data_run l site_key s d H). cbn [fst].
  unfold validation_outcome. rewrite Hc, Hn. f_equal.
  destruct Hlen as [Hlen | [-> Hlen]].
  - now apply name_checks_short.
  - now apply name_checks_amazon.
Qed.

(** X25: validation cleans the caller's dict in place.  After
    [validate_product_data], whatever it returns (also [False], also a
    [KeyError]) or raises, the dict that was passed holds the cleaned name.
    When the cleaning gets through the dict (a non-empty current price, or
    neither a rating nor a reviews text) it also holds the cleaned price,
    rating and reviews: each of these entries, when present and non-empty,
    has gone through its cleaning function.  Otherwise validation raises
    the [UnboundLocalError] of the cleaning and every entry but the name is
    as it was. *)
Theorem validate_cleans_in_place (l : nat) (site_key : str) (s : scraper) (d : product) :
  heap s !! l = Some d ->
  exists d',
    heap (snd (validate_product_data l site_key s)) !! l = Some d' /\
    fst (validate_product_data l site_key s) = validation_outcome d site_key /\
    fields d' !! "name" =
      (fun v => if truthy v then clean_name v else v) <$> (fields d !! "name") /\
    if cleaning_returns d then
      fields d' !! "current_price" =
        (fun v => if truthy v then clean_price v else v) <$> (fields d !! "current_price") /\
      fields d' !! "rating" =
        (fun v => if truthy v then clean_rating v else v) <$> (fields d !! "rating") /\
      fields d' !! "reviews" =
        (fun v => if truthy v then clean_reviews v else v) <$> (fields d !! "reviews")
    else
      fst (validate_product_data l site_key s) = Raise (UnboundLocalError "re") /\
      forall k, k <> "name" -> fields d' !! k = fields d !! k.
Proof.
  intros H. pose proof (lookup_lt_Some _ _ _ H) as Hl.
  exists (cleaned d).
  rewrite (validate_product_data_run l site_key s d H). cbn [snd fst heap].
  rewrite list_lookup_insert_eq by exact Hl.
  split; [reflexivity|]. split; [reflexivity|].
  unfold cleaned, validation_outcome.
  destruct (cleaning_returns d); unfold clean_dict; cbn [fields].
  - rewrite !clean_fields_lookup. repeat split.
  - rewrite clean_value_lookup. rewrite decide_True by reflexivity.
    split; [reflexivity|]. split; [reflexivity|].
    intros k Hk. rewrite clean_value_lookup. now rewrite decide_False by congruence.
Qed.

(** An entry that was absent or empty is so after cleaning. *)
Lemma empty_entry_clean_dict (d : product) (k : string) :
  nonempty_entry d k = false -> nonempty_entry (clean_dict d) k = false.
Proof.
  unfold nonempty_entry, clean_dict; cbn [fields]. rewrite clean_fields_lookup.
  destruct (fields d !! k) as [v|]; cbn [fmap option_fmap option_map];
    repeat case_decide; try reflexivity; intros E; now rewrite E.
Qed.

Lemma truthy_clean_price (price : str) : truthy (clean_price price) = true.
Proof.
  rewrite clean_price_eq.
  now destruct (dropWhile (fun c => negb (is_digit_or_comma c)) price).
Qed.

(** A non-empty current price is non-empty after cleaning. *)
Lemma priced_clean_dict (d : product) :
  nonempty_entry d "current_price" = true ->
  nonempty_entry (clean_dict d) "current_price" = true.
Proof.
  unfold nonempty_entry, clean_dict; cbn [fields]. rewrite clean_fields_lookup.
  rewrite decide_False by discriminate. rewrite decide_True by reflexivity.
  destruct (fields d !! "current_price") as [v|]; cbn [fmap option_fmap option_map];
    [|discriminate].
  intros E. rewrite E. apply truthy_clean_price.
Qed.

(** The cleaning gets through a dict it has got through before. *)
Lemma cleaning_returns_again (d : product) :
  cleaning_returns d = true -> cleaning_returns (clean_dict d) = true.
Proof.
  unfold cleaning_returns. intros H.
  destruct (nonempty_entry d "current_price") eqn:Ep.
  - now rewrite priced_clean_dict.
  - cbn [orb] in H. apply negb_true_iff, orb_false_iff in H. destruct H as [Hr Hv].
    rewrite (empty_entry_clean_dict d "rating" Hr),
      (empty_entry_clean_dict d "reviews" Hv).
    apply orb_true_r.
Qed.

(** C3, as amended: for every dict the cleaning gets through, cleaning twice
    gives the same current price, rating and reviews (and every other entry
    but the name) as cleaning once, and the second cleaning gets through as
    well; the name too is the same when the once-cleaned name starts with
    none of the boilerplate prefixes, and then the whole dict is. *)
Theorem cleaning_twice (l : nat) (s : scraper) (d : product) :
  heap s !! l = Some d ->
  fst (clean_product_data l s) = Ok l ->
  let s1 := snd (clean_product_data l s) in
  let s2 := snd (clean_product_data l s1) in
  fst (clean_product_data l s1) = Ok l /\
  exists d1 d2,
    heap s1 !! l = Some d1 /\ heap s2 !! l = Some d2 /\
    (forall k, k <> "name" -> fields d2 !! k = fields d1 !! k) /\
    (forall name1, fields d1 !! "name" = Some name1 ->
       Forall (fun p => startswith name1 p = false) prefixes_to_remove ->
       d2 = d1).
Proof.
  intros H Hret s1 s2. pose proof (lookup_lt_Some _ _ _ H) as Hl.
  rewrite (clean_product_data_run l s d H) in Hret. cbn [fst] in Hret.
  assert (Hc : cleaning_returns d = true).
  { destruct (cleaning_returns d); [reflexivity | discriminate]. }
  pose proof (cleaning_returns_again d Hc) as Hc'.
  assert (H1 : heap s1 !! l = Some (clean_dict d)).
  { unfold s1. rewrite (clean_product_data_run l s d H). cbn [snd heap].
    unfold cleaned. rewrite Hc. now apply list_lookup_insert_eq. }
  assert (H2 : heap s2 !! l = Some (clean_dict (clean_dict d))).
  { unfold s2. rewrite (clean_product_data_run l s1 _ H1). cbn [snd heap].
    unfold cleaned. rewrite Hc'.
    apply list_lookup_insert_eq. eapply lookup_lt_Some; eauto. }
  split.
  { rewrite (clean_product_data_run l s1 _ H1). cbn [fst]. now rewrite Hc'. }
  assert (Hother : forall k, k <> "name" ->
            fields (clean_dict (clean_dict d)) !! k = fields (clean_dict d) !! k).
  { intros k Hk. unfold clean_dict; cbn [fields].
    rewrite (clean_fields_lookup (clean_fields _)).
    rewrite !clean_fields_lookup.
    repeat case_decide; try congruence;
      rewrite <- option_fmap_compose; apply option_fmap_ext; intros v; simpl;
      apply clean_text_idem;
      auto using clean_price_idem, clean_rating_idem, clean_reviews_idem. }
  exists (clean_dict d), (clean_dict (clean_dict d)).
  repeat split; try assumption.
  intros name1 Hname Hpre.
  apply product_ext; [|reflexivity|reflexivity].
  change (fields (clean_dict (clean_dict d)))
    with (clean_fields (fields (clean_dict d))).
  apply map_eq. intros k. destruct (decide (k = "name")) as [->|Hk].
  - rewrite clean_fields_lookup. rewrite decide_True by reflexivity.
    rewrite Hname. cbn [fmap option_fmap option_map]. f_equal.
    destruct (truthy name1) eqn:Et; [|reflexivity].
    apply clean_name_fixed; [|exact Hpre].
    unfold clean_dict in Hname; cbn [fields] in Hname.
    rewrite clean_fields_lookup in Hname.
    rewrite decide_True in Hname by reflexivity.
    destruct (fields d !! "name") as [n0|]; [|discriminate].
    cbn [fmap option_fmap option_map] in Hname. injection Hname as Hname.
    destruct (truthy n0) eqn:E0.
    + subst name1. apply clean_name_stripped.
    + subst name1. congruence.
  - apply (Hother k Hk).
Qed.

(** *** Field resolution *)

Lemma traced_all_fail (soup : node) (selectors : list str) :
  Forall (fun s => try_selector soup s = None) selectors ->
  extract_with_multiple_selectors_traced soup selectors = (NA, selectors).
Proof.
  induction 1 as [|x l Hx _ IH]; simpl; [reflexivity|].
  now rewrite Hx, IH.
Qed.

Lemma traced_first_success (soup : node) (pre post : list str) (selector text : str) :
  Forall (fun s => try_selector soup s = None) pre ->
  try_selector soup selector = Some text ->
  extract_with_multiple_selectors_traced soup (pre ++ selector :: post) =
  (text, pre ++ [selector]).
Proof.
  intros Hpre Hsel. induction Hpre as [|x l Hx _ IH]; simpl.
  - now rewrite Hsel.
  - now rewrite Hx, IH.
Qed.

Lemma offers_trace (soup : node) (selectors : list str) (acc : list str) :
  snd (extract_offers_traced soup selectors acc) = selectors.
Proof.
  revert acc. induction selectors as [|x l IH]; intros acc; simpl; [reflexivity|].
  now rewrite IH.
Qed.

(** What a structural selector returns is never empty and never the
    sentinel. *)
Lemma try_selector_structural (soup : node) (selector text : str) :
  contains (py ":contains(") selector = false ->
  try_selector soup selector = Some text ->
  text <> [] /\ text <> NA /\
  exists element more, css_select selector soup = Some (element :: more) /\
                       text = get_text_strip element.
Proof.
  intros Hc. unfold try_selector. rewrite Hc.
  destruct (css_select selector soup) as [[|element more]|]; try discriminate.
  destruct (truthy (get_text_strip element)) eqn:Et; [|discriminate].
  unfold str_eqb. case_bool_decide as Hna; [discriminate|]. simpl.
  destruct (Nat.ltb 0 (length (get_text_strip element))); [|discriminate].
  intros [= <-]. repeat split; eauto.
  intros E. now rewrite E in Et.
Qed.

(** C1, as amended: for the fields resolved by
    [extract_with_multiple_selectors] the selectors are tried in list order
    and the first whose iteration returns decides the value: the selectors
    before it were tried, it was tried, the ones after it never are.  A
    structural selector returns only a non-empty text other than [N/A].  The
    offers field is resolved otherwise: on the same list
    [extract_offers_with_config] goes through every selector. *)
Theorem first_match_wins (soup : node) (pre post : list str)
    (selector text field_name : str) :
  Forall (fun s => try_selector soup s = None) pre ->
  try_selector soup selector = Some text ->
  extract_with_multiple_selectors_traced soup (pre ++ selector :: post) =
    (text, pre ++ [selector]) /\
  extract_with_multiple_selectors soup (pre ++ selector :: post) field_name = text /\
  (contains (py ":contains(") selector = false -> text <> [] /\ text <> NA) /\
  snd (extract_offers_traced soup (pre ++ selector :: post) []) =
    pre ++ selector :: post.
Proof.
  intros Hpre Hsel.
  pose proof (traced_first_success soup pre post selector text Hpre Hsel) as Ht.
  repeat split.
  - exact Ht.
  - unfold extract_with_multiple_selectors. now rewrite Ht.
  - eapply try_selector_structural; eauto.
  - eapply try_selector_structural; eauto.
  - apply offers_trace.
Qed.

Lemma try_selector_contains (soup : node) (selector t s : str) (r : regex)
    (parent : node) (more : list (str * node)) :
  contains (py ":contains(") selector = true ->
  text_to_find selector = Some t ->
  re_compile_i t = Some r ->
  find_all_string soup r = (s, parent) :: more ->
  try_selector soup selector = Some (get_text_strip parent).
Proof.
  intros Hc Ht Hr Hf. unfold try_selector. now rewrite Hc, Ht, Hr, Hf.
Qed.

(** The loop of [extract_delivery_info] and [extract_availability] returns
    the first string found, stripped, unless a structural selector selects
    an element. *)
Lemma extract_fixed_pattern_string (soup : node) (r : regex) (selectors : list str)
    (s : str) (parent : node) (more : list (str * node)) :
  find_all_string soup r = (s, parent) :: more ->
  Forall (fun selector => contains (py ":contains(") selector = false ->
            css_select selector soup = None \/ css_select selector soup = Some [])
         selectors ->
  existsb (contains (py ":contains(")) selectors = true ->
  extract_fixed_pattern soup r selectors = strip s.
Proof.
  intros Hf Hall. induction Hall as [|x l Hx _ IH]; simpl; [discriminate|].
  destruct (contains (py ":contains(") x) eqn:E; simpl.
  - now rewrite Hf.
  - intros Hex. destruct (Hx eq_refl) as [-> | ->]; auto.
Qed.

(** C2, as amended: in [extract_with_multiple_selectors] a text-containment
    selector whose pattern is found in a string of the fragment, and before
    which no selector returned, resolves to the stripped text of the parent
    element of the first such string.  [extract_delivery_info] and
    [extract_availability] do not: when none of their structural selectors
    selects an element they return the first matching string itself,
    stripped. *)
Theorem contains_returns_parent_text (soup : node) (pre post : list str)
    (selector t s field_name : str) (r : regex) (parent : node)
    (more : list (str * node)) :
  Forall (fun s => try_selector soup s = None) pre ->
  contains (py ":contains(") selector = true ->
  text_to_find selector = Some t ->
  re_compile_i t = Some r ->
  find_all_string soup r = (s, parent) :: more ->
  extract_with_multiple_selectors soup (pre ++ selector :: post) field_name =
    get_text_strip parent /\
  (forall s' parent' more',
     find_all_string soup re_delivery = (s', parent') :: more' ->
     Forall (fun selector => contains (py ":contains(") selector = false ->
               css_select selector soup = None \/ css_select selector soup = Some [])
            delivery_selectors ->
     extract_delivery_info soup = strip s') /\
  (forall s' parent' more',
     find_all_string soup re_availability = (s', parent') :: more' ->
     Forall (fun selector => contains (py ":contains(") selector = false ->
               css_select selector soup = None \/ css_select selector soup = Some [])
            availability_selectors ->
     extract_availability soup = strip s').
Proof.
  intros Hpre Hc Ht Hr Hf. split; [|split].
  - unfold extract_with_multiple_selectors.
    erewrite traced_first_success; [reflexivity | exact Hpre |].
    eapply try_selector_contains; eauto.
  - intros s' parent' more' Hf' Hnone.
    eapply extract_fixed_pattern_string; [exact Hf' | exact Hnone | vm_compute; reflexivity].
  - intros s' parent' more' Hf' Hnone.
    eapply extract_fixed_pattern_string; [exact Hf' | exact Hnone | vm_compute; reflexivity].
Qed.

(** *** The heuristic example *)

Import Fixtures.

Lemma mouse_lines :
  substantial_lines mouse_text =
  [py "Wireless Mouse"; py "4.2 out of 5"; py "230 ratings"].
Proof. vm_compute. reflexivity. Qed.

Lemma mouse_chunks : product_chunks_of mouse_text = [py "4.2 out of 5"].
Proof. vm_compute. reflexivity. Qed.

Lemma extract_from_text_chunk_mouse (index : Z) (site_key : str)
    (search_query : option str) (s : scraper) :
  extract_from_text_chunk mouse_text index site_key search_query s =
  (Ok (Some (length (heap s))),
   Scraper (heap s ++ [product_dict index (py "Wireless Mouse") (py "₹799") NA
                         (py "4.2") (py "230 ratings") NA [] NA NA NA
                         (str_or search_query NA) site_key
                         (isoformat_now (world s))])
           (products s) (log s) (S (world s))).
Proof.
  unfold extract_from_text_chunk.
  replace (stripped_lines mouse_text)
    with [py "₹799"; py "Wireless Mouse"; py "4.2 out of 5"; py "230 ratings"]
    by (vm_compute; reflexivity).
  replace (search re_price mouse_text)
    with (Some (Match (py "₹799") (Some (py "799"))))
    by (vm_compute; reflexivity).
  replace (search re_rating mouse_text)
    with (Some (Match (py "4.2 out of 5") (Some (py "4.2"))))
    by (vm_compute; reflexivity).
  replace (search re_reviews mouse_text)
    with (Some (Match (py "230 ratings") (Some (py "230"))))
    by (vm_compute; reflexivity).
  match goal with
  | |- context [List.find ?f ?l] =>
    replace (List.find f l) with (Some (py "Wireless Mouse"))
      by (vm_compute; reflexivity)
  end.
  reflexivity.
Qed.

(** C8, as amended: [extract_from_text_chunk], given the four lines as one
    chunk, builds a record with current price [₹799], rating [4.2], reviews
    [230 ratings] and name [Wireless Mouse].  The segmentation rule does not
    lead there: of the four lines it keeps the three longer than five
    characters, no chunk it forms from them is longer than twenty
    characters, and so the extractor run on that text leaves the session as
    it is. *)
Theorem heuristic_example (index : Z) (site_key : str) (search_query : option str)
    (s : scraper) :
  (exists d,
     fst (extract_from_text_chunk mouse_text index site_key search_query s) =
       Ok (Some (length (heap s))) /\
     heap (snd (extract_from_text_chunk mouse_text index site_key search_query s))
       !! length (heap s) = Some d /\
     fields d !! "current_price" = Some (py "₹799") /\
     fields d !! "rating" = Some (py "4.2") /\
     fields d !! "reviews" = Some (py "230 ratings") /\
     fields d !! "name" = Some (py "Wireless Mouse")) /\
  substantial_lines mouse_text =
    [py "Wireless Mouse"; py "4.2 out of 5"; py "230 ratings"] /\
  Forall (fun chunk => length chunk <= 20) (product_chunks_of mouse_text) /\
  parse_text_content mouse_text site_key search_query s = (Ok tt, s).
Proof.
  split; [|split; [|split]].
  - rewrite extract_from_text_chunk_mouse. cbn [fst snd heap].
    eexists. split; [reflexivity|].
    split; [apply list_lookup_middle; reflexivity|].
    unfold product_dict; cbn [fields].
    repeat split; simplify_map_eq; reflexivity.
  - exact mouse_lines.
  - rewrite mouse_chunks. constructor; [vm_compute; lia | constructor].
  - unfold parse_text_content. rewrite mouse_chunks. reflexivity.
Qed.

(** *** The crawler's context manager *)

(** Entering and leaving the block change nothing of the session but the
    clock. *)
Lemma open_crawler_state (s : scraper) :
  heap (snd (open_crawler s)) = heap s /\
  products (snd (open_crawler s)) = products s /\
  log (snd (open_crawler s)) = log s.
Proof. unfold open_crawler. now destruct (crawler_enter (world s)). Qed.

Lemma close_crawler_state (s : scraper) :
  heap (snd (close_crawler s)) = heap s /\
  products (snd (close_crawler s)) = products s /\
  log (snd (close_crawler s)) = log s.
Proof. unfold close_crawler. now destruct (crawler_exit (world s)). Qed.

(** *** Which events a computation emits *)

Lemma only_emits_same (allowed : event -> Prop) (s s' : scraper) :
  log s' = log s -> only_emits allowed s s'.
Proof. intros H. exists []. now rewrite app_nil_r. Qed.

Lemma only_emits_trans (allowed : event -> Prop) (s1 s2 s3 : scraper) :
  only_emits allowed s1 s2 -> only_emits allowed s2 s3 -> only_emits allowed s1 s3.
Proof.
  intros (e1 & H1 & F1) (e2 & H2 & F2). exists (e1 ++ e2). split.
  - now rewrite H2, H1, app_assoc.
  - now apply Forall_app.
Qed.

Lemma only_emits_weaken (allowed allowed' : event -> Prop) (s s' : scraper) :
  (forall e, allowed e -> allowed' e) ->
  only_emits allowed s s' -> only_emits allowed' s s'.
Proof.
  intros Hw (evs & H & F). exists evs. split; [exact H|].
  eapply Forall_impl; eauto.
Qed.

Section Quiet.

Variable allowed : event -> Prop.

Lemma quiet_ret {A} (a : A) : quiet allowed (ret a).
Proof. intros s. now apply only_emits_same. Qed.

Lemma quiet_raise {A} (e : exn) : quiet allowed (@raise A e).
Proof. intros s. now apply only_emits_same. Qed.

Lemma quiet_bind {A B} (m : M A) (f : A -> M B) :
  quiet allowed m -> (forall a, quiet allowed (f a)) -> quiet allowed (bind m f).
Proof.
  intros Hm Hf s. unfold bind. specialize (Hm s).
  destruct (m s) as [[a|e] s1]; cbn [snd] in *; [|exact Hm].
  eapply only_emits_trans; [exact Hm | apply Hf].
Qed.

Lemma quiet_try {A} (m : M A) (h : exn -> M A) :
  quiet allowed m -> (forall e, quiet allowed (h e)) -> quiet allowed (try_except m h).
Proof.
  intros Hm Hh s. unfold try_except. specialize (Hm s).
  destruct (m s) as [[a|e] s1]; cbn [snd] in *; [exact Hm|].
  eapply only_emits_trans; [exact Hm | apply Hh].
Qed.

Lemma quiet_for_each {A} (l : list A) (body : A -> M unit) :
  (forall x, quiet allowed (body x)) -> quiet allowed (for_each l body).
Proof.
  intros Hb. induction l as [|x l IH]; simpl.
  - apply quiet_ret.
  - apply quiet_bind; [apply Hb | intros _; exact IH].
Qed.

Lemma quiet_emit (e : event) : allowed e -> quiet allowed (emit e).
Proof. intros He s. exists [e]. split; [reflexivity | now constructor]. Qed.

Lemma quiet_tick : quiet allowed tick.
Proof. intros s. now apply only_emits_same. Qed.

Lemma quiet_new_dict (d : product) : quiet allowed (new_dict d).
Proof. intros s. now apply only_emits_same. Qed.

Lemma quiet_deref (l : nat) : quiet allowed (deref l).
Proof.
  intros s. unfold deref. destruct (heap s !! l); now apply only_emits_same.
Qed.

Lemma quiet_append_product (l : nat) : quiet allowed (append_product l).
Proof. intros s. now apply only_emits_same. Qed.

Lemma quiet_get_products : quiet allowed get_products.
Proof. intros s. now apply only_emits_same. Qed.

Lemma quiet_products_of_site (site_key : str) : quiet allowed (products_of_site site_key).
Proof. intros s. now apply only_emits_same. Qed.

Lemma quiet_dict_setitem (l : nat) (k : string) (v : str) :
  quiet allowed (dict_setitem l k v).
Proof.
  intros s. unfold dict_setitem, bind, deref.
  destruct (heap s !! l); now apply only_emits_same.
Qed.

End Quiet.

Create HintDb quiet.

#[local] Hint Resolve quiet_ret quiet_raise quiet_tick quiet_new_dict quiet_deref
  quiet_append_product quiet_get_products quiet_products_of_site
  quiet_dict_setitem : quiet.

(** Takes a computation apart along its binds, handlers, loops and case
    distinctions, down to the primitives and the lemmas of the [quiet] hint
    database. *)
Ltac quiet_steps :=
  repeat first
    [ solve [auto with quiet]
    | apply quiet_bind; [|intros ?]
    | apply quiet_try; [|intros ?]
    | apply quiet_for_each; intros ?
    | apply quiet_emit
    | match goal with
      | |- quiet _ (match ?x with _ => _ end) => destruct x
      | |- quiet _ (let _ := _ in _) => cbv zeta
      end ].

Section QuietScraper.

Variable allowed : event -> Prop.

Lemma quiet_dict_get (l : nat) (k : string) : quiet allowed (dict_get l k).
Proof. unfold dict_get. quiet_steps. Qed.

Lemma quiet_dict_getitem (l : nat) (k : string) : quiet allowed (dict_getitem l k).
Proof. unfold dict_getitem. quiet_steps. Qed.

Hint Resolve quiet_dict_get quiet_dict_getitem : quiet.

Lemma quiet_clean_entry (l : nat) (k : string) (f : str -> str) :
  quiet allowed (clean_entry l k f).
Proof. unfold clean_entry. quiet_steps. Qed.

Hint Resolve quiet_clean_entry : quiet.

Lemma quiet_clean_product_data (l : nat) : quiet allowed (clean_product_data l).
Proof. unfold clean_product_data. quiet_steps. Qed.

Hint Resolve quiet_clean_product_data : quiet.

Lemma quiet_validate_product_data (l : nat) (site_key : str) :
  quiet allowed (validate_product_data l site_key).
Proof. unfold validate_product_data. quiet_steps. Qed.

Hint Resolve quiet_validate_product_data : quiet.

Lemma quiet_append_if_valid (pd : option nat) (site_key : str) :
  quiet allowed (append_if_valid pd site_key).
Proof. unfold append_if_valid. quiet_steps. Qed.

Hint Resolve quiet_append_if_valid : quiet.

Lemma quiet_extract_from_text_chunk text index site_key search_query :
  quiet allowed (extract_from_text_chunk text index site_key search_query).
Proof. unfold extract_from_text_chunk. quiet_steps. Qed.

Lemma quiet_extract_basic_product_data element index site_key search_query :
  quiet allowed (extract_basic_product_data element index site_key search_query).
Proof. unfold extract_basic_product_data. quiet_steps. Qed.

Lemma quiet_extract_product_data_with_config soup index config site_key search_query :
  quiet allowed (extract_product_data_with_config soup index config site_key search_query).
Proof. unfold extract_product_data_with_config. quiet_steps. Qed.

Hint Resolve quiet_extract_from_text_chunk quiet_extract_basic_product_data
  quiet_extract_product_data_with_config : quiet.

Lemma quiet_parse_candidates {A} (soup_of : A -> node) candidates config site_key
    search_query :
  quiet allowed (parse_candidates soup_of candidates config site_key search_query).
Proof. unfold parse_candidates. quiet_steps. Qed.

Hint Resolve @quiet_parse_candidates : quiet.

Lemma quiet_first_containers soup selectors :
  quiet allowed (first_containers soup selectors).
Proof. induction selectors as [|x l IH]; simpl; quiet_steps. Qed.

Hint Resolve quiet_first_containers : quiet.

Lemma quiet_structured_parsing result config site_key search_query :
  quiet allowed (structured_parsing result config site_key search_query).
Proof.
  unfold structured_parsing, parse_products_with_config,
    parse_products_from_html_with_config.
  quiet_steps.
Qed.

Lemma quiet_parse_text_content text site_key search_query :
  quiet allowed (parse_text_content text site_key search_query).
Proof. unfold parse_text_content. quiet_steps. Qed.

Lemma quiet_no_products_of_site site_key : quiet allowed (no_products_of_site site_key).
Proof. unfold no_products_of_site. quiet_steps. Qed.

Lemma quiet_open_crawler : quiet allowed open_crawler.
Proof. intros s. apply only_emits_same, open_crawler_state. Qed.

Lemma quiet_close_crawler : quiet allowed close_crawler.
Proof. intros s. apply only_emits_same, close_crawler_state. Qed.

End QuietScraper.

#[local] Hint Resolve quiet_dict_get quiet_dict_getitem quiet_clean_entry
  quiet_clean_product_data quiet_validate_product_data quiet_append_if_valid
  quiet_extract_from_text_chunk quiet_extract_basic_product_data
  quiet_extract_product_data_with_config @quiet_parse_candidates
  quiet_first_containers quiet_structured_parsing quiet_parse_text_content
  quiet_no_products_of_site quiet_open_crawler quiet_close_crawler : quiet.

(** *** How the session grows *)

Lemma grows_same (n : nat) (site : str) (s s' : scraper) :
  log s' = log s -> heap s' = heap s -> products s' = products s ->
  grows n site s s'.
Proof.
  intros Hl Hh Hp. split; [exact Hl|]. split.
  - exists []. now rewrite app_nil_r.
  - exists []. rewrite app_nil_r. repeat split; [exact Hp | simpl; lia | constructor].
Qed.

Lemma grows_trans (n m : nat) (site : str) (s1 s2 s3 : scraper) :
  grows n site s1 s2 -> grows m site s2 s3 -> grows (n + m) site s1 s3.
Proof.
  intros (L1 & (h1 & H1) & (n1 & P1 & B1 & F1)) (L2 & (h2 & H2) & (n2 & P2 & B2 & F2)).
  split; [congruence|]. split.
  - exists (h1 ++ h2). now rewrite H2, H1, app_assoc.
  - exists (n1 ++ n2). repeat split.
    + now rewrite P2, P1, app_assoc.
    + rewrite length_app. lia.
    + apply Forall_app. split; [|exact F2].
      eapply Forall_impl; [exact F1|]. intros l (d & Hd & Hs). exists d.
      split; [|exact Hs]. rewrite H2. now apply lookup_app_l_Some.
Qed.

Lemma grows_mono (n m : nat) (site : str) (s s' : scraper) :
  n <= m -> grows n site s s' -> grows m site s s'.
Proof.
  intros Hnm (L & H & (new & P & B & F)). split; [exact L|]. split; [exact H|].
  exists new. repeat split; [exact P | lia | exact F].
Qed.

Lemma grows_length (n : nat) (site : str) (s s' : scraper) :
  grows n site s s' -> length (products s') <= length (products s) + n.
Proof. intros (_ & _ & (new & P & B & _)). rewrite P, length_app. lia. Qed.

Lemma adds_ret {A} (site : str) (a : A) : adds 0 site (ret a).
Proof. intros s. now apply grows_same. Qed.

Lemma adds_raise {A} (site : str) (e : exn) : adds 0 site (@raise A e).
Proof. intros s. now apply grows_same. Qed.

Lemma adds_try_ret {A} (n : nat) (site : str) (m : M A) (a : A) :
  adds n site m -> adds n site (try_except m (fun _ => ret a)).
Proof.
  intros Hm s. unfold try_except, ret. specialize (Hm s).
  now destruct (m s) as [[x|e] s1].
Qed.

Lemma adds_for_each {A} (site : str) (l : list A) (body : A -> M unit) :
  (forall x, adds 1 site (body x)) -> adds (length l) site (for_each l body).
Proof.
  intros Hb. induction l as [|x l IH]; simpl.
  - apply adds_ret.
  - intros s. unfold bind. specialize (Hb x s).
    destruct (body x s) as [[[]|e] s1]; cbn [snd] in *.
    + change (S (length l)) with (1 + length l).
      eapply grows_trans; [exact Hb | apply IH].
    + eapply grows_mono; [|exact Hb]. lia.
Qed.

Lemma try_ret_unit (m : M unit) (s : scraper) :
  try_except m (fun _ => ret tt) s = (Ok tt, snd (m s)).
Proof. unfold try_except, ret. now destruct (m s) as [[[]|e] s1]. Qed.

(** A call of [scrape_site] for a configured site: the crawler does not
    open, or the [try] block runs to its end, whatever happens in it, and
    the crawler is closed. *)
Lemma scrape_site_run (site_key : str) (config : config)
    (custom_url search_query : option str) (s : scraper) :
  lookup_config site_key site_configs = Some config ->
  scrape_site site_key custom_url search_query s =
  match crawler_enter (world s) with
  | Some e => (Raise e, Scraper (heap s) (products s) (log s) (S (world s)))
  | None =>
    close_crawler
      (snd (fetch_and_parse config (str_or custom_url (cfg_url config)) site_key
              search_query s))
  end.
Proof.
  intros Hcfg. unfold scrape_site. rewrite Hcfg. cbv zeta.
  unfold bind at 1, open_crawler.
  destruct (crawler_enter (world s)); [reflexivity|].
  unfold bind. now rewrite try_ret_unit.
Qed.

Lemma clean_dict_site (d : product) :
  fields (clean_dict d) !! "site" = fields d !! "site".
Proof.
  unfold clean_dict; cbn [fields]. rewrite clean_fields_lookup.
  repeat case_decide; try discriminate; reflexivity.
Qed.

Lemma cleaned_site (d : product) :
  fields (cleaned d) !! "site" = fields d !! "site".
Proof.
  unfold cleaned. destruct (cleaning_returns d); [apply clean_dict_site|].
  cbn [fields]. rewrite clean_value_lookup. now rewrite decide_False by discriminate.
Qed.

Lemma product_dict_site index name current_price original_price rating reviews
    discount offers image_url delivery availability search_query site scraped_at :
  fields (product_dict index name current_price original_price rating reviews
            discount offers image_url delivery availability search_query site
            scraped_at) !! "site" = Some site.
Proof.
  unfold product_dict; cbn [fields].
  rewrite !lookup_insert_ne by discriminate. apply lookup_insert_eq.
Qed.

(** An extractor followed by validation accepts at most one record, the one
    it has just built. *)
Lemma record_then_append (site : str) (mk : M (option nat)) :
  builds_record site mk ->
  adds 1 site (pd <- mk ;; append_if_valid pd site).
Proof.
  intros Hmk s. unfold bind at 1.
  destruct (Hmk s) as [-> | (d & w & -> & Hsite)].
  - now apply grows_same.
  - unfold append_if_valid, bind.
    erewrite validate_product_data_run
      by (cbn [heap]; apply list_lookup_middle; reflexivity).
    cbn [heap products log world].
    rewrite insert_app_r_alt by lia. rewrite Nat.sub_diag. cbn [insert list_insert].
    destruct (validation_outcome d site) as [[|]|e]; cbn [snd].
    + unfold append_product; cbn [snd heap products log world].
      split; [reflexivity|]. split; [now exists [cleaned d]|].
      exists [length (heap s)]. repeat split; [simpl; lia|].
      constructor; [|constructor]. exists (cleaned d). split.
      * cbn [heap]. apply list_lookup_middle. reflexivity.
      * now rewrite cleaned_site.
    + unfold ret; cbn [snd].
      split; [reflexivity|]. split; [now exists [cleaned d]|].
      exists []. rewrite app_nil_r. repeat split; [simpl; lia | constructor].
    + split; [reflexivity|]. split; [now exists [cleaned d]|].
      exists []. rewrite app_nil_r. repeat split; [simpl; lia | constructor].
Qed.

Lemma builds_extract_basic_product_data element index site_key search_query :
  builds_record site_key
    (extract_basic_product_data element index site_key search_query).
Proof.
  intros s. unfold extract_basic_product_data. cbv zeta.
  destruct (Nat.ltb (length (get_text_strip element)) 10); [now left|].
  right. eexists _, _. split; [reflexivity | apply product_dict_site].
Qed.

Lemma builds_extract_product_data_with_config soup index config site_key search_query :
  builds_record site_key
    (extract_product_data_with_config soup index config site_key search_query).
Proof.
  intros s. right. unfold extract_product_data_with_config. cbv zeta.
  eexists _, _. split; [reflexivity | apply product_dict_site].
Qed.

Lemma builds_extract_from_text_chunk text index site_key search_query :
  builds_record site_key (extract_from_text_chunk text index site_key search_query).
Proof.
  intros s. unfold extract_from_text_chunk.
  destruct (stripped_lines text); [now left|].
  right. cbv zeta. eexists _, _. split; [reflexivity | apply product_dict_site].
Qed.

Lemma adds_parse_candidates {A} (soup_of : A -> node) candidates config site_key
    search_query :
  adds (length candidates) site_key
       (parse_candidates soup_of candidates config site_key search_query).
Proof.
  unfold parse_candidates.
  replace (length candidates) with (length (enumerate candidates)).
  2:{ unfold enumerate. generalize 0. induction candidates; intros; simpl; auto. }
  apply adds_for_each. intros ic. apply adds_try_ret.
  apply record_then_append, builds_extract_product_data_with_config.
Qed.

Lemma first_containers_state soup selectors (s : scraper) :
  snd (first_containers soup selectors s) = s.
Proof.
  induction selectors as [|x l IH]; simpl; [reflexivity|].
  destruct (css_select x soup) as [[|c cs]|]; auto.
Qed.

(** Tier 1 only accepts records of the site it is run for, and emits
    nothing. *)
Lemma structured_parsing_grows result config site_key search_query (s : scraper) :
  exists n,
    grows n site_key s (snd (structured_parsing result config site_key search_query s)).
Proof.
  unfold structured_parsing.
  destruct (nonempty (extracted_content result)).
  - eexists. apply adds_parse_candidates.
  - unfold parse_products_from_html_with_config. cbv zeta. unfold bind at 1.
    match goal with
    | |- context [match ?m s with _ => _ end] =>
      assert (Hst : snd (m s) = s);
        [| destruct (m s) as [[cs|e] s1]; cbn [snd] in Hst; subst s1 ]
    end.
    + destruct (css_select (product_selector config) (parse_html (html result)))
        as [[|c cs]|]; try reflexivity.
      apply first_containers_state.
    + eexists. apply adds_parse_candidates.
    + exists 0. now apply grows_same.
Qed.

(** When records of the site were accepted, the gate of the fallback tiers
    is closed. *)
Lemma gate_open_nothing_added (n : nat) (site_key : str) (s s1 : scraper) :
  grows n site_key s s1 ->
  fst (no_products_of_site site_key s1) = Ok true ->
  products s1 = products s.
Proof.
  intros (_ & _ & (new & P & _ & F)) Hgate.
  destruct new as [|l new]; [now rewrite app_nil_r in P|]. exfalso.
  unfold no_products_of_site, bind, get_products, products_of_site, ret in Hgate.
  cbn [fst] in Hgate. injection Hgate as Hgate.
  apply orb_true_iff in Hgate. destruct Hgate as [Hgate | Hgate].
  - rewrite P in Hgate. now destruct (products s).
  - apply Nat.eqb_eq in Hgate.
    apply Forall_cons in F. destruct F as [(d & Hd & Hs) _].
    assert (Hin : In l (products s1)).
    { rewrite P. apply in_or_app. right. now left. }
    match type of Hgate with
    | length (List.filter ?f _) = 0 =>
      assert (Hf : In l (List.filter f (products s1)))
    end.
    { apply filter_In. split; [exact Hin|]. rewrite Hd.
      now apply bool_decide_eq_true. }
    destruct (List.filter _ (products s1)); [contradiction | discriminate].
Qed.

(** *** Tier 2 *)

Lemma emitted_app {A} (m : M A) (s : scraper) (evs : list event) :
  log (snd (m s)) = log s ++ evs -> emitted m s = evs.
Proof. intros H. unfold emitted. rewrite H. apply drop_app_length. Qed.

Lemma enumerate_from_fst {A} (i : nat) (l : list A) :
  map fst (enumerate_from i l) = seq i (length l).
Proof.
  revert i. induction l as [|x l IH]; intros i; simpl; [reflexivity|].
  now rewrite IH.
Qed.

Lemma enumerate_from_length {A} (i : nat) (l : list A) :
  length (enumerate_from i l) = length l.
Proof. revert i. induction l as [|x l IH]; intros i; simpl; auto. Qed.

(** A candidate of tier 2 is announced, then extracted and validated, and
    accepts at most one record. *)
Lemma alternative_candidate_run (site_key : str) (search_query : option str)
    (ie : nat * node) (s : scraper) :
  exists s',
    alternative_candidate site_key search_query ie s = (Ok tt, s') /\
    log s' = log s ++ [EvCandidate (fst ie)] /\
    length (products s') <= length (products s) + 1.
Proof.
  unfold alternative_candidate. unfold bind at 1. unfold emit at 1.
  rewrite try_ret_unit. eexists. split; [reflexivity|].
  match goal with
  | |- context [snd (?m ?s0)] =>
    pose proof (record_then_append site_key _
                  (builds_extract_basic_product_data (snd ie)
                     (Z.of_nat (fst ie) + 1) site_key search_query) s0) as Hg
  end.
  destruct Hg as (Lg & _ & (new & Pg & Bg & _)).
  split.
  - rewrite Lg. reflexivity.
  - rewrite Pg, length_app. cbn [products]. lia.
Qed.

Lemma alternative_candidates (site_key : str) (search_query : option str)
    (l : list (nat * node)) (s : scraper) :
  exists s',
    for_each l (alternative_candidate site_key search_query) s = (Ok tt, s') /\
    log s' = log s ++ map EvCandidate (map fst l) /\
    length (products s') <= length (products s) + length l.
Proof.
  revert s. induction l as [|ie l IH]; intros s; cbn [for_each].
  - exists s. cbn. rewrite app_nil_r. repeat split; lia.
  - unfold bind at 1.
    destruct (alternative_candidate_run site_key search_query ie s)
      as (s1 & -> & L1 & P1).
    destruct (IH s1) as (s2 & -> & L2 & P2).
    exists s2. split; [reflexivity|]. split.
    + rewrite L2, L1. cbn [map]. now rewrite <- app_assoc.
    + cbn [length]. lia.
Qed.

(** The loop over the container queries: queries are issued in list order up
    to the first that selects something; its first ten elements are the
    candidates; the queries after it are never issued. *)
Lemma alternative_loop_run (soup : node) (site_key : str) (search_query : option str)
    (pre post : list str) (selector : str) (elements : list node) (s : scraper) :
  Forall (fun sel => css_select sel soup = Some []) pre ->
  css_select selector soup = Some elements ->
  elements <> [] ->
  exists s',
    alternative_loop soup site_key search_query (pre ++ selector :: post) s = (Ok tt, s') /\
    log s' =
      log s ++ map EvSelect (pre ++ [selector])
            ++ map EvCandidate (seq 0 (length (take 10 elements))) /\
    length (products s') <= length (products s) + length (take 10 elements).
Proof.
  intros Hpre Hsel Hne. revert s.
  induction Hpre as [|x pre Hx _ IH]; intros s; cbn [app alternative_loop].
  - unfold bind at 1. unfold emit at 1. rewrite Hsel.
    destruct elements as [|e els]; [congruence|].
    match goal with
    | |- context [for_each ?l _ ?s0] =>
      destruct (alternative_candidates site_key search_query l s0)
        as (s1 & -> & Hl & Hp)
    end.
    exists s1. split; [reflexivity|]. split.
    + rewrite Hl. cbn [log map app]. unfold enumerate.
      rewrite enumerate_from_fst. now rewrite <- app_assoc.
    + unfold enumerate in Hp. rewrite enumerate_from_length in Hp. exact Hp.
  - unfold bind at 1. unfold emit at 1. rewrite Hx.
    match goal with
    | |- context [alternative_loop _ _ _ _ ?s0] =>
      destruct (IH s0) as (s1 & -> & Hl & Hp)
    end.
    exists s1. split; [reflexivity|]. split.
    + rewrite Hl. cbn [log map app]. now rewrite <- app_assoc.
    + exact Hp.
Qed.

Lemma try_alternative_parsing_run (result : crawl_result) (config : config)
    (site_key : str) (search_query : option str)
    (pre post : list str) (selector : str) (elements : list node) (s : scraper) :
  alternative_selectors = pre ++ selector :: post ->
  Forall (fun sel => css_select sel (parse_html (html result)) = Some []) pre ->
  css_select selector (parse_html (html result)) = Some elements ->
  elements <> [] ->
  emitted (try_alternative_parsing result config site_key search_query) s =
    EvAlternative :: map EvSelect (pre ++ [selector])
      ++ map EvCandidate (seq 0 (length (take 10 elements))) /\
  length (products (snd (try_alternative_parsing result config site_key search_query s)))
    <= length (products s) + length (take 10 elements).
Proof.
  intros Hsplit Hpre Hsel Hne.
  assert (Hrun : exists s',
             try_alternative_parsing result config site_key search_query s = (Ok tt, s') /\
             log s' = log s ++ EvAlternative :: map EvSelect (pre ++ [selector])
                        ++ map EvCandidate (seq 0 (length (take 10 elements))) /\
             length (products s') <= length (products s) + length (take 10 elements)).
  { unfold try_alternative_parsing. unfold bind at 1. unfold emit at 1.
    rewrite try_ret_unit. rewrite Hsplit.
    match goal with
    | |- context [alternative_loop ?a ?b ?c ?d ?s0] =>
      destruct (alternative_loop_run a b c pre post selector elements s0
                  Hpre Hsel Hne) as (s1 & -> & Hl & Hp)
    end.
    exists s1. split; [reflexivity|]. split.
    - rewrite Hl. cbn [log]. now rewrite <- app_assoc.
    - exact Hp. }
  destruct Hrun as (s' & Hrun & Hl & Hp). split.
  - apply emitted_app. now rewrite Hrun.
  - now rewrite Hrun.
Qed.

Lemma not_in_fetch (s s' : scraper) (url : str) (e : event) :
  log s' = log s ++ [EvFetch url] ->
  e ∈ drop (length (log s)) (log s') -> e = EvFetch url.
Proof.
  intros H Hin. rewrite H, drop_app_length in Hin.
  now apply list_elem_of_singleton in Hin.
Qed.

(** C7: the generic extractor runs only when tier 1 accepted nothing.  When
    a run of [scrape_site] enters [try_alternative_parsing], the site is
    configured, the fetch succeeded and the first parsing step has left
    [self.products] as it was.  Tier 2 then issues its container queries in
    list order up to the first that selects something, takes at most ten of
    the selected elements as candidates, accepts at most that many records,
    and issues none of the later queries, whatever validation says. *)
Theorem generic_extractor_gate (site_key : str) (custom_url search_query : option str)
    (s : scraper) :
  EvAlternative ∈ emitted (scrape_site site_key custom_url search_query) s ->
  exists config result,
    lookup_config site_key site_configs = Some config /\
    arun (world s) (str_or custom_url (cfg_url config))
         (Some (product_selector config)) = Some result /\
    success result = true /\
    let s0 := Scraper (heap s) (products s)
                (log s ++ [EvFetch (str_or custom_url (cfg_url config))])
                (S (world s)) in
    let s1 := snd (structured_parsing result config site_key search_query s0) in
    products s1 = products s /\
    forall pre selector post elements,
      alternative_selectors = pre ++ selector :: post ->
      Forall (fun sel => css_select sel (parse_html (html result)) = Some []) pre ->
      css_select selector (parse_html (html result)) = Some elements ->
      elements <> [] ->
      emitted (try_alternative_parsing result config site_key None) s1 =
        EvAlternative :: map EvSelect (pre ++ [selector])
          ++ map EvCandidate (seq 0 (length (take 10 elements))) /\
      length (take 10 elements) <= 10 /\
      length (products (snd (try_alternative_parsing result config site_key None s1)))
        <= length (products s1) + length (take 10 elements).
Proof.
  unfold emitted at 1.
  destruct (lookup_config site_key site_configs) as [config|] eqn:Hcfg.
  2:{ unfold scrape_site. rewrite Hcfg. unfold raise; cbn [snd]. rewrite drop_all.
      intros H. now apply elem_of_nil in H. }
  rewrite (scrape_site_run site_key config custom_url search_query s Hcfg).
  destruct (crawler_enter (world s)) as [e|].
  { cbn [snd log]. rewrite drop_all. intros H. now apply elem_of_nil in H. }
  rewrite (proj2 (proj2 (close_crawler_state _))).
  set (url := str_or custom_url (cfg_url config)).
  unfold fetch_and_parse. unfold bind at 1. unfold tick at 1.
  unfold bind at 1. unfold emit at 1. cbn [world heap products log].
  set (s0 := Scraper (heap s) (products s) (log s ++ [EvFetch url]) (S (world s))).
  destruct (arun (world s) url (Some (product_selector config))) as [result|] eqn:Harun.
  2:{ unfold raise, ret; cbn [snd]. intros H.
      apply (not_in_fetch s s0 url) in H; [discriminate | reflexivity]. }
  destruct (success result) eqn:Hsucc; cbn [negb].
  2:{ unfold ret; cbn [snd]. intros H.
      apply (not_in_fetch s s0 url) in H; [discriminate | reflexivity]. }
  destruct (structured_parsing_grows result config site_key search_query s0)
    as [n Hg].
  unfold bind at 1.
  destruct (structured_parsing result config site_key search_query s0)
    as [[[]|e] s1] eqn:Hsp; cbn [snd] in Hg.
  2:{ unfold ret; cbn [snd]. intros H.
      apply (not_in_fetch s s1 url) in H; [discriminate |].
      destruct Hg as (-> & _). reflexivity. }
  unfold bind at 1.
  destruct (no_products_of_site site_key s1) as [[[|]|e] s1'] eqn:Hgate.
  - intros _. exists config, result.
    split; [reflexivity|]. split; [exact Harun|]. split; [exact Hsucc|].
    cbv zeta. fold url. fold s0. rewrite Hsp. cbn [snd].
    assert (Hp : products s1 = products s).
    { apply (gate_open_nothing_added n site_key s0 s1 Hg). now rewrite Hgate. }
    split; [exact Hp|].
    intros pre selector post elements Hsplit Hpre Hsel Hne.
    destruct (try_alternative_parsing_run result config site_key None
                pre post selector elements s1 Hsplit Hpre Hsel Hne) as [He Hl].
    repeat split; [exact He | rewrite length_take; lia | exact Hl].
  - assert (s1' = s1) as ->.
    { unfold no_products_of_site, bind, get_products, products_of_site, ret in Hgate.
      now injection Hgate. }
    unfold ret; cbn [snd]. intros H.
    apply (not_in_fetch s s1 url) in H; [discriminate |].
    destruct Hg as (-> & _). reflexivity.
  - unfold no_products_of_site, bind, get_products, products_of_site, ret in Hgate.
    discriminate.
Qed.

(** *** The run and the last resort *)

Ltac not_emergency_event := unfold not_emergency; discriminate.

Lemma quiet_alternative_candidate site_key search_query ie :
  quiet not_emergency (alternative_candidate site_key search_query ie).
Proof. unfold alternative_candidate. quiet_steps. not_emergency_event. Qed.

#[local] Hint Resolve quiet_alternative_candidate : quiet.

Lemma quiet_alternative_loop soup site_key search_query selectors :
  quiet not_emergency (alternative_loop soup site_key search_query selectors).
Proof.
  induction selectors as [|x l IH]; cbn [alternative_loop]; quiet_steps;
    not_emergency_event.
Qed.

#[local] Hint Resolve quiet_alternative_loop : quiet.

Lemma quiet_try_alternative_parsing result config site_key search_query :
  quiet not_emergency (try_alternative_parsing result config site_key search_query).
Proof. unfold try_alternative_parsing. quiet_steps. not_emergency_event. Qed.

Lemma quiet_try_aggressive_parsing result config site_key search_query :
  quiet not_emergency (try_aggressive_parsing result config site_key search_query).
Proof. unfold try_aggressive_parsing. quiet_steps. not_emergency_event. Qed.

#[local] Hint Resolve quiet_try_alternative_parsing quiet_try_aggressive_parsing : quiet.

Lemma quiet_scrape_site site_key custom_url search_query :
  quiet not_emergency (scrape_site site_key custom_url search_query).
Proof. unfold scrape_site, fetch_and_parse. quiet_steps. not_emergency_event. Qed.

#[local] Hint Resolve quiet_scrape_site : quiet.

Lemma quiet_scrape_with_retries attempts site search_query :
  quiet not_emergency (scrape_with_retries attempts site search_query).
Proof.
  induction attempts as [|n IH]; cbn [scrape_with_retries]; quiet_steps.
Qed.

#[local] Hint Resolve quiet_scrape_with_retries : quiet.

Lemma quiet_scrape_all_sites : quiet not_emergency scrape_all_sites.
Proof. unfold scrape_all_sites. quiet_steps. Qed.

Lemma quiet_emergency_attempt url : quiet not_emergency (emergency_attempt url).
Proof. unfold emergency_attempt. quiet_steps. not_emergency_event. Qed.

#[local] Hint Resolve quiet_emergency_attempt : quiet.

Lemma quiet_emergency_loop urls : quiet not_emergency (emergency_loop urls).
Proof. induction urls as [|u l IH]; cbn [emergency_loop]; quiet_steps. Qed.

Lemma count_not_emergency (evs : list event) :
  Forall not_emergency evs -> count_occ event_eq_dec evs EvEmergency = 0.
Proof.
  intros H. apply count_occ_not_In. intros Hin.
  rewrite Forall_forall in H. apply list_elem_of_In in Hin. now apply (H _ Hin).
Qed.

Lemma emergency_product_site index title_text scraped_at :
  fields (emergency_product index title_text scraped_at) !! "site" = Some (py "emergency").
Proof.
  unfold emergency_product; cbn [fields].
  rewrite !lookup_insert_ne by discriminate. apply lookup_insert_eq.
Qed.

(** One attempt: either the fetch is not usable, and only the fetch has
    happened, or it is, and exactly one record of the site [emergency] has
    been built and accepted. *)
Lemma emergency_attempt_run (url : str) (s : scraper) :
  (usable (arun (world s) url None) = false /\
   emergency_attempt url s =
   (Ok false, Scraper (heap s) (products s) (log s ++ [EvFetch url]) (S (world s)))) \/
  (usable (arun (world s) url None) = true /\
   exists d,
     emergency_attempt url s =
     (Ok true, Scraper (heap s ++ [d]) (products s ++ [length (heap s)])
                       (log s ++ [EvFetch url]) (S (S (world s)))) /\
     fields d !! "site" = Some (py "emergency")).
Proof.
  unfold emergency_attempt, try_except, bind, tick, emit, raise, ret,
    get_products, new_dict, append_product, usable.
  cbv beta iota zeta. cbn [world heap products log].
  destruct (arun (world s) url None) as [result|]; [|left; split; reflexivity].
  destruct (success result && truthy (html result)); [|left; split; reflexivity].
  right. split; [reflexivity|]. eexists. split; [reflexivity|].
  apply emergency_product_site.
Qed.

(** The loop over the fallback pages from the first usable fetch on: the
    pages before it were fetched, it was fetched, one record was accepted,
    the pages after it were not fetched. *)
Lemma emergency_loop_run (pre post : list str) (url : str) (s : scraper) :
  (forall i u, pre !! i = Some u -> usable (arun (world s + i) u None) = false) ->
  usable (arun (world s + length pre) url None) = true ->
  exists d w,
    emergency_loop (pre ++ url :: post) s =
    (Ok tt, Scraper (heap s ++ [d]) (products s ++ [length (heap s)])
                    (log s ++ map EvFetch (pre ++ [url])) w) /\
    fields d !! "site" = Some (py "emergency").
Proof.
  revert s. induction pre as [|u pre IH]; intros s Hpre Hurl;
    cbn [app emergency_loop]; unfold bind at 1.
  - rewrite Nat.add_0_r in Hurl.
    destruct (emergency_attempt_run url s) as [[Hu _] | (_ & d & -> & Hd)];
      [congruence|].
    eexists _, _. split; [reflexivity | exact Hd].
  - destruct (emergency_attempt_run u s) as [[_ ->] | [Hu _]].
    2:{ pose proof (Hpre 0 u eq_refl) as H0. rewrite Nat.add_0_r in H0.
        congruence. }
    match goal with
    | |- context [emergency_loop _ ?s1] => destruct (IH s1) as (d & w & -> & Hd)
    end.
    + intros i v Hv. cbn [world].
      replace (S (world s) + i) with (world s + S i) by lia.
      now apply (Hpre (S i)).
    + cbn [world length] in *.
      replace (S (world s) + length pre) with (world s + S (length pre)) by lia.
      exact Hurl.
    + eexists _, _. split; [|exact Hd]. cbn [heap products log map app].
      now rewrite <- app_assoc.
Qed.

(** Whatever the fetches do, the loop accepts at most one record. *)
Lemma emergency_loop_bound (urls : list str) (s : scraper) :
  length (products (snd (emergency_loop urls s))) <= length (products s) + 1.
Proof.
  revert s. induction urls as [|u l IH]; intros s; cbn [emergency_loop].
  - cbn. lia.
  - unfold bind at 1.
    destruct (emergency_attempt_run u s) as [[_ ->] | (_ & d & -> & _)].
    + etransitivity; [apply IH|]. cbn [products]. lia.
    + cbn. rewrite length_app. cbn. lia.
Qed.

Lemma emergency_extraction_run (s : scraper) :
  emergency_extraction s =
  (Ok tt, snd (emergency_loop simple_urls
                 (Scraper (heap s) (products s) (log s ++ [EvEmergency]) (world s)))).
Proof.
  unfold emergency_extraction, bind, emit. cbv beta iota. apply try_ret_unit.
Qed.



(* ===================================================================== *)
(** ** Further properties *)
(* ===================================================================== *)

(** *** Splitting and joining *)

Lemma startswith_app (p r : str) : startswith (p ++ r) p = true.
Proof.
  induction p as [|c p IH]; simpl; [now destruct r|]. now rewrite N.eqb_refl.
Qed.

Lemma split_aux_skip (sep p r cur : str) :
  split_aux sep (length p) cur (p ++ r) = split_aux sep 0 cur r.
Proof. induction p as [|x p IH]; simpl; [reflexivity | exact IH]. Qed.

Lemma split_aux_run (c : N) (sep' a r cur : str) :
  Forall (fun x => x <> c) a ->
  split_aux (c :: sep') 0 cur (a ++ r) = split_aux (c :: sep') 0 (rev a ++ cur) r.
Proof.
  intros Ha. revert cur. induction Ha as [|x a Hx _ IH]; intros cur; [reflexivity|].
  cbn [app split_aux startswith].
  assert (E : (c =? x)%N = false) by (apply N.eqb_neq; congruence).
  rewrite E. cbn [andb]. rewrite IH. cbn [rev]. now rewrite <- app_assoc.
Qed.

Lemma split_aux_sep (c : N) (sep' r cur : str) :
  split_aux (c :: sep') 0 cur ((c :: sep') ++ r) =
  rev cur :: split_aux (c :: sep') 0 [] r.
Proof.
  cbn [app split_aux]. 
  change (c :: sep' ++ r) with ((c :: sep') ++ r). rewrite startswith_app.
  replace (length (c :: sep') - 1) with (length sep') by (simpl; lia).
  now rewrite split_aux_skip.
Qed.

Lemma split_aux_join (c : N) (sep' : str) (l : list str) (a cur : str) :
  Forall (Forall (fun x => x <> c)) (a :: l) ->
  split_aux (c :: sep') 0 cur (join (c :: sep') (a :: l)) = (rev cur ++ a) :: l.
Proof.
  revert a cur. induction l as [|b l IH]; intros a cur Hl.
  - cbn [join]. rewrite <- (app_nil_r a) at 1.
    rewrite split_aux_run by (now apply Forall_cons in Hl).
    cbn [split_aux]. now rewrite rev_app_distr, rev_involutive.
  - apply Forall_cons in Hl. destruct Hl as [Ha Hl].
    change (join (c :: sep') (a :: b :: l))
      with (a ++ (c :: sep') ++ join (c :: sep') (b :: l)).
    rewrite split_aux_run by exact Ha. rewrite split_aux_sep.
    rewrite IH by exact Hl. now rewrite rev_app_distr, rev_involutive.
Qed.

(** Joining with a separator and splitting at it gives the list back, when
    no element holds the first character of the separator. *)
Lemma split_join (c : N) (sep' : str) (l : list str) :
  l <> [] ->
  Forall (Forall (fun x => x <> c)) l ->
  split (join (c :: sep') l) (c :: sep') = l.
Proof.
  intros Hne Hl. destruct l as [|a l]; [congruence|].
  unfold split. now rewrite split_aux_join.
Qed.

Lemma split_aux_char_pieces (c : N) (cur s : str) :
  Forall (fun x => x <> c) cur ->
  Forall (Forall (fun x => x <> c)) (split_aux [c] 0 cur s).
Proof.
  revert cur. induction s as [|x s IH]; intros cur Hcur; cbn [split_aux].
  - constructor; [|constructor]. now apply Forall_rev.
  - cbn [startswith]. destruct (c =? x)%N eqn:E; cbn [andb].
    + destruct s; cbn [length Nat.sub].
      * constructor; [now apply Forall_rev | apply IH; constructor].
      * constructor; [now apply Forall_rev | apply IH; constructor].
    + apply IH. constructor; [|exact Hcur]. apply N.eqb_neq in E. congruence.
Qed.

Lemma Forall_dropWhile (P : N -> Prop) (p : N -> bool) (s : str) :
  Forall P s -> Forall P (dropWhile p s).
Proof.
  induction 1 as [|x s Hx Hs IH]; simpl; [constructor|].
  destruct (p x); [exact IH | now constructor].
Qed.

Lemma Forall_strip (P : N -> Prop) (s : str) : Forall P s -> Forall P (strip s).
Proof.
  intros H. unfold strip, rstrip, lstrip.
  apply Forall_rev, Forall_dropWhile, Forall_rev, Forall_dropWhile, H.
Qed.

(** *** The segmentation of tier 3 *)

(** The lines tier 3 keeps: stripped, longer than five characters, and
    without a line break. *)
Lemma substantial_lines_spec (text : str) :
  Forall (fun line => Forall (fun x => x <> 10%N) line /\ strip line = line /\
                      5 < length line)
         (substantial_lines text).
Proof.
  unfold substantial_lines. apply Forall_map. apply Forall_forall.
  intros piece Hin. apply list_elem_of_In, filter_In in Hin. destruct Hin as [Hin Hf].
  apply andb_true_iff in Hf. destruct Hf as [_ Hlen]. apply Nat.ltb_lt in Hlen.
  split; [|split; [apply strip_idem | exact Hlen]].
  apply Forall_strip.
  pose proof (split_aux_char_pieces 10%N [] text (List.Forall_nil _)) as Hp.
  rewrite Forall_forall in Hp. apply Hp. now apply list_elem_of_In.
Qed.

(** Joining lines and taking the non-blank lines of the result gives the
    lines back. *)
Lemma stripped_lines_join (lines : list str) :
  lines <> [] ->
  Forall (fun line => Forall (fun x => x <> 10%N) line /\ strip line = line /\
                      5 < length line) lines ->
  stripped_lines (join newline lines) = lines.
Proof.
  intros Hne Hl. unfold stripped_lines, newline.
  rewrite split_join; [|exact Hne|].
  2:{ eapply Forall_impl; [exact Hl|]. now intros line (H & _). }
  clear Hne. induction Hl as [|line lines (_ & Hs & Hlen) _ IH]; [reflexivity|].
  cbn [List.filter]. rewrite Hs.
  destruct line; [simpl in Hlen; lia|]. cbn [truthy map]. now rewrite Hs, IH.
Qed.

Lemma segmenting_step (P : str -> Prop) (st : list str * list str) (line : str) :
  segmenting P st -> P line -> segmenting P (chunk_step st line).
Proof.
  destruct st as [chunks cur]. unfold segmenting, chunk_step. cbn [fst snd].
  intros [Hch Hcur] Hline.
  assert (Hflush : Forall (chunk_with P)
            (if nonempty cur then chunks ++ [join newline cur] else chunks)).
  { destruct cur as [|l0 cur]; [exact Hch|]. cbn [nonempty].
    apply Forall_app. split; [exact Hch|]. constructor; [|constructor].
    destruct Hcur as [Hcur | [Hc HP]]; [discriminate|].
    exists (l0 :: cur). split; [reflexivity | split; assumption]. }
  destruct (is_anchor line) eqn:Ea; cbn [fst snd].
  - split; [exact Hflush|]. right. split.
    + split; [simpl; lia|]. now exists line, [].
    + now constructor.
  - destruct (nonempty cur && Nat.ltb (length cur) 5) eqn:E; cbn [fst snd].
    + split; [exact Hch|]. right.
      apply andb_true_iff in E. destruct E as [Hn Hlt]. apply Nat.ltb_lt in Hlt.
      destruct Hcur as [-> | [[Hlen (first & others & -> & Hfirst)] HP]];
        [discriminate|].
      split.
      * split; [rewrite length_app; simpl in *; lia|].
        now exists first, (others ++ [line]).
      * apply Forall_app. split; [exact HP | now constructor].
    + split; [exact Hflush | now left].
Qed.

Lemma segmenting_fold (P : str -> Prop) (lines : list str) (st : list str * list str) :
  segmenting P st -> Forall P lines -> segmenting P (fold_left chunk_step lines st).
Proof.
  intros Hst Hl. revert st Hst.
  induction Hl as [|line lines Hline _ IH]; intros st Hst; [exact Hst|].
  cbn [fold_left]. apply IH. now apply segmenting_step.
Qed.

(** X1: what tier 3 cuts the visible text into.  Every chunk that the
    segmentation loop of [try_aggressive_parsing] emits is one to five of
    the kept lines joined by line breaks, the first of them an anchor line
    (one with a price or a rating pattern); and the non-blank lines that
    [extract_from_text_chunk] recovers from the chunk are exactly these
    lines. *)
Theorem segmentation_chunks (text_content : str) :
  Forall (fun chunk =>
            exists lines,
              chunk = join newline lines /\
              chunk_of lines /\
              Forall (fun line => In line (substantial_lines text_content)) lines /\
              stripped_lines chunk = lines)
         (product_chunks_of text_content).
Proof.
  pose proof (segmenting_fold
                (fun line => In line (substantial_lines text_content))
                (substantial_lines text_content) ([], [])) as H.
  destruct H as [H _].
  - split; [constructor | now left].
  - apply Forall_forall. intros line Hin. now apply list_elem_of_In.
  - unfold product_chunks_of. eapply Forall_impl; [exact H|].
    intros chunk (lines & -> & Hc & Hl). exists lines.
    repeat split; try assumption; try apply Hc.
    apply stripped_lines_join.
    + destruct Hc as [_ (first & others & -> & _)]. discriminate.
    + pose proof (substantial_lines_spec text_content) as Hs.
      rewrite Forall_forall in Hs. eapply Forall_impl; [exact Hl|].
      intros line Hin. apply Hs. now apply list_elem_of_In.
Qed.

Lemma fold_chunk_step_no_anchor (post : list str) (chunks cur : list str) :
  Forall (fun line => is_anchor line = false) post ->
  cur <> [] ->
  length cur + length post <= 5 ->
  fold_left chunk_step post (chunks, cur) = (chunks, cur ++ post).
Proof.
  intros Hpost. revert cur.
  induction Hpost as [|line post Hline _ IH]; intros cur Hne Hlen.
  - now rewrite app_nil_r.
  - cbn [fold_left]. unfold chunk_step at 2. cbn [fst snd]. rewrite Hline.
    assert (E : nonempty cur && Nat.ltb (length cur) 5 = true).
    { apply andb_true_iff. split; [now destruct cur|].
      apply Nat.ltb_lt. simpl in Hlen. lia. }
    rewrite E. rewrite IH.
    + now rewrite <- app_assoc.
    + now destruct cur.
    + rewrite length_app. simpl in *. lia.
Qed.

Lemma fold_chunk_step_before_anchor (pre : list str) (chunks : list str) :
  Forall (fun line => is_anchor line = false) pre ->
  fold_left chunk_step pre (chunks, []) = (chunks, []).
Proof.
  induction 1 as [|line pre Hline _ IH]; [reflexivity|].
  cbn [fold_left]. unfold chunk_step at 2. cbn [fst snd nonempty andb].
  now rewrite Hline.
Qed.

(** X2: the chunk being collected when the lines run out is never emitted.
    When the kept lines of a text hold a single anchor line, followed by at
    most four further lines, the segmentation emits no chunk at all, and
    tier 3, run on that text, leaves the session as it is. *)
Theorem last_chunk_is_dropped (text_content : str) (pre post : list str) (anchor : str)
    (site_key : str) (search_query : option str) (s : scraper) :
  substantial_lines text_content = pre ++ anchor :: post ->
  Forall (fun line => is_anchor line = false) pre ->
  is_anchor anchor = true ->
  Forall (fun line => is_anchor line = false) post ->
  length post <= 4 ->
  product_chunks_of text_content = [] /\
  parse_text_content text_content site_key search_query s = (Ok tt, s).
Proof.
  intros Hlines Hpre Ha Hpost Hlen.
  assert (Hc : product_chunks_of text_content = []).
  { unfold product_chunks_of. rewrite Hlines, fold_left_app.
    rewrite fold_chunk_step_before_anchor by exact Hpre.
    cbn [fold_left]. unfold chunk_step at 2. cbn [fst snd nonempty]. rewrite Ha.
    rewrite fold_chunk_step_no_anchor; [reflexivity | exact Hpost | discriminate |].
    simpl. lia. }
  split; [exact Hc|]. unfold parse_text_content. now rewrite Hc.
Qed.

(** *** What validation guarantees of the records it lets through *)

Lemma existsb_false_Forall {A} (f : A -> bool) (l : list A) :
  existsb f l = false -> Forall (fun x => f x = false) l.
Proof.
  induction l as [|x l IH]; simpl; [constructor|].
  intros H. apply orb_false_iff in H. destruct H as [Hx Hl]. constructor; auto.
Qed.

Lemma name_checks_valid (name site_key : str) :
  strip name = name ->
  name_checks name site_key = true ->
  valid_name name site_key.
Proof.
  intros Hs H. unfold name_checks in H.
  destruct (negb (truthy name) || str_eqb name NA) eqn:E1; [discriminate|].
  destruct (existsb (fun pattern => contains pattern name) bad_name_patterns) eqn:E2;
    [discriminate|].
  destruct (Nat.ltb (length name) 5) eqn:E3; [discriminate|].
  destruct (isdigit name) eqn:E4; [discriminate|].
  destruct (startswith name [rupee]) eqn:E5; [discriminate|].
  apply orb_false_iff in E1. destruct E1 as [_ E1].
  unfold str_eqb in E1. apply bool_decide_eq_false in E1.
  apply Nat.ltb_ge in E3.
  repeat split; try assumption.
  - now apply existsb_false_Forall in E2.
  - intros ->. unfold str_eqb in H.
    rewrite (bool_decide_eq_true_2 (py "amazon" = py "amazon")) in H by reflexivity.
    destruct (Nat.ltb (length name) 10) eqn:E6; [discriminate|].
    now apply Nat.ltb_ge in E6.
Qed.

Lemma forallb_takeWhile (p : N -> bool) (s : str) : forallb p (takeWhile p s) = true.
Proof.
  induction s as [|c s IH]; simpl; [reflexivity|].
  destruct (p c) eqn:E; simpl; [now rewrite E | reflexivity].
Qed.

(** A cleaned price is the sentinel or the rupee sign and a run of digits
    and commas. *)
Lemma clean_price_shape (price : str) : is_clean_price (clean_price price) = true.
Proof.
  rewrite clean_price_eq.
  destruct (dropWhile (fun c => negb (is_digit_or_comma c)) price) as [|c t] eqn:E.
  - vm_compute. reflexivity.
  - pose proof (dropWhile_head_not is_digit_or_comma _ _ _ E) as Hc.
    unfold is_clean_price. apply orb_true_iff. right.
    rewrite N.eqb_refl. cbn [takeWhile]. rewrite Hc. cbn [nonempty andb forallb].
    now rewrite Hc, forallb_takeWhile.
Qed.

Lemma clean_reviews_shape (reviews : str) : is_clean_reviews (clean_reviews reviews) = true.
Proof.
  rewrite clean_reviews_eq.
  destruct (dropWhile (fun c => negb (isdecimal c)) reviews) as [|c t] eqn:E.
  - vm_compute. reflexivity.
  - pose proof (dropWhile_head_not isdecimal _ _ _ E) as Hc.
    unfold is_clean_reviews. apply orb_true_iff. right.
    cbn [takeWhile]. rewrite Hc. cbn [nonempty andb forallb].
    now rewrite Hc, forallb_takeWhile.
Qed.

Lemma clean_rating_shape (rating : str) : is_clean_rating (clean_rating rating) = true.
Proof.
  rewrite clean_rating_eq.
  destruct (dropWhile (fun c => negb (isdecimal c)) rating) as [|c t] eqn:E.
  - vm_compute. reflexivity.
  - pose proof (dropWhile_head_not isdecimal _ _ _ E) as Hc.
    unfold is_clean_rating. apply orb_true_iff. right.
    assert (Hne : nonempty (takeWhile isdecimal (c :: t)) = true)
      by (cbn [takeWhile]; now rewrite Hc).
    unfold number_prefix.
    destruct (dropWhile isdecimal (c :: t)) as [|d r2] eqn:Ed.
    + rewrite dropWhile_takeWhile. exact Hne.
    + destruct (46 =? d)%N eqn:E46.
      * apply N.eqb_eq in E46. subst d.
        rewrite dropWhile_app_stop, takeWhile_app_stop by exact dot_not_decimal.
        rewrite Hne. cbn [andb N.eqb Pos.eqb].
        apply forallb_takeWhile.
      * rewrite dropWhile_takeWhile. exact Hne.
Qed.

Lemma clean_dict_entry (shape : str -> bool) (f : str -> str) (k : string) (d : product) :
  (forall v, shape (f v) = true) ->
  fields (clean_dict d) !! k = (fun v => if truthy v then f v else v) <$> (fields d !! k) ->
  entry_is shape (clean_dict d) k.
Proof.
  intros Hshape Hk v. rewrite Hk.
  destruct (fields d !! k) as [[|c v0]|];
    cbn [fmap option_fmap option_map truthy]; try discriminate.
  - intros [= <-]. now left.
  - intros [= <-]. right. apply Hshape.
Qed.

Lemma clean_dict_shapes (d : product) :
  entry_is is_clean_price (clean_dict d) "current_price" /\
  entry_is is_clean_rating (clean_dict d) "rating" /\
  entry_is is_clean_reviews (clean_dict d) "reviews".
Proof.
  split; [|split].
  - apply (clean_dict_entry _ clean_price); [apply clean_price_shape|].
    unfold clean_dict; cbn [fields]. now rewrite clean_fields_lookup.
  - apply (clean_dict_entry _ clean_rating); [apply clean_rating_shape|].
    unfold clean_dict; cbn [fields]. now rewrite clean_fields_lookup.
  - apply (clean_dict_entry _ clean_reviews); [apply clean_reviews_shape|].
    unfold clean_dict; cbn [fields]. now rewrite clean_fields_lookup.
Qed.

Lemma clean_dict_name_stripped (d : product) (name : str) :
  fields (clean_dict d) !! "name" = Some name -> strip name = name.
Proof.
  unfold clean_dict; cbn [fields]. rewrite clean_fields_lookup.
  rewrite decide_True by reflexivity.
  destruct (fields d !! "name") as [[|c v]|];
    cbn [fmap option_fmap option_map truthy]; try discriminate.
  - now intros [= <-].
  - intros [= <-]. apply clean_name_stripped.
Qed.

Lemma cleaned_name (d : product) :
  fields (cleaned d) !! "name" =
  (fun v => if truthy v then clean_name v else v) <$> (fields d !! "name").
Proof.
  unfold cleaned. destruct (cleaning_returns d); unfold clean_dict; cbn [fields].
  - rewrite clean_fields_lookup. now rewrite decide_True by reflexivity.
  - rewrite clean_value_lookup. now rewrite decide_True by reflexivity.
Qed.

Lemma cleaned_name_stripped (d : product) (name : str) :
  fields (cleaned d) !! "name" = Some name -> strip name = name.
Proof.
  rewrite cleaned_name.
  destruct (fields d !! "name") as [[|c v]|];
    cbn [fmap option_fmap option_map truthy]; try discriminate.
  - now intros [= <-].
  - intros [= <-]. apply clean_name_stripped.
Qed.

(** The entries the cleaning never writes. *)
Lemma cleaned_other (d : product) (k : string) :
  k <> "name" -> k <> "current_price" -> k <> "rating" -> k <> "reviews" ->
  fields (cleaned d) !! k = fields d !! k.
Proof.
  intros H1 H2 H3 H4. unfold cleaned.
  destruct (cleaning_returns d); unfold clean_dict; cbn [fields].
  - rewrite clean_fields_lookup. repeat case_decide; congruence.
  - rewrite clean_value_lookup. now rewrite decide_False by congruence.
Qed.

(** X3: what [clean_product_data] leaves in the dict it is given.  The name
    has no surrounding whitespace; every entry other than the name, the
    current price, the rating and the reviews, the index, the offers, and
    the rest of the session are as they were.  When the current price is
    not empty, or neither the rating nor the reviews holds a text, the
    function returns the reference it was given, and these three entries
    are absent or empty (as they were) or have their cleaned shape: the
    sentinel, or the rupee sign and digits and commas; digits with at most
    one dot; digits.  Otherwise (an absent or empty current price beside a
    rating or reviews text) it raises [UnboundLocalError], its [import re]
    being in the branch of the price, and has rewritten the name only. *)
Theorem cleaning_postcondition (l : nat) (s : scraper) (d : product) :
  heap s !! l = Some d ->
  exists d',
    snd (clean_product_data l s) =
      Scraper (<[l := d']> (heap s)) (products s) (log s) (world s) /\
    (forall name, fields d' !! "name" = Some name -> strip name = name) /\
    (forall k, k <> "name" -> k <> "current_price" -> k <> "rating" -> k <> "reviews" ->
               fields d' !! k = fields d !! k) /\
    index d' = index d /\ offers d' = offers d /\
    if nonempty_entry d "current_price" ||
       negb (nonempty_entry d "rating" || nonempty_entry d "reviews")
    then
      fst (clean_product_data l s) = Ok l /\
      entry_is is_clean_price d' "current_price" /\
      entry_is is_clean_rating d' "rating" /\
      entry_is is_clean_reviews d' "reviews"
    else
      fst (clean_product_data l s) = Raise (UnboundLocalError "re") /\
      forall k, k <> "name" -> fields d' !! k = fields d !! k.
Proof.
  intros H. exists (cleaned d).
  rewrite (clean_product_data_run l s d H). cbn [fst snd].
  split; [reflexivity|]. split; [apply cleaned_name_stripped|].
  split; [apply cleaned_other|].
  split; [unfold cleaned; now destruct (cleaning_returns d)|].
  split; [unfold cleaned; now destruct (cleaning_returns d)|].
  fold (cleaning_returns d). unfold cleaned.
  destruct (cleaning_returns d).
  - split; [reflexivity|]. apply clean_dict_shapes.
  - split; [reflexivity|]. intros k Hk. cbn [fields].
    rewrite clean_value_lookup. now rewrite decide_False by congruence.
Qed.

(** *** How the session grows, with an invariant of the accepted records *)

Lemma extends_by_same (P : product -> Prop) (n : nat) (s s' : scraper) :
  heap s' = heap s -> products s' = products s -> extends_by P n s s'.
Proof.
  intros Hh Hp. split.
  - exists []. now rewrite app_nil_r.
  - exists []. rewrite app_nil_r. repeat split; [exact Hp | simpl; lia | constructor].
Qed.

Lemma extends_by_trans (P : product -> Prop) (n m : nat) (s1 s2 s3 : scraper) :
  extends_by P n s1 s2 -> extends_by P m s2 s3 -> extends_by P (n + m) s1 s3.
Proof.
  intros ((h1 & H1) & (n1 & P1 & B1 & F1)) ((h2 & H2) & (n2 & P2 & B2 & F2)).
  split.
  - exists (h1 ++ h2). now rewrite H2, H1, app_assoc.
  - exists (n1 ++ n2). repeat split.
    + now rewrite P2, P1, app_assoc.
    + rewrite length_app. lia.
    + apply Forall_app. split.
      * eapply Forall_impl; [exact F1|]. intros l (Hl & d & Hd & Hs).
        split; [exact Hl|]. exists d.
        split; [|exact Hs]. rewrite H2. now apply lookup_app_l_Some.
      * eapply Forall_impl; [exact F2|]. intros l (Hl & Hd).
        split; [|exact Hd]. rewrite H1, length_app in Hl. lia.
Qed.

Lemma extends_by_mono (P : product -> Prop) (n m : nat) (s s' : scraper) :
  n <= m -> extends_by P n s s' -> extends_by P m s s'.
Proof.
  intros Hnm (H & (new & Pn & B & F)). split; [exact H|].
  exists new. repeat split; [exact Pn | lia | exact F].
Qed.

Lemma extends_by_weaken (P P' : product -> Prop) (n : nat) (s s' : scraper) :
  (forall d, P d -> P' d) -> extends_by P n s s' -> extends_by P' n s s'.
Proof.
  intros Hw (H & (new & Pn & B & F)). split; [exact H|].
  exists new. repeat split; [exact Pn | exact B |].
  eapply Forall_impl; [exact F|]. intros l (Hl & d & Hd & Hs).
  split; [exact Hl|]. exists d. auto.
Qed.

Section Accepts.

Variable P : product -> Prop.

Lemma accepts_mono {A} (n m : nat) (c : M A) : n <= m -> accepts P n c -> accepts P m c.
Proof. intros Hnm Hc s. eapply extends_by_mono; [exact Hnm | apply Hc]. Qed.

Lemma accepts_ret {A} (a : A) : accepts P 0 (ret a).
Proof. intros s. now apply extends_by_same. Qed.

Lemma accepts_raise {A} (e : exn) : accepts P 0 (@raise A e).
Proof. intros s. now apply extends_by_same. Qed.

Lemma accepts_emit (e : event) : accepts P 0 (emit e).
Proof. intros s. now apply extends_by_same. Qed.

Lemma accepts_tick : accepts P 0 tick.
Proof. intros s. now apply extends_by_same. Qed.

Lemma accepts_get_products : accepts P 0 get_products.
Proof. intros s. now apply extends_by_same. Qed.

Lemma accepts_products_of_site (site_key : str) : accepts P 0 (products_of_site site_key).
Proof. intros s. now apply extends_by_same. Qed.

Lemma accepts_no_products_of_site (site_key : str) :
  accepts P 0 (no_products_of_site site_key).
Proof. intros s. now apply extends_by_same. Qed.

Lemma accepts_bind {A B} (n k : nat) (c : M A) (f : A -> M B) :
  accepts P n c -> (forall a, accepts P k (f a)) -> accepts P (n + k) (bind c f).
Proof.
  intros Hc Hf s. unfold bind. specialize (Hc s).
  destruct (c s) as [[a|e] s1]; cbn [snd] in *.
  - eapply extends_by_trans; [exact Hc | apply Hf].
  - eapply extends_by_mono; [|exact Hc]. lia.
Qed.

Lemma accepts_try_ret {A} (n : nat) (c : M A) (a : A) :
  accepts P n c -> accepts P n (try_except c (fun _ => ret a)).
Proof.
  intros Hc s. unfold try_except, ret. specialize (Hc s).
  now destruct (c s) as [[x|e] s1].
Qed.

Lemma accepts_for_each {A} (l : list A) (body : A -> M unit) :
  (forall x, accepts P 1 (body x)) -> accepts P (length l) (for_each l body).
Proof.
  intros Hb. induction l as [|x l IH]; cbn [for_each length].
  - apply accepts_ret.
  - change (S (length l)) with (1 + length l).
    apply accepts_bind; [apply Hb | intros _; exact IH].
Qed.

Lemma accepts_some_of {A} (n : nat) (c : M A) : accepts P n c -> accepts_some P c.
Proof. intros Hc s. exists n. apply Hc. Qed.

Lemma accepts_some_bind {A B} (c : M A) (f : A -> M B) :
  accepts_some P c -> (forall a, accepts_some P (f a)) -> accepts_some P (bind c f).
Proof.
  intros Hc Hf s. unfold bind. destruct (Hc s) as [n Hn].
  destruct (c s) as [[a|e] s1]; cbn [snd] in *.
  - destruct (Hf a s1) as [k Hk]. exists (n + k).
    eapply extends_by_trans; eauto.
  - now exists n.
Qed.

Lemma accepts_some_try {A} (c : M A) (h : exn -> M A) :
  accepts_some P c -> (forall e, accepts_some P (h e)) ->
  accepts_some P (try_except c h).
Proof.
  intros Hc Hh s. unfold try_except. destruct (Hc s) as [n Hn].
  destruct (c s) as [[a|e] s1]; cbn [snd] in *.
  - now exists n.
  - destruct (Hh e s1) as [k Hk]. exists (n + k).
    eapply extends_by_trans; eauto.
Qed.

Lemma accepts_some_for_each {A} (l : list A) (body : A -> M unit) :
  (forall x, accepts_some P (body x)) -> accepts_some P (for_each l body).
Proof.
  intros Hb. induction l as [|x l IH]; cbn [for_each].
  - apply (accepts_some_of 0), accepts_ret.
  - apply accepts_some_bind; [apply Hb | intros _; exact IH].
Qed.

(** An extractor followed by validation accepts at most one record, the
    one it has just built, cleaned. *)
Lemma dict_then_append (Q : product -> Prop) (site_key : str) (mk : M (option nat)) :
  builds_dict Q mk ->
  (forall d, Q d -> validation_outcome d site_key = Ok true -> P (clean_dict d)) ->
  accepts P 1 (pd <- mk ;; append_if_valid pd site_key).
Proof.
  intros Hmk HP s. unfold bind at 1.
  destruct (Hmk s) as [-> | (d & w & -> & HQ)].
  - now apply extends_by_same.
  - unfold append_if_valid, bind.
    erewrite validate_product_data_run
      by (cbn [heap]; apply list_lookup_middle; reflexivity).
    cbn [heap products log world].
    rewrite insert_app_r_alt by lia. rewrite Nat.sub_diag. cbn [insert list_insert].
    destruct (validation_outcome d site_key) as [[|]|e] eqn:Ev; cbn [snd].
    + unfold append_product; cbn [snd heap products log world].
      split; [now exists [cleaned d]|].
      exists [length (heap s)]. repeat split; [simpl; lia|].
      constructor; [|constructor]. split; [lia|].
      exists (clean_dict d). split.
      * cbn [heap]. replace (cleaned d) with (clean_dict d).
        -- apply list_lookup_middle. reflexivity.
        -- unfold cleaned. unfold validation_outcome in Ev.
           now destruct (cleaning_returns d).
      * now apply HP.
    + unfold ret; cbn [snd].
      split; [now exists [cleaned d]|].
      exists []. rewrite app_nil_r. repeat split; [simpl; lia | constructor].
    + split; [now exists [cleaned d]|].
      exists []. rewrite app_nil_r. repeat split; [simpl; lia | constructor].
Qed.

End Accepts.

(** *** The records of each tier *)

Lemma validated_accepted (d : product) (site_key : str) :
  fields d !! "site" = Some site_key ->
  validation_outcome d site_key = Ok true ->
  accepted_record site_key (clean_dict d).
Proof.
  intros Hsite Hv. unfold validation_outcome in Hv.
  destruct (cleaning_returns d) eqn:Hc; [|discriminate].
  destruct (fields (clean_dict d) !! "name") as [name|] eqn:En; [|discriminate].
  injection Hv as Hv.
  destruct (clean_dict_shapes d) as (Hp & Hr & Hw).
  split; [now rewrite clean_dict_site|].
  split; [|repeat split; try assumption; now apply cleaning_returns_again].
  exists name. split; [exact En|].
  apply name_checks_valid; [|exact Hv].
  now apply (clean_dict_name_stripped d).
Qed.

Lemma dropWhile_length (p : N -> bool) (s : str) : length (dropWhile p s) <= length s.
Proof.
  induction s as [|c s IH]; simpl; [lia|]. destruct (p c); simpl; lia.
Qed.

Lemma strip_length (s : str) : length (strip s) <= length s.
Proof.
  unfold strip, rstrip, lstrip. rewrite length_rev.
  etransitivity; [apply dropWhile_length|]. rewrite length_rev.
  apply dropWhile_length.
Qed.

Lemma prefix_loop_length (l : list str) (name : str) :
  length (fold_left (fun name prefix =>
                       if startswith name prefix
                       then strip (drop (length prefix) name) else name)
                    l name) <= length name.
Proof.
  revert name. induction l as [|p l IH]; intros name; cbn [fold_left]; [lia|].
  etransitivity; [apply IH|].
  destruct (startswith name p); [|lia].
  etransitivity; [apply strip_length|]. rewrite length_drop. lia.
Qed.

(** Cleaning never makes a name longer. *)
Lemma clean_name_length (name : str) : length (clean_name name) <= length name.
Proof.
  unfold clean_name. etransitivity; [apply prefix_loop_length | apply strip_length].
Qed.

Lemma clean_name_NA : clean_name NA = NA.
Proof. vm_compute. reflexivity. Qed.

(** An entry that holds the sentinel holds it after cleaning. *)
Lemma clean_dict_NA (d : product) (k : string) :
  fields d !! k = Some NA -> fields (clean_dict d) !! k = Some NA.
Proof.
  intros H. unfold clean_dict; cbn [fields]. rewrite clean_fields_lookup, H.
  change (truthy NA) with true.
  repeat case_decide; cbn [fmap option_fmap option_map]; f_equal;
    auto using clean_name_NA, clean_price_NA, clean_rating_NA, clean_reviews_NA.
Qed.

Lemma fallback_accepted (keys : list string) (site_key : str)
    (search_query : option str) (d : product) :
  fallback_dict keys site_key search_query d ->
  validation_outcome d site_key = Ok true ->
  fallback_record keys site_key search_query (clean_dict d).
Proof.
  intros (Hsite & [Hkeys Hoffers] & (name & Hname & Hlen) & Hq) Hv.
  split; [now apply validated_accepted|].
  split; [now rewrite clean_dict_site|]. split; [|split].
  - split; [|exact Hoffers].
    eapply Forall_impl; [exact Hkeys|]. intros k Hk. now apply clean_dict_NA.
  - unfold clean_dict; cbn [fields]. rewrite clean_fields_lookup.
    rewrite decide_True by reflexivity. rewrite Hname.
    cbn [fmap option_fmap option_map]. eexists. split; [reflexivity|].
    destruct (truthy name); [|exact Hlen].
    etransitivity; [apply clean_name_length | exact Hlen].
  - unfold clean_dict; cbn [fields]. rewrite clean_fields_lookup.
    repeat case_decide; try discriminate. exact Hq.
Qed.

(** The entries of a dict literal. *)
Ltac entry_of_dict :=
  unfold product_dict; cbn [fields];
  repeat (rewrite lookup_insert_ne by discriminate);
  apply lookup_insert_eq.

Lemma builds_basic_dict element index site_key search_query :
  builds_dict (fallback_dict tier2_unfilled site_key search_query)
    (extract_basic_product_data element index site_key search_query).
Proof.
  intros s. unfold extract_basic_product_data. cbv zeta.
  destruct (Nat.ltb (length (get_text_strip element)) 10); [now left|].
  right. eexists _, _. split; [reflexivity|].
  split; [entry_of_dict|]. split; [|split].
  - split; [|reflexivity]. repeat (constructor; [entry_of_dict|]). constructor.
  - eexists. split; [entry_of_dict|]. rewrite length_take. lia.
  - entry_of_dict.
Qed.

Lemma builds_chunk_dict text index site_key search_query :
  builds_dict (fallback_dict tier3_unfilled site_key search_query)
    (extract_from_text_chunk text index site_key search_query).
Proof.
  intros s. unfold extract_from_text_chunk.
  destruct (stripped_lines text); [now left|].
  right. cbv zeta. eexists _, _. split; [reflexivity|].
  split; [entry_of_dict|]. split; [|split].
  - split; [|reflexivity]. repeat (constructor; [entry_of_dict|]). constructor.
  - eexists. split; [entry_of_dict|]. rewrite length_take. lia.
  - entry_of_dict.
Qed.

Lemma accepts_alternative_candidate site_key search_query ie :
  accepts (fallback_record tier2_unfilled site_key search_query)
    1 (alternative_candidate site_key search_query ie).
Proof.
  unfold alternative_candidate.
  apply (accepts_bind _ 0 1); [apply accepts_emit | intros _].
  apply accepts_try_ret.
  eapply dict_then_append; [apply builds_basic_dict|].
  intros d. apply fallback_accepted.
Qed.

Lemma accepts_alternative_loop soup site_key search_query selectors :
  accepts (fallback_record tier2_unfilled site_key search_query)
    10 (alternative_loop soup site_key search_query selectors).
Proof.
  induction selectors as [|selector selectors IH]; cbn [alternative_loop].
  - eapply accepts_mono; [|apply accepts_ret]. lia.
  - apply (accepts_bind _ 0 10); [apply accepts_emit | intros _].
    destruct (css_select selector soup) as [[|element elements]|].
    + exact IH.
    + eapply accepts_mono; [|apply accepts_for_each].
      * unfold enumerate. rewrite enumerate_from_length, length_take. lia.
      * intros ie. apply accepts_alternative_candidate.
    + eapply accepts_mono; [|apply accepts_raise]. lia.
Qed.

Lemma accepts_try_alternative_parsing result config site_key search_query :
  accepts (fallback_record tier2_unfilled site_key search_query)
    10 (try_alternative_parsing result config site_key search_query).
Proof.
  unfold try_alternative_parsing.
  apply (accepts_bind _ 0 10); [apply accepts_emit | intros _].
  apply accepts_try_ret, accepts_alternative_loop.
Qed.

(** X4: what tier 2 can add to the session.  [try_alternative_parsing] never
    raises; it accepts at most ten records; each of them is a record of the
    site with a name that passed validation and has at most a hundred
    characters, with cleaned price and rating, with the search query the
    function was called with (the sentinel when it was called with none),
    and with the sentinel in its original price, reviews, discount, image,
    delivery and availability entries and no offers; and no object that
    existed before is changed. *)
Theorem alternative_parsing_records (result : crawl_result) (config : config)
    (site_key : str) (search_query : option str) (s : scraper) :
  fst (try_alternative_parsing result config site_key search_query s) = Ok tt /\
  extends_by (fallback_record tier2_unfilled site_key search_query)
    10 s (snd (try_alternative_parsing result config site_key search_query s)).
Proof.
  split.
  - unfold try_alternative_parsing, bind, emit. cbv beta iota.
    now rewrite try_ret_unit.
  - apply accepts_try_alternative_parsing.
Qed.

Lemma accepts_parse_text_content text site_key search_query :
  accepts (fallback_record tier3_unfilled site_key search_query)
    20 (parse_text_content text site_key search_query).
Proof.
  unfold parse_text_content.
  eapply accepts_mono; [|apply accepts_for_each].
  - unfold enumerate. rewrite enumerate_from_length, length_take. lia.
  - intros ic. destruct (Nat.ltb 20 (length (snd ic))).
    + eapply dict_then_append; [apply builds_chunk_dict|].
      intros d. apply fallback_accepted.
    + eapply accepts_mono; [|apply accepts_ret]. lia.
Qed.

Lemma accepts_try_aggressive_parsing result config site_key search_query :
  accepts (fallback_record tier3_unfilled site_key search_query)
    20 (try_aggressive_parsing result config site_key search_query).
Proof.
  unfold try_aggressive_parsing.
  apply (accepts_bind _ 0 20); [apply accepts_emit | intros _].
  cbv zeta. apply accepts_try_ret, accepts_parse_text_content.
Qed.

(** X5: what tier 3 can add to the session.  [try_aggressive_parsing] never
    raises; it accepts at most twenty records; each of them is a record of
    the site with a name that passed validation and has at most a hundred
    characters, with cleaned price, rating and reviews, with the search
    query the function was called with (the sentinel when it was called
    with none), and with the sentinel in its original price, discount,
    image, delivery and availability entries and no offers; and no object
    that existed before is changed. *)
Theorem aggressive_parsing_records (result : crawl_result) (config : config)
    (site_key : str) (search_query : option str) (s : scraper) :
  fst (try_aggressive_parsing result config site_key search_query s) = Ok tt /\
  extends_by (fallback_record tier3_unfilled site_key search_query)
    20 s (snd (try_aggressive_parsing result config site_key search_query s)).
Proof.
  split.
  - unfold try_aggressive_parsing, bind, emit. cbv beta iota zeta.
    now rewrite try_ret_unit.
  - apply accepts_try_aggressive_parsing.
Qed.

Lemma accepts_weaken {A} (P P' : product -> Prop) (n : nat) (c : M A) :
  (forall d, P d -> P' d) -> accepts P n c -> accepts P' n c.
Proof. intros Hw Hc s. eapply extends_by_weaken; [exact Hw | apply Hc]. Qed.

Lemma accepts_some_weaken {A} (P P' : product -> Prop) (c : M A) :
  (forall d, P d -> P' d) -> accepts_some P c -> accepts_some P' c.
Proof.
  intros Hw Hc s. destruct (Hc s) as [n Hn]. exists n.
  eapply extends_by_weaken; eauto.
Qed.

Lemma accepts_some_for_each_in {A} (P : product -> Prop) (l : list A)
    (body : A -> M unit) :
  (forall x, In x l -> accepts_some P (body x)) -> accepts_some P (for_each l body).
Proof.
  induction l as [|x l IH]; intros Hb; cbn [for_each].
  - apply (accepts_some_of _ 0), accepts_ret.
  - apply accepts_some_bind; [apply Hb; now left | intros _].
    apply IH. intros y Hy. apply Hb. now right.
Qed.

Lemma accepts_parse_candidates {A} (soup_of : A -> node) candidates config site_key
    search_query :
  accepts (accepted_record site_key) (length candidates)
          (parse_candidates soup_of candidates config site_key search_query).
Proof.
  unfold parse_candidates.
  replace (length candidates) with (length (enumerate candidates))
    by apply enumerate_from_length.
  apply accepts_for_each. intros ic. apply accepts_try_ret.
  eapply dict_then_append.
  - apply builds_extract_product_data_with_config.
  - intros d. apply validated_accepted.
Qed.

Lemma accepts_first_containers (P : product -> Prop) soup selectors :
  accepts P 0 (first_containers soup selectors).
Proof.
  intros s. rewrite first_containers_state. now apply extends_by_same.
Qed.

Lemma accepts_some_structured_parsing result config site_key search_query :
  accepts_some (accepted_record site_key)
               (structured_parsing result config site_key search_query).
Proof.
  unfold structured_parsing, parse_products_with_config,
    parse_products_from_html_with_config. cbv zeta.
  destruct (nonempty (extracted_content result)).
  - eapply accepts_some_of, accepts_parse_candidates.
  - apply accepts_some_bind.
    + destruct (css_select (product_selector config) (parse_html (html result)))
        as [[|c cs]|].
      * eapply accepts_some_of, accepts_first_containers.
      * eapply accepts_some_of, accepts_ret.
      * eapply accepts_some_of, accepts_raise.
    + intros containers. eapply accepts_some_of, accepts_parse_candidates.
Qed.

Lemma for_each_returns {A} (l : list A) (body : A -> M unit) :
  (forall x, never_raises (body x)) -> never_raises (for_each l body).
Proof.
  intros Hb. induction l as [|x l IH]; intros s; cbn [for_each].
  - now exists tt.
  - unfold bind. destruct (Hb x s) as [[] Hx].
    destruct (body x s) as [[[]|e] s1]; cbn [fst] in Hx; [apply IH | discriminate].
Qed.

Lemma try_ret_returns {A} (m : M A) (a : A) : never_raises (try_except m (fun _ => ret a)).
Proof.
  intros s. unfold try_except, ret. destruct (m s) as [[x|e] s1]; eauto.
Qed.

(** X6: what tier 1 can add to the session.  [parse_products_with_config]
    never raises (also a candidate on which validation raises is only
    dropped) and accepts at most one record per fragment it is given;
    [parse_products_from_html_with_config] accepts finitely many; every
    record either of them accepts is a dict created by the call, which
    carries the site, a name that passed validation, and cleaned price,
    rating and reviews, and which the cleaning has got through; and no
    object that existed before is changed. *)
Theorem structured_parsing_records (product_elements : list str) (html_content : str)
    (config : config) (site_key : str) (search_query : option str) (s : scraper) :
  fst (parse_products_with_config product_elements config site_key search_query s) = Ok tt /\
  extends_by (accepted_record site_key) (length product_elements) s
    (snd (parse_products_with_config product_elements config site_key search_query s)) /\
  exists n,
    extends_by (accepted_record site_key) n s
      (snd (parse_products_from_html_with_config html_content config site_key
              search_query s)).
Proof.
  split; [|split].
  - unfold parse_products_with_config, parse_candidates.
    match goal with
    | |- fst (for_each ?l ?body s) = _ =>
      destruct (for_each_returns l body (fun x => try_ret_returns _ tt) s) as [[] H]
    end.
    exact H.
  - apply accepts_parse_candidates.
  - pose proof (accepts_some_structured_parsing
                  (CrawlResult true html_content []) config site_key search_query s) as H.
    exact H.
Qed.

(** *** One site, and the run *)

Lemma fallback_is_accepted (keys : list string) (site_key : str)
    (search_query : option str) (d : product) :
  fallback_record keys site_key search_query d -> accepted_record site_key d.
Proof. now intros [H _]. Qed.

Lemma accepts_open_crawler (P : product -> Prop) : accepts P 0 open_crawler.
Proof. intros s. apply extends_by_same; apply open_crawler_state. Qed.

Lemma accepts_close_crawler (P : product -> Prop) : accepts P 0 close_crawler.
Proof. intros s. apply extends_by_same; apply close_crawler_state. Qed.

Lemma accepts_some_scrape_site site_key custom_url search_query :
  accepts_some (accepted_record site_key) (scrape_site site_key custom_url search_query).
Proof.
  unfold scrape_site.
  destruct (lookup_config site_key site_configs) as [config|];
    [|eapply accepts_some_of, accepts_raise].
  cbv zeta.
  apply accepts_some_bind; [eapply accepts_some_of, accepts_open_crawler | intros _].
  apply accepts_some_bind;
    [|intros _; eapply accepts_some_of, accepts_close_crawler].
  apply accepts_some_try; [|intros e; eapply accepts_some_of, accepts_ret].
  unfold fetch_and_parse.
  apply accepts_some_bind; [eapply accepts_some_of, accepts_tick | intros t].
  apply accepts_some_bind; [eapply accepts_some_of, accepts_emit | intros _].
  destruct (arun t (str_or custom_url (cfg_url config)) (Some (product_selector config)))
    as [result|]; [|eapply accepts_some_of, accepts_raise].
  destruct (negb (success result)); [eapply accepts_some_of, accepts_ret|].
  apply accepts_some_bind; [apply accepts_some_structured_parsing | intros _].
  apply accepts_some_bind;
    [eapply accepts_some_of, accepts_no_products_of_site | intros none].
  destruct none; [|eapply accepts_some_of, accepts_ret].
  apply accepts_some_bind.
  { eapply accepts_some_weaken; [apply fallback_is_accepted|].
    eapply accepts_some_of, accepts_try_alternative_parsing. }
  intros _.
  apply accepts_some_bind;
    [eapply accepts_some_of, accepts_no_products_of_site | intros none].
  destruct none; [|eapply accepts_some_of, accepts_ret].
  eapply accepts_some_weaken; [apply fallback_is_accepted|].
  eapply accepts_some_of, accepts_try_aggressive_parsing.
Qed.

(** X7: the exceptions that leave [scrape_site].  For a site key that is
    not configured it is the [ValueError], and nothing has been done.  For a
    configured site, nothing that the fetch or the parsers raise leaves the
    function, since they are inside its [try]; the crawler's context manager
    is not.  When the crawler does not open, its exception leaves the
    function before any fetch, with the session as it was.  When it opens,
    the block runs to its end and the function returns normally, unless
    closing the crawler raises: then that exception leaves the function,
    and what the call has fetched and accepted stays in the session. *)
Theorem scrape_site_error_behaviour (site_key : str) (custom_url search_query : option str)
    (s : scraper) :
  match lookup_config site_key site_configs with
  | None => scrape_site site_key custom_url search_query s = (Raise ValueError, s)
  | Some config =>
    let s1 := snd (fetch_and_parse config (str_or custom_url (cfg_url config)) site_key
                     search_query s) in
    match crawler_enter (world s) with
    | Some e =>
      scrape_site site_key custom_url search_query s =
        (Raise e, Scraper (heap s) (products s) (log s) (S (world s)))
    | None =>
      match crawler_exit (world s1) with
      | Some e =>
        scrape_site site_key custom_url search_query s =
          (Raise e, Scraper (heap s1) (products s1) (log s1) (S (world s1)))
      | None => scrape_site site_key custom_url search_query s = (Ok tt, s1)
      end
    end
  end.
Proof.
  destruct (lookup_config site_key site_configs) as [config|] eqn:Hcfg.
  2:{ unfold scrape_site. now rewrite Hcfg. }
  cbv zeta. rewrite (scrape_site_run site_key config custom_url search_query s Hcfg).
  destruct (crawler_enter (world s)) as [e|]; [reflexivity|].
  unfold close_crawler.
  now destruct (crawler_exit (world (snd (fetch_and_parse config
                  (str_or custom_url (cfg_url config)) site_key search_query s)))).
Qed.

(** X8: the invariant of the records of a site.  Whatever [scrape_site]
    appends to [self.products], through any of its three tiers, is a dict
    created during the call whose site is the site key, whose name passed
    validation (no surrounding whitespace, at least five characters, ten
    for [amazon], not the sentinel, not all digits, no leading rupee sign,
    none of the boilerplate patterns), whose price, rating and reviews
    entries are empty or cleaned, and which the cleaning has got through
    (with an empty price it holds no rating and no reviews text); the
    records and objects that were there before are as they were. *)
Theorem scrape_site_records (site_key : str) (custom_url search_query : option str)
    (s : scraper) :
  exists n,
    extends_by (accepted_record site_key) n s
      (snd (scrape_site site_key custom_url search_query s)).
Proof. apply accepts_some_scrape_site. Qed.

Lemma accepts_some_scrape_with_retries attempts site search_query :
  accepts_some (accepted_record site) (scrape_with_retries attempts site search_query).
Proof.
  induction attempts as [|k IH]; cbn [scrape_with_retries].
  - eapply accepts_some_of, accepts_ret.
  - apply accepts_some_bind.
    + apply accepts_some_try; [|intros e; eapply accepts_some_of, accepts_ret].
      apply accepts_some_bind; [apply accepts_some_scrape_site | intros _].
      apply accepts_some_bind;
        [eapply accepts_some_of, accepts_products_of_site | intros ps].
      eapply accepts_some_of, accepts_ret.
    + intros found. destruct found; [eapply accepts_some_of, accepts_ret | exact IH].
Qed.

(** One attempt of the emergency extractor, with the record it builds. *)
Lemma emergency_attempt_cases (url : str) (s : scraper) :
  emergency_attempt url s =
    (Ok false, Scraper (heap s) (products s) (log s ++ [EvFetch url]) (S (world s))) \/
  exists title_text,
    emergency_attempt url s =
    (Ok true,
     Scraper (heap s ++ [emergency_product (Z.of_nat (length (products s)) + 1) title_text
                           (isoformat_now (S (world s)))])
             (products s ++ [length (heap s)])
             (log s ++ [EvFetch url]) (S (S (world s)))).
Proof.
  unfold emergency_attempt, try_except, bind, tick, emit, raise, ret,
    get_products, new_dict, append_product.
  cbv beta iota zeta. cbn [world heap products log].
  destruct (arun (world s) url None) as [result|]; [|now left].
  destruct (success result && truthy (html result)); [|now left].
  right. eexists. reflexivity.
Qed.

Lemma accepts_emergency_attempt (url : str) :
  accepts (fun d => exists index title_text scraped_at,
                      d = emergency_product index title_text scraped_at)
          1 (emergency_attempt url).
Proof.
  intros s. destruct (emergency_attempt_cases url s) as [-> | (title & ->)]; cbn [snd].
  - now apply extends_by_same.
  - split; [eexists; reflexivity|]. eexists. split; [reflexivity|].
    split; [simpl; lia|]. constructor; [|constructor]. split; [lia|].
    eexists. split; [cbn [heap]; apply list_lookup_middle; reflexivity|].
    eexists _, _, _. reflexivity.
Qed.

Lemma accepts_some_emergency_extraction :
  accepts_some (fun d => exists index title_text scraped_at,
                           d = emergency_product index title_text scraped_at)
               emergency_extraction.
Proof.
  unfold emergency_extraction.
  apply accepts_some_bind; [eapply accepts_some_of, accepts_emit | intros _].
  apply accepts_some_try; [|intros e; eapply accepts_some_of, accepts_ret].
  induction simple_urls as [|url urls IH]; cbn [emergency_loop].
  - eapply accepts_some_of, accepts_ret.
  - apply accepts_some_bind; [eapply accepts_some_of, accepts_emergency_attempt|].
    intros created. destruct created; [eapply accepts_some_of, accepts_ret | exact IH].
Qed.

Lemma accepts_some_main : accepts_some main_record main.
Proof.
  unfold main. apply accepts_some_bind.
  - unfold scrape_all_sites. apply accepts_some_for_each_in. intros sq Hin.
    eapply accepts_some_weaken; [|apply accepts_some_scrape_with_retries].
    intros d Hd. left. exists (fst sq). split; [now apply in_map | exact Hd].
  - intros _. apply accepts_some_bind;
      [eapply accepts_some_of, accepts_get_products | intros all].
    destruct (Nat.eqb (length all) 0); [|eapply accepts_some_of, accepts_ret].
    eapply accepts_some_weaken; [|apply accepts_some_emergency_extraction].
    intros d Hd. now right.
Qed.

Lemma bind_returns {A B} (m : M A) (f : A -> M B) :
  never_raises m -> (forall a, never_raises (f a)) -> never_raises (bind m f).
Proof.
  intros Hm Hf s. unfold bind. destruct (Hm s) as [a Ha].
  destruct (m s) as [[a'|e] s1]; cbn [fst] in Ha; [apply Hf | discriminate].
Qed.

Lemma scrape_with_retries_returns attempts site search_query :
  never_raises (scrape_with_retries attempts site search_query).
Proof.
  induction attempts as [|k IH]; cbn [scrape_with_retries].
  - intros s. now exists tt.
  - apply bind_returns; [apply try_ret_returns|].
    intros found. destruct found; [|exact IH]. intros s. now exists tt.
Qed.

Lemma main_returns : never_raises main.
Proof.
  unfold main. apply bind_returns.
  - unfold scrape_all_sites. apply for_each_returns. intros sq.
    apply scrape_with_retries_returns.
  - intros _. apply bind_returns; [intros s; now eexists|].
    intros all. destruct (Nat.eqb (length all) 0); [|intros s; now exists tt].
    intros s. exists tt. now rewrite emergency_extraction_run.
Qed.

(** X9: the records of a run.  [main] never raises, and every record it
    adds to the session is an accepted record of one of the four sites of
    [sites_to_test] (with the invariant of such a record) or the record the
    emergency extractor builds; what was in the session before is as it
    was. *)
Theorem main_records (s : scraper) :
  fst (main s) = Ok tt /\
  exists n, extends_by main_record n s (snd (main s)).
Proof.
  split; [|apply accepts_some_main].
  destruct (main_returns s) as [[] H]. exact H.
Qed.

(** *** How often the crawler is called *)

Lemma fetches_app (a b : list event) : fetches (a ++ b) = fetches a + fetches b.
Proof. unfold fetches. now rewrite List.filter_app, length_app. Qed.

Lemma fetches_none (evs : list event) : Forall not_fetch evs -> fetches evs = 0.
Proof.
  unfold fetches, not_fetch. induction 1 as [|e evs He _ IH]; [reflexivity|].
  cbn [List.filter]. now rewrite He.
Qed.

Lemma fetches_of_quiet {A} (m : M A) : quiet not_fetch m -> fetches_at_most 0 m.
Proof.
  intros Hq s. destruct (Hq s) as (evs & Hl & Hf). exists evs.
  split; [exact Hl|]. now rewrite fetches_none.
Qed.

Lemma fetches_mono {A} (n k : nat) (m : M A) :
  n <= k -> fetches_at_most n m -> fetches_at_most k m.
Proof.
  intros Hnk Hm s. destruct (Hm s) as (evs & Hl & Hf). exists evs. split; [exact Hl | lia].
Qed.

Lemma fetches_bind {A B} (n k : nat) (m : M A) (f : A -> M B) :
  fetches_at_most n m -> (forall a, fetches_at_most k (f a)) ->
  fetches_at_most (n + k) (bind m f).
Proof.
  intros Hm Hf s. unfold bind. destruct (Hm s) as (e1 & L1 & F1).
  destruct (m s) as [[a|e] s1]; cbn [snd] in *.
  - destruct (Hf a s1) as (e2 & L2 & F2). exists (e1 ++ e2). split.
    + now rewrite L2, L1, app_assoc.
    + rewrite fetches_app. lia.
  - exists e1. split; [exact L1 | lia].
Qed.

Lemma fetches_try_ret {A} (n : nat) (m : M A) (a : A) :
  fetches_at_most n m -> fetches_at_most n (try_except m (fun _ => ret a)).
Proof.
  intros Hm s. unfold try_except, ret. specialize (Hm s).
  now destruct (m s) as [[x|e] s1].
Qed.

Lemma fetches_for_each {A} (n : nat) (l : list A) (body : A -> M unit) :
  (forall x, fetches_at_most n (body x)) ->
  fetches_at_most (length l * n) (for_each l body).
Proof.
  intros Hb. induction l as [|x l IH]; cbn [for_each length Nat.mul].
  - apply fetches_of_quiet, quiet_ret.
  - apply fetches_bind; [apply Hb | intros _; exact IH].
Qed.

Lemma fetches_emit_fetch (url : str) : fetches_at_most 1 (emit (EvFetch url)).
Proof. intros s. exists [EvFetch url]. split; [reflexivity | cbn; lia]. Qed.

Ltac not_fetch_event := unfold not_fetch; reflexivity.

Lemma tiers_do_not_fetch result config site_key search_query :
  quiet not_fetch
    (structured_parsing result config site_key search_query ;;;
     none <- no_products_of_site site_key ;;
     if (none : bool) then
       try_alternative_parsing result config site_key None ;;;
       none <- no_products_of_site site_key ;;
       if (none : bool) then try_aggressive_parsing result config site_key search_query
       else ret tt
     else ret tt).
Proof.
  assert (Hcand : forall q ie, quiet not_fetch (alternative_candidate site_key q ie)).
  { intros q ie. unfold alternative_candidate. quiet_steps. not_fetch_event. }
  assert (Hloop : forall soup q selectors,
             quiet not_fetch (alternative_loop soup site_key q selectors)).
  { intros soup q selectors.
    induction selectors as [|x l IH]; cbn [alternative_loop]; quiet_steps;
      try not_fetch_event; apply Hcand. }
  unfold try_alternative_parsing, try_aggressive_parsing.
  quiet_steps; try not_fetch_event; apply Hloop.
Qed.

Lemma fetches_scrape_site site_key custom_url search_query :
  fetches_at_most 1 (scrape_site site_key custom_url search_query).
Proof.
  unfold scrape_site.
  destruct (lookup_config site_key site_configs) as [config|].
  2:{ eapply fetches_mono; [|apply fetches_of_quiet, quiet_raise]. lia. }
  cbv zeta.
  apply (fetches_bind 0 1); [apply fetches_of_quiet, quiet_open_crawler | intros _].
  apply (fetches_bind 1 0);
    [|intros _; apply fetches_of_quiet, quiet_close_crawler].
  apply fetches_try_ret. unfold fetch_and_parse.
  apply (fetches_bind 0 1); [apply fetches_of_quiet, quiet_tick | intros t].
  apply (fetches_bind 1 0); [apply fetches_emit_fetch | intros _].
  apply fetches_of_quiet.
  destruct (arun t (str_or custom_url (cfg_url config)) (Some (product_selector config)))
    as [result|]; [|apply quiet_raise].
  destruct (negb (success result)); [apply quiet_ret|].
  apply tiers_do_not_fetch.
Qed.

Lemma fetches_scrape_with_retries attempts site search_query :
  fetches_at_most attempts (scrape_with_retries attempts site search_query).
Proof.
  induction attempts as [|k IH]; cbn [scrape_with_retries].
  - apply fetches_of_quiet, quiet_ret.
  - change (S k) with (1 + k). apply fetches_bind.
    + apply fetches_try_ret.
      replace 1 with (1 + (0 + 0)) by lia.
      apply fetches_bind; [apply fetches_scrape_site | intros _].
      apply fetches_bind; [apply fetches_of_quiet, quiet_products_of_site | intros ps].
      apply fetches_of_quiet, quiet_ret.
    + intros found. destruct found; [|exact IH].
      eapply fetches_mono; [|apply fetches_of_quiet, quiet_ret]. lia.
Qed.

Lemma fetches_emergency_loop urls : fetches_at_most (length urls) (emergency_loop urls).
Proof.
  induction urls as [|url urls IH]; cbn [emergency_loop length].
  - apply fetches_of_quiet, quiet_ret.
  - change (S (length urls)) with (1 + length urls). apply fetches_bind.
    + intros s. exists [EvFetch url]. split; [|cbn; lia].
      destruct (emergency_attempt_cases url s) as [-> | (title & ->)]; reflexivity.
    + intros created. destruct created; [|exact IH].
      eapply fetches_mono; [|apply fetches_of_quiet, quiet_ret]. lia.
Qed.

Lemma fetches_main : fetches_at_most 14 main.
Proof.
  unfold main. apply (fetches_bind 12 2).
  - unfold scrape_all_sites.
    apply (fetches_for_each 3 sites_to_test). intros sq.
    apply fetches_scrape_with_retries.
  - intros _. apply (fetches_bind 0 2);
      [apply fetches_of_quiet, quiet_get_products | intros all].
    destruct (Nat.eqb (length all) 0).
    + unfold emergency_extraction.
      apply (fetches_bind 0 2).
      * intros s. exists [EvEmergency]. split; [reflexivity | cbn; lia].
      * intros _. apply fetches_try_ret. apply (fetches_emergency_loop simple_urls).
    + eapply fetches_mono; [|apply fetches_of_quiet, quiet_ret]. lia.
Qed.

Lemma fetches_emitted {A} (n : nat) (m : M A) (s : scraper) :
  fetches_at_most n m -> fetches (emitted m s) <= n.
Proof.
  intros Hm. destruct (Hm s) as (evs & Hl & Hf).
  now rewrite (emitted_app m s evs Hl).
Qed.

(** X10: the ceiling on fetches.  A call of [scrape_site] calls the crawler
    at most once; the retry loop of [main] with [attempts] attempts calls
    it at most [attempts] times for its site; and a whole run of [main]
    calls it at most fourteen times: three for each of the four sites and
    two in the emergency extractor. *)
Theorem fetch_ceiling (attempts : nat) (site_key search_query : str)
    (custom_url query : option str) (s : scraper) :
  fetches (emitted (scrape_site site_key custom_url query) s) <= 1 /\
  fetches (emitted (scrape_with_retries attempts site_key search_query) s) <= attempts /\
  fetches (emitted main s) <= 14.
Proof.
  split; [|split]; apply fetches_emitted.
  - apply fetches_scrape_site.
  - apply fetches_scrape_with_retries.
  - apply fetches_main.
Qed.

(** *** A run in which no page loads *)

(** The [try] block when the page does not load: the fetch, and nothing
    else. *)
Lemma fetch_and_parse_not_loaded (site_key : str) (config : config) (url : str)
    (search_query : option str) (s : scraper) :
  loaded (arun (world s) url (Some (product_selector config))) = false ->
  snd (fetch_and_parse config url site_key search_query s) =
  Scraper (heap s) (products s) (log s ++ [EvFetch url]) (S (world s)).
Proof.
  intros Hload. unfold fetch_and_parse.
  unfold bind at 1, tick at 1, bind at 1, emit at 1.
  cbn [world heap products log].
  destruct (arun (world s) url (Some (product_selector config))) as [result|];
    [|reflexivity].
  cbn [loaded] in Hload. now rewrite Hload.
Qed.

Lemma scrape_site_not_loaded (site_key : str) (config : config)
    (custom_url search_query : option str) (s : scraper) :
  lookup_config site_key site_configs = Some config ->
  crawler_enter (world s) = None ->
  crawler_exit (S (world s)) = None ->
  loaded (arun (world s) (str_or custom_url (cfg_url config))
               (Some (product_selector config))) = false ->
  scrape_site site_key custom_url search_query s =
  (Ok tt, Scraper (heap s) (products s)
                  (log s ++ [EvFetch (str_or custom_url (cfg_url config))])
                  (S (world s))).
Proof.
  intros Hcfg Hin Hout Hload.
  rewrite (scrape_site_run site_key config custom_url search_query s Hcfg), Hin.
  rewrite fetch_and_parse_not_loaded by exact Hload.
  unfold close_crawler. cbn [world]. now rewrite Hout.
Qed.

(** The same whatever the crawler's context manager does: at most the
    fetch has happened, and the call may have raised. *)
Lemma scrape_site_not_loaded_any (site_key : str) (config : config)
    (custom_url search_query : option str) (s : scraper) :
  lookup_config site_key site_configs = Some config ->
  loaded (arun (world s) (str_or custom_url (cfg_url config))
               (Some (product_selector config))) = false ->
  exists evs w,
    snd (scrape_site site_key custom_url search_query s) =
      Scraper (heap s) (products s) (log s ++ evs) w /\
    evs `sublist_of` [EvFetch (str_or custom_url (cfg_url config))].
Proof.
  intros Hcfg Hload.
  rewrite (scrape_site_run site_key config custom_url search_query s Hcfg).
  destruct (crawler_enter (world s)) as [e|].
  - exists [], (S (world s)). cbn [snd]. rewrite app_nil_r.
    split; [reflexivity | apply sublist_nil_l].
  - rewrite fetch_and_parse_not_loaded by exact Hload.
    unfold close_crawler. cbn [world heap products log].
    destruct (crawler_exit (S (world s))); eexists _, _; (split; [reflexivity|]);
      reflexivity.
Qed.

Lemma scrape_with_retries_not_loaded (attempts : nat) (site_key search_query : str)
    (config : config) (s : scraper) :
  lookup_config site_key site_configs = Some config ->
  (forall t, crawler_enter t = None) ->
  (forall t, crawler_exit t = None) ->
  (forall t url sel, loaded (arun t url sel) = false) ->
  products s = [] ->
  scrape_with_retries attempts site_key search_query s =
  (Ok tt, Scraper (heap s) [] (log s ++ replicate attempts (EvFetch (cfg_url config)))
                  (world s + attempts)).
Proof.
  intros Hcfg Hin Hout Hload. revert s.
  induction attempts as [|k IH]; intros s Hp; cbn [scrape_with_retries].
  - unfold ret. cbn [replicate]. rewrite app_nil_r, Nat.add_0_r, <- Hp.
    now rewrite scraper_eta.
  - unfold bind at 1, try_except, bind at 1.
    rewrite (scrape_site_not_loaded site_key config None) by (auto using Hload).
    unfold bind, products_of_site, ret. cbn [products heap]. rewrite Hp.
    cbn [List.filter nonempty str_or].
    rewrite IH by reflexivity. cbn [heap products log world replicate].
    f_equal. f_equal; [now rewrite <- app_assoc | lia].
Qed.

Lemma scrape_with_retries_not_loaded_any (attempts : nat) (site_key search_query : str)
    (config : config) (s : scraper) :
  lookup_config site_key site_configs = Some config ->
  (forall t url sel, loaded (arun t url sel) = false) ->
  products s = [] ->
  exists evs w,
    scrape_with_retries attempts site_key search_query s =
      (Ok tt, Scraper (heap s) [] (log s ++ evs) w) /\
    evs `sublist_of` replicate attempts (EvFetch (cfg_url config)).
Proof.
  intros Hcfg Hload. revert s.
  induction attempts as [|k IH]; intros s Hp; cbn [scrape_with_retries].
  - exists [], (world s). unfold ret. rewrite app_nil_r, <- Hp, scraper_eta.
    split; [reflexivity | apply sublist_nil_l].
  - destruct (scrape_site_not_loaded_any site_key config None (Some search_query) s
                Hcfg (Hload _ _ _)) as (e1 & w1 & Hs1 & Hsub1).
    cbn [str_or] in Hsub1.
    set (s1 := Scraper (heap s) (products s) (log s ++ e1) w1) in *.
    assert (Hfound :
              try_except
                (scrape_site site_key None (Some search_query) ;;;
                 site_products <- products_of_site site_key ;;
                 ret (nonempty site_products))
                (fun _ => ret false) s = (Ok false, s1)).
    { unfold try_except, bind at 1.
      destruct (scrape_site site_key None (Some search_query) s) as [[[]|e] s1'];
        cbn [snd] in Hs1; subst s1'; [|reflexivity].
      unfold bind, products_of_site, ret. unfold s1 at 1 2. cbn [products heap].
      now rewrite Hp. }
    unfold bind at 1. rewrite Hfound.
    destruct (IH s1 Hp) as (e2 & w2 & -> & Hsub2).
    exists (e1 ++ e2), w2. unfold s1. cbn [heap log]. rewrite <- app_assoc.
    split; [reflexivity|].
    change (replicate (S k) (EvFetch (cfg_url config)))
      with ([EvFetch (cfg_url config)] ++ replicate k (EvFetch (cfg_url config))).
    now apply sublist_app.
Qed.

Lemma not_loaded_unusable (r : option crawl_result) : loaded r = false -> usable r = false.
Proof. destruct r as [result|]; cbn; [|reflexivity]. now intros ->. Qed.

(** The loop over the fallback pages when none of them is usable: every
    page is fetched and nothing else happens. *)
Lemma emergency_loop_unusable (urls : list str) (s : scraper) :
  (forall i u, urls !! i = Some u -> usable (arun (world s + i) u None) = false) ->
  emergency_loop urls s =
  (Ok tt, Scraper (heap s) (products s) (log s ++ map EvFetch urls)
                  (world s + length urls)).
Proof.
  revert s. induction urls as [|u urls IH]; intros s Hu; cbn [emergency_loop].
  - unfold ret. cbn [map length]. now rewrite app_nil_r, Nat.add_0_r, scraper_eta.
  - unfold bind at 1.
    destruct (emergency_attempt_run u s) as [[_ ->] | [Hus _]].
    2:{ pose proof (Hu 0 u eq_refl) as H0. rewrite Nat.add_0_r in H0. congruence. }
    rewrite IH.
    + cbn [heap products log world map length]. f_equal.
      f_equal; [now rewrite <- app_assoc | lia].
    + intros i v Hv. cbn [world].
      replace (S (world s) + i) with (world s + S i) by lia. now apply (Hu (S i)).
Qed.

Lemma emergency_extraction_unusable (s : scraper) :
  (forall i u, simple_urls !! i = Some u -> usable (arun (world s + i) u None) = false) ->
  emergency_extraction s =
  (Ok tt, Scraper (heap s) (products s)
                  (log s ++ EvEmergency :: map EvFetch simple_urls) (world s + 2)).
Proof.
  intros Hu. rewrite emergency_extraction_run.
  rewrite emergency_loop_unusable by exact Hu.
  cbn [snd heap products log world]. now rewrite <- app_assoc.
Qed.



(** *** The site profiles of validation *)

Lemma name_checks_other_site (name site_key : str) :
  site_key <> py "amazon" ->
  name_checks name site_key = name_checks name [].
Proof.
  intros Hs. unfold name_checks.
  destruct (negb (truthy name) || str_eqb name NA); [reflexivity|].
  destruct (existsb (fun pattern => contains pattern name) bad_name_patterns);
    [reflexivity|].
  destruct (Nat.ltb (length name) 5) eqn:E3; [reflexivity|].
  destruct (isdigit name); [reflexivity|].
  destruct (startswith name [rupee]); [reflexivity|].
  apply Nat.ltb_ge in E3.
  assert (E2 : Nat.ltb (length name) 2 = false) by (apply Nat.ltb_ge; lia).
  assert (E3' : Nat.ltb (length name) 3 = false) by (apply Nat.ltb_ge; lia).
  rewrite E2, E3'. unfold str_eqb.
  rewrite (bool_decide_eq_false_2 (site_key = py "amazon")) by exact Hs.
  change (bool_decide ([] = py "amazon")) with false.
  change (bool_decide ([] = py "flipkart")) with false.
  change (bool_decide ([] = py "sathya")) with false.
  change (bool_decide ([] = py "meesho")) with false.
  cbv iota.
  repeat match goal with
         | |- context [bool_decide ?p] => destruct (bool_decide p)
         end; reflexivity.
Qed.

(** X13: the site profiles of validation.  For every site key other than
    [amazon] the verdict on a name is the same: the minimum lengths written
    for [flipkart] (5), [sathya] (2) and [meesho] (3) and the second
    rupee-sign test of [sathya] never change it.  Under [amazon] the verdict
    is that same verdict together with the floor of ten characters. *)
Theorem site_profiles (name site_key other_site : str) :
  site_key <> py "amazon" ->
  (other_site <> py "amazon" ->
   name_checks name other_site = name_checks name site_key) /\
  name_checks name (py "amazon") =
    name_checks name site_key && negb (Nat.ltb (length name) 10).
Proof.
  intros Hs. split.
  - intros Ho. now rewrite (name_checks_other_site name other_site),
      (name_checks_other_site name site_key).
  - rewrite (name_checks_other_site name site_key) by exact Hs.
    unfold name_checks.
    destruct (negb (truthy name) || str_eqb name NA); [reflexivity|].
    destruct (existsb (fun pattern => contains pattern name) bad_name_patterns);
      [reflexivity|].
    destruct (Nat.ltb (length name) 5) eqn:E3; [reflexivity|].
    destruct (isdigit name); [reflexivity|].
    destruct (startswith name [rupee]); [reflexivity|].
    unfold str_eqb.
    rewrite (bool_decide_eq_true_2 (py "amazon" = py "amazon")) by reflexivity.
    change (bool_decide ([] = py "amazon")) with false.
    change (bool_decide ([] = py "flipkart")) with false.
    change (bool_decide ([] = py "sathya")) with false.
    change (bool_decide ([] = py "meesho")) with false.
    cbv iota. now destruct (Nat.ltb (length name) 10).
Qed.

(** *** The offers *)

Lemma fold_left_invariant {A B} (I : A -> Prop) (f : A -> B -> A) (l : list B) (a : A) :
  I a -> (forall a b, I a -> I (f a b)) -> I (fold_left f l a).
Proof.
  intros Ha Hf. revert a Ha. induction l as [|b l IH]; intros a Ha; cbn [fold_left]; auto.
Qed.

Lemma truthy_nonempty (s : str) : truthy s = true -> s <> [].
Proof. now destruct s. Qed.

Lemma offers_step_nonempty (soup : node) (offers : list str) (selector : str) :
  Forall (fun o => o <> []) offers ->
  Forall (fun o => o <> []) (offers_step soup offers selector).
Proof.
  intros H. unfold offers_step.
  destruct (contains (py ":contains(") selector).
  - destruct (text_to_find selector) as [t|]; [|exact H].
    destruct (re_compile_i t) as [r|]; [|exact H].
    apply fold_left_invariant; [exact H|]. intros acc element Hacc.
    destruct (truthy (strip (fst element))) eqn:E; [|exact Hacc].
    apply Forall_app. split; [exact Hacc|].
    constructor; [now apply truthy_nonempty | constructor].
  - destruct (css_select selector soup) as [elements|]; [|exact H].
    apply fold_left_invariant; [exact H|]. intros acc element Hacc. cbv zeta.
    destruct (truthy (get_text_strip element)) eqn:E; [|exact Hacc].
    destruct (negb (bool_decide (get_text_strip element ∈ acc))); [|exact Hacc].
    apply Forall_app. split; [exact Hacc|].
    constructor; [now apply truthy_nonempty | constructor].
Qed.

Lemma offers_step_NoDup (soup : node) (offers : list str) (selector : str) :
  contains (py ":contains(") selector = false ->
  NoDup offers -> NoDup (offers_step soup offers selector).
Proof.
  intros Hc H. unfold offers_step. rewrite Hc.
  destruct (css_select selector soup) as [elements|]; [|exact H].
  apply fold_left_invariant; [exact H|]. intros acc element Hacc. cbv zeta.
  destruct (truthy (get_text_strip element)); [|exact Hacc]. cbn [andb].
  case_bool_decide as Hin; cbn [negb]; [exact Hacc|].
  apply NoDup_app. split; [exact Hacc|]. split; [|apply NoDup_singleton].
  intros x Hx Hx'. apply list_elem_of_singleton in Hx'. now subst.
Qed.

Lemma extract_offers_traced_invariant (I : list str -> Prop) (soup : node)
    (selectors : list str) (acc : list str) :
  I acc ->
  Forall (fun selector => forall offers, I offers -> I (offers_step soup offers selector))
         selectors ->
  I (fst (extract_offers_traced soup selectors acc)).
Proof.
  intros Hacc Hs. revert acc Hacc.
  induction Hs as [|selector selectors Hsel _ IH]; intros acc Hacc;
    cbn [extract_offers_traced fst]; auto.
Qed.

(** X14: the offers of a record.  The list [extract_offers_with_config]
    returns never holds an empty text; and when none of the selectors is a
    text-containment selector it holds no text twice. *)
Theorem offers_invariant (soup : node) (selectors : list str) :
  Forall (fun offer => offer <> []) (extract_offers_with_config soup selectors) /\
  (Forall (fun selector => contains (py ":contains(") selector = false) selectors ->
   NoDup (extract_offers_with_config soup selectors)).
Proof.
  unfold extract_offers_with_config. split.
  - apply (extract_offers_traced_invariant (Forall (fun o => o <> []))); [constructor|].
    apply Forall_forall. intros selector _ offers. apply offers_step_nonempty.
  - intros Hs. apply (extract_offers_traced_invariant NoDup); [constructor|].
    eapply Forall_impl; [exact Hs|]. intros selector Hc offers.
    now apply offers_step_NoDup.
Qed.

(** *** The image helper *)

Lemma split_aux_head_prefix (sep cur s : str) :
  exists r, rev cur ++ s = List.hd [] (split_aux sep 0 cur s) ++ r.
Proof.
  revert cur. induction s as [|c s IH]; intros cur; cbn [split_aux].
  - exists []. reflexivity.
  - destruct (startswith (c :: s) sep).
    + exists (c :: s). reflexivity.
    + destruct (IH (c :: cur)) as [r Hr]. exists r. rewrite <- Hr.
      cbn [rev]. now rewrite <- app_assoc.
Qed.

(** [s.split(sep)[0]] is a prefix of [s]. *)
Lemma split_head_prefix (s sep : str) : exists r, s = List.hd [] (split s sep) ++ r.
Proof. apply (split_aux_head_prefix sep [] s). Qed.

Lemma startswith_char (s : str) (c : N) :
  startswith s [c] = match s with d :: _ => (c =? d)%N | [] => false end.
Proof.
  destruct s as [|d s]; [reflexivity|]. cbn [startswith].
  destruct s; apply andb_true_r.
Qed.

Lemma startswith_slash_prefix (a r : str) :
  startswith (a ++ r) (py "/") = false -> startswith a (py "/") = false.
Proof.
  change (py "/") with [47%N]. rewrite !startswith_char.
  destruct a as [|c a]; [reflexivity | exact (fun H => H)].
Qed.

Lemma startswith_slash_app (p u : str) :
  p <> [] -> startswith p (py "/") = false -> startswith (p ++ u) (py "/") = false.
Proof.
  change (py "/") with [47%N]. rewrite !startswith_char.
  destruct p as [|c p]; [congruence | intros _ H; exact H].
Qed.

Ltac absolute_prefix :=
  apply startswith_slash_app; [vm_compute; discriminate | vm_compute; reflexivity].

Lemma clean_image_url_absolute (url site_key : option str) :
  startswith (clean_image_url url site_key) (py "/") = false.
Proof.
  unfold clean_image_url. destruct url as [url|]; [|vm_compute; reflexivity].
  destruct (negb (truthy url) || str_eqb url NA); [vm_compute; reflexivity|].
  cbv zeta.
  match goal with
  | |- context [contains (py "?") ?u] => set (prefixed := u)
  end.
  assert (Hp : startswith prefixed (py "/") = false).
  { unfold prefixed.
    destruct (startswith (strip url) (py "//")); [absolute_prefix|].
    destruct (startswith (strip url) (py "/")) eqn:E; [|exact E].
    repeat match goal with
           | |- context [bool_decide ?p] => destruct (bool_decide p)
           end; absolute_prefix. }
  destruct (contains (py "?") prefixed); [|exact Hp].
  destruct (existsb _ image_extensions); [|exact Hp].
  destruct (split_head_prefix prefixed (py "?")) as [r Hr].
  apply (startswith_slash_prefix _ r). now rewrite <- Hr.
Qed.

(** X15: image URLs are made absolute.  Whatever the attribute value and
    the site key, [clean_image_url] never returns a text that starts with a
    slash: a protocol-relative or root-relative URL is prefixed with a
    scheme or with the origin of the site, and cutting the query string
    keeps the prefix. *)
Theorem image_url_is_absolute (url site_key : option str) :
  startswith (clean_image_url url site_key) (py "/") = false /\
  (forall url', url = Some url' -> startswith (strip url') (py "//") = true ->
     contains (py "?") (strip url') = false ->
     clean_image_url url site_key = py "https:" ++ strip url').
Proof.
  split; [apply clean_image_url_absolute|].
  intros url' -> Hs Hq. unfold clean_image_url.
  assert (Ht : negb (truthy url') || str_eqb url' NA = false).
  { apply orb_false_iff. split.
    - destruct url' as [|c u]; [discriminate Hs | reflexivity].
    - unfold str_eqb. apply bool_decide_eq_false. intros ->.
      vm_compute in Hs. discriminate. }
  rewrite Ht. cbv zeta. rewrite Hs.
  assert (Hq' : contains (py "?") (py "https:" ++ strip url') = false).
  { change (py "https:") with [104; 116; 116; 112; 115; 58]%N.
    change (py "?") with [63%N] in *.
    cbn [app contains startswith N.eqb Pos.eqb andb orb]. exact Hq. }
  now rewrite Hq'.
Qed.

Lemma image_step_absolute (soup : node) (selector : str) (site_key : option str)
    (url : str) :
  image_step soup selector site_key = Some url ->
  startswith url (py "/") = false.
Proof.
  unfold image_step.
  destruct (contains (py ":contains(") selector).
  - destruct (text_to_find selector) as [t|]; [|discriminate].
    destruct (re_compile_i t) as [r|]; [|discriminate].
    destruct (find_all_string soup r) as [|[s0 parent] more]; [discriminate|].
    destruct (find parent (py "img")) as [img|]; [|discriminate].
    match goal with
    | |- Some (clean_image_url ?u ?k) = _ -> _ =>
      pose proof (clean_image_url_absolute u k) as Habs;
        set (cleaned := clean_image_url u k) in *; clearbody cleaned
    end.
    now intros [= <-].
  - destruct (css_select selector soup) as [[|img more]|]; try discriminate.
    destruct (opt_or _ _) as [src|]; [|discriminate].
    destruct (truthy src); [|discriminate].
    match goal with
    | |- Some (clean_image_url ?u ?k) = _ -> _ =>
      pose proof (clean_image_url_absolute u k) as Habs;
        set (cleaned := clean_image_url u k) in *; clearbody cleaned
    end.
    now intros [= <-].
Qed.

Lemma extract_product_image_absolute (soup : node) (selectors : list str)
    (site_key : option str) :
  startswith (extract_product_image' soup selectors site_key) (py "/") = false.
Proof.
  induction selectors as [|selector selectors IH]; cbn [extract_product_image'].
  - vm_compute. reflexivity.
  - destruct (image_step soup selector site_key) as [url|] eqn:E; [|exact IH].
    now apply (image_step_absolute soup selector site_key).
Qed.

(** X16: the image of a record.  What [extract_product_image] returns is
    the sentinel when no selector leads to an image element with a source,
    and otherwise a cleaned URL; it never starts with a slash.  With an
    empty selector list it is the sentinel. *)
Theorem product_image_is_absolute (soup : node) (selectors : list str)
    (site_key : option str) :
  startswith (extract_product_image' soup selectors site_key) (py "/") = false /\
  (Forall (fun selector => image_step soup selector site_key = None) selectors ->
   extract_product_image' soup selectors site_key = NA).
Proof.
  split; [apply extract_product_image_absolute|].
  induction 1 as [|selector selectors Hsel _ IH]; cbn [extract_product_image'].
  - reflexivity.
  - now rewrite Hsel.
Qed.

(** *** The grouping of the summary *)

Lemma str_eqb_refl (a : str) : str_eqb a a = true.
Proof. unfold str_eqb. now apply bool_decide_eq_true_2. Qed.

Lemma str_eqb_neq (a b : str) : a <> b -> str_eqb a b = false.
Proof. unfold str_eqb. now apply bool_decide_eq_false_2. Qed.

Lemma str_eqb_eq (a b : str) : str_eqb a b = true -> a = b.
Proof. unfold str_eqb. now apply bool_decide_eq_true_1. Qed.

Lemma items_get_group_append {A} (k k' : str) (x : A) (items : list (str * list A)) :
  items_get k' (group_append k x items) =
  if str_eqb k k' then Some (default [] (items_get k items) ++ [x])
  else items_get k' items.
Proof.
  induction items as [|[k0 v] items IH]; cbn [group_append items_get].
  - now destruct (str_eqb k k').
  - destruct (decide (k0 = k)) as [->|Hne].
    + rewrite str_eqb_refl. cbn [items_get default].
      now destruct (str_eqb k k').
    + rewrite (str_eqb_neq k0 k Hne). cbn [items_get]. rewrite IH.
      destruct (str_eqb k k') eqn:E; [|reflexivity].
      apply str_eqb_eq in E. subst k'. now rewrite (str_eqb_neq k0 k Hne).
Qed.

Lemma keys_group_append {A} (k : str) (x : A) (items : list (str * list A)) :
  map fst (group_append k x items) =
  map fst items ++ match items_get k items with Some _ => [] | None => [k] end.
Proof.
  induction items as [|[k0 v] items IH]; cbn [group_append items_get map fst app];
    [reflexivity|].
  destruct (str_eqb k0 k); cbn [map fst].
  - now rewrite app_nil_r.
  - now rewrite IH.
Qed.

Lemma items_get_None {A} (k : str) (items : list (str * A)) :
  items_get k items = None -> ~ In k (map fst items).
Proof.
  induction items as [|[k0 v] items IH]; cbn [items_get map fst]; [intros _ []|].
  destruct (str_eqb k0 k) eqn:E0; [discriminate|].
  intros H [Hk | Hin]; [|now apply IH].
  subst k0. now rewrite str_eqb_refl in E0.
Qed.

Lemma items_get_In {A} (k : str) (v : A) (items : list (str * A)) :
  List.NoDup (map fst items) -> In (k, v) items -> items_get k items = Some v.
Proof.
  induction items as [|[k0 v0] items IH]; cbn [items_get map fst]; [intros _ []|].
  intros Hnd [Heq | Hin].
  - injection Heq as -> ->. now rewrite str_eqb_refl.
  - apply List.NoDup_cons_iff in Hnd. destruct Hnd as [Hk0 Hnd].
    destruct (str_eqb k0 k) eqn:E0; [|now apply IH].
    apply str_eqb_eq in E0. subst k0. exfalso. apply Hk0.
    now apply (in_map fst _ (k, v)).
Qed.

Lemma count_group_append {A} (k : str) (x : A) (items : list (str * list A)) :
  list_sum (map (fun kv => length (snd kv)) (group_append k x items)) =
  S (list_sum (map (fun kv => length (snd kv)) items)).
Proof.
  induction items as [|[k0 v] items IH]; cbn [group_append map snd];
    [reflexivity|].
  destruct (str_eqb k0 k); cbn [map snd]; unfold list_sum in *; cbn [fold_right].
  - rewrite length_app. simpl. lia.
  - rewrite IH. lia.
Qed.

Lemma by_site_snoc (products : list product) (p : product) :
  by_site (products ++ [p]) = group_append (site_label p) p (by_site products).
Proof. unfold by_site. now rewrite fold_left_app. Qed.

Lemma by_site_get (site : str) (products : list product) :
  items_get site (by_site products) =
  match records_of site products with
  | [] => None
  | records => Some records
  end.
Proof.
  revert site. induction products as [|p products IH] using rev_ind; intros site;
    [reflexivity|].
  rewrite by_site_snoc, items_get_group_append.
  unfold records_of. rewrite List.filter_app. cbn [List.filter].
  destruct (str_eqb (site_label p) site) eqn:E.
  - apply str_eqb_eq in E. subst site. rewrite IH. unfold records_of.
    now destruct (List.filter _ products).
  - rewrite app_nil_r. apply IH.
Qed.

Lemma by_site_keys (products : list product) : List.NoDup (map fst (by_site products)).
Proof.
  induction products as [|p products IH] using rev_ind; [constructor|].
  rewrite by_site_snoc, keys_group_append.
  destruct (items_get (site_label p) (by_site products)) eqn:E.
  - now rewrite app_nil_r.
  - apply items_get_None in E.
    apply List.NoDup_app; [exact IH | repeat constructor; intros [] |].
    intros k Hk [<- | []]. now apply E.
Qed.

Lemma by_site_count (products : list product) :
  list_sum (map (fun kv => length (snd kv)) (by_site products)) = length products.
Proof.
  induction products as [|p products IH] using rev_ind; [reflexivity|].
  rewrite by_site_snoc, count_group_append, IH, length_app. simpl. lia.
Qed.

(** X17: the counts of the summary.  The grouping loop of [print_summary]
    lists no site twice; the group of a site is exactly the records whose
    site entry it is (those without one under [unknown]), in the order of
    [self.products], and is never empty; and the sizes of the groups add up
    to the total number of records. *)
Theorem summary_groups (products : list product) :
  List.NoDup (map fst (by_site products)) /\
  (forall site, items_get site (by_site products) =
                match records_of site products with
                | [] => None
                | records => Some records
                end) /\
  Forall (fun group => snd group = records_of (fst group) products /\ snd group <> [])
         (by_site products) /\
  list_sum (map (fun group => length (snd group)) (by_site products)) = length products.
Proof.
  split; [apply by_site_keys|]. split; [intros site; apply by_site_get|].
  split; [|apply by_site_count].
  apply Forall_forall. intros [k v] Hin. apply list_elem_of_In in Hin.
  apply (items_get_In k v _ (by_site_keys products)) in Hin.
  rewrite by_site_get in Hin. cbn [fst snd].
  destruct (records_of k products) as [|q l]; [discriminate|].
  injection Hin as <-. split; [reflexivity | discriminate].
Qed.

(** *** The sinks *)

(** X18: the rows of the two sinks.  A row of [save_to_csv] and a row of
    [save_to_supabase] hold the same fourteen columns, in the column order
    of the CSV file.  When the record has a timestamp the two rows are the
    same, value by value; when it has none they differ in that one cell
    only, which is [None] in the database row and the sentinel in the CSV
    row. *)
Theorem sink_rows_agree (p : product) :
  map fst (csv_row p) = column_order /\
  map fst (db_product p) = column_order /\
  match fields p !! "scraped_at" with
  | Some _ => db_product p = csv_row p
  | None =>
    exists row, db_product p = row ++ [("scraped_at"%string, CNone)] /\
                csv_row p = row ++ [("scraped_at"%string, CStr NA)]
  end.
Proof.
  split; [reflexivity|]. split; [reflexivity|].
  unfold db_product, csv_row, column_order. cbn [map String.eqb Ascii.eqb Bool.eqb].
  destruct (fields p !! "scraped_at") as [t|] eqn:E.
  - reflexivity.
  - exists (take 13 (db_product p)). split; reflexivity.
Qed.

Lemma join_head (sep a : str) (l : list str) : exists r, join sep (a :: l) = a ++ r.
Proof.
  destruct l as [|b l]; [exists []; cbn; now rewrite app_nil_r|].
  now exists (sep ++ join sep (b :: l)).
Qed.

(** X19: the offers cell can be split back.  When no offer is empty or holds
    a semicolon, splitting the offers cell of the CSV and database rows at
    [; ] gives the offers of the record back; the empty cell stands for no
    offers. *)
Theorem offers_cell_round_trip (p : product) :
  Forall (fun offer => offer <> [] /\ Forall (fun c => c <> 59%N) offer) (offers p) ->
  match offers_str p with
  | [] => []
  | cell => split cell (py "; ")
  end = offers p.
Proof.
  intros H. unfold offers_str.
  destruct (offers p) as [|a l] eqn:E; [reflexivity|]. cbn [nonempty].
  assert (Hne : join (py "; ") (a :: l) <> []).
  { destruct (join_head (py "; ") a l) as [r ->].
    apply Forall_cons in H. destruct H as [[Ha _] _]. now destruct a. }
  destruct (join (py "; ") (a :: l)) as [|c cell] eqn:Ej; [congruence|].
  rewrite <- Ej. change (py "; ") with (59%N :: [32%N]).
  apply split_join; [discriminate|].
  eapply Forall_impl; [exact H|]. now intros o [_ Ho].
Qed.

(** *** Removing elements from the tree *)

(** Induction on a tree, with the hypothesis for every child. *)
Fixpoint node_induction (P : node -> Prop)
    (HText : forall s, P (Text s)) (HComment : forall s, P (Comment s))
    (HTag : forall nm ats cs, Forall P cs -> P (Tag nm ats cs)) (n : node) : P n :=
  match n with
  | Text s => HText s
  | Comment s => HComment s
  | Tag nm ats cs =>
    HTag nm ats cs
         ((fix go (l : list node) : Forall P l :=
             match l with
             | [] => List.Forall_nil P
             | c :: l' =>
               @List.Forall_cons _ P c l' (node_induction P HText HComment HTag c) (go l')
             end) cs)
  end.

Lemma decompose_all_strings (names : list str) (n : node) :
  strings (decompose_all names n) `sublist_of` strings n.
Proof.
  induction n as [s|s|nm ats cs IH] using node_induction; [reflexivity..|].
  cbn [decompose_all strings].
  induction IH as [|c cs Hc _ IHcs]; [reflexivity|].
  destruct (is_tag_named names c); cbn [flat_map].
  - now apply sublist_inserts_l.
  - now apply sublist_app.
Qed.

Lemma decompose_all_find_in (names : list str) (name : str) (n : node) :
  In name names ->
  is_tag_named names n = false ->
  find_in name (decompose_all names n) = None.
Proof.
  intros Hin. induction n as [s|s|nm ats cs IH] using node_induction;
    [reflexivity..|].
  intros Hn. cbn [decompose_all find_in].
  assert (Hnm : str_eqb nm name = false).
  { cbn [is_tag_named] in Hn. destruct (str_eqb nm name) eqn:E; [|reflexivity].
    rewrite <- Hn. symmetry. apply existsb_exists. exists name. now split. }
  rewrite Hnm. clear Hn Hnm.
  induction IH as [|c cs Hc _ IHcs]; [reflexivity|].
  destruct (is_tag_named names c) eqn:Ec; [exact IHcs|].
  rewrite (Hc eq_refl). exact IHcs.
Qed.

(** X20: what tier 3 does not read.  After the elements with the given
    names have been removed ([script] and [style] in
    [try_aggressive_parsing]), no element with one of these names is left
    below the root, and the strings of the tree are strings of the original
    tree, in their order. *)
Theorem decompose_all_removes (names : list str) (n : node) :
  strings (decompose_all names n) `sublist_of` strings n /\
  Forall (fun name => find (decompose_all names n) name = None) names.
Proof.
  split; [apply decompose_all_strings|].
  apply Forall_forall. intros name Hin. apply list_elem_of_In in Hin.
  destruct n as [s|s|nm ats cs]; [reflexivity..|].
  cbn [decompose_all]. unfold find. cbn [children].
  induction cs as [|c cs IH]; [reflexivity|].
  destruct (is_tag_named names c) eqn:Ec; [exact IH|].
  rewrite (decompose_all_find_in names name c Hin Ec). exact IH.
Qed.

(** *** Where the group of a match lies *)

Lemma advances_refl (st : mstate) : advances st st.
Proof. split; [reflexivity|]. exists 0. now rewrite Nat.add_0_r. Qed.

Lemma advances_trans (st1 st2 st3 : mstate) :
  advances st1 st2 -> advances st2 st3 -> advances st1 st3.
Proof.
  intros (G1 & n1 & P1 & R1) (G2 & n2 & P2 & R2). split; [congruence|].
  exists (n1 + n2). split; [lia|]. now rewrite R2, R1, drop_drop.
Qed.

Lemma star_loop_advances {A} (body : mstate -> (mstate -> option A) -> option A)
    (k : mstate -> option A) (x : A) :
  (forall st k', body st k' = Some x -> exists st', k' st' = Some x /\ advances st st') ->
  forall n st, star_loop body k n st = Some x ->
               exists st', k st' = Some x /\ advances st st'.
Proof.
  intros Hbody. induction n as [|n IH]; intros st H; cbn [star_loop] in H.
  - exists st. split; [exact H | apply advances_refl].
  - destruct (body st _) as [y|] eqn:E.
    + injection H as ->. apply Hbody in E. destruct E as (st1 & E & Ha).
      destruct (Nat.ltb (pos st) (pos st1)); [|discriminate].
      destruct (IH st1 E) as (st2 & Hk & Ha2). exists st2.
      split; [exact Hk | eapply advances_trans; eauto].
    + exists st. split; [exact H | apply advances_refl].
Qed.

(** A pattern without a group hands the group it was given over to its
    continuation. *)
Lemma rmatch_group_free (r : regex) :
  group_free r = true ->
  forall A (k : mstate -> option A) st x,
    rmatch r st k = Some x -> exists st', k st' = Some x /\ advances st st'.
Proof.
  induction r as [| |p|r1 IH1 r2 IH2|r1 IH1 r2 IH2|r IH|r IH];
    intros Hg A k st x H; cbn [rmatch group_free] in *.
  - exists st. split; [exact H | apply advances_refl].
  - destruct (Nat.eqb (pos st) 0); [|discriminate].
    exists st. split; [exact H | apply advances_refl].
  - destruct (rest st) as [|c s'] eqn:E; [discriminate|].
    destruct (p c); [|discriminate].
    eexists. split; [exact H|]. split; [reflexivity|].
    exists 1. cbn [pos rest]. split; [lia|]. now rewrite E.
  - apply andb_true_iff in Hg. destruct Hg as [Hg1 Hg2].
    apply (IH1 Hg1) in H. destruct H as (st1 & H & Ha1).
    apply (IH2 Hg2) in H. destruct H as (st2 & H & Ha2).
    exists st2. split; [exact H | eapply advances_trans; eauto].
  - apply andb_true_iff in Hg. destruct Hg as [Hg1 Hg2].
    destruct (rmatch r1 st k) as [y|] eqn:E.
    + injection H as ->. now apply (IH1 Hg1) in E.
    + now apply (IH2 Hg2) in H.
  - eapply star_loop_advances; [|exact H].
    intros st0 k' Hb. now apply (IH Hg) in Hb.
  - discriminate.
Qed.

Lemma mstate_eta (st : mstate) : MState (pos st) (rest st) (g1 st) = st.
Proof. now destruct st. Qed.

(** A greedy star over a class stops somewhere inside the run. *)
Lemma star_loop_cls_reach {A} (P : N -> bool) (k : mstate -> option A) (x : A)
    (n : nat) (st : mstate) :
  star_loop (rmatch (Cls P)) k n st = Some x ->
  exists m, m <= length (takeWhile P (rest st)) /\
            k (MState (pos st + m) (drop m (rest st)) (g1 st)) = Some x.
Proof.
  assert (Hstay : k st = Some x ->
            exists m, m <= length (takeWhile P (rest st)) /\
                      k (MState (pos st + m) (drop m (rest st)) (g1 st)) = Some x).
  { intros H. exists 0. split; [lia|]. cbn [drop]. now rewrite Nat.add_0_r, mstate_eta. }
  revert st Hstay. induction n as [|n IH]; intros st Hstay H; cbn [star_loop] in H;
    [now apply Hstay|].
  destruct st as [i r g]. cbn [pos rest g1] in *.
  destruct r as [|c r]; [rewrite rmatch_Cls_nil in H; now apply Hstay|].
  rewrite rmatch_Cls_cons in H. destruct (P c) eqn:E; [|now apply Hstay].
  cbn [pos] in H.
  assert (Hlt : Nat.ltb i (S i) = true) by (apply Nat.ltb_lt; lia).
  rewrite Hlt in H.
  destruct (star_loop (rmatch (Cls P)) k n (MState (S i) r g)) as [y|] eqn:E2;
    [|now apply Hstay].
  injection H as ->. apply IH in E2.
  - destruct E2 as (m & Hm & Hk). cbn [pos rest g1] in *.
    exists (S m). cbn [takeWhile]. rewrite E. cbn [length drop]. split; [lia|].
    now replace (i + S m) with (S i + m) by lia.
  - intros H. exists 0. split; [lia|]. cbn [pos rest g1 drop]. now rewrite Nat.add_0_r.
Qed.

(** The group [([P]+)]: its span is a non-empty part of the run of [P] at
    the current position. *)
Lemma rmatch_grp_plus {A} (P : N -> bool) (k : mstate -> option A) (st : mstate) (x : A) :
  rmatch (Grp (Plus (Cls P))) st k = Some x ->
  exists n, 1 <= n /\ n <= length (takeWhile P (rest st)) /\
            k (MState (pos st + n) (drop n (rest st)) (Some (pos st, pos st + n))) = Some x.
Proof.
  unfold Plus. rewrite rmatch_Grp, rmatch_Cat. destruct st as [i r g].
  destruct r as [|c r]; [now rewrite rmatch_Cls_nil|].
  rewrite rmatch_Cls_cons. destruct (P c) eqn:E; [|discriminate].
  intros H. cbn [rmatch] in H. apply star_loop_cls_reach in H.
  destruct H as (m & Hm & Hk). cbn [pos rest g1] in *.
  exists (S m). cbn [takeWhile]. rewrite E. cbn [length drop].
  split; [lia|]. split; [lia|].
  now replace (i + S m) with (S i + m) by lia.
Qed.

Lemma takeWhile_length (p : N -> bool) (s : str) : length (takeWhile p s) <= length s.
Proof.
  induction s as [|c s IH]; simpl; [lia|]. destruct (p c); simpl; lia.
Qed.

Lemma forallb_take_takeWhile (p : N -> bool) (n : nat) (s : str) :
  n <= length (takeWhile p s) -> forallb p (take n s) = true.
Proof.
  revert n. induction s as [|c s IH]; intros [|n]; simpl; try reflexivity.
  destruct (p c) eqn:E; simpl; [|lia]. intros H. rewrite IH by lia. reflexivity.
Qed.

(** A pattern that captures a run of [P] hands a state with such a group
    over to its continuation. *)
Lemma rmatch_captures (P : N -> bool) (r : regex) :
  captures P r ->
  forall A (k : mstate -> option A) st x,
    rmatch r st k = Some x ->
    exists st', k st' = Some x /\ captured P st st' /\
                exists m, pos st' = pos st + m /\ rest st' = drop m (rest st).
Proof.
  induction 1 as [|r1 r2 Hg1 _ IH2|r1 r2 _ IH1 Hg2|r1 r2 _ IH1 _ IH2];
    intros A k st x H.
  - apply rmatch_grp_plus in H. destruct H as (n & Hn1 & Hn & Hk).
    pose proof (takeWhile_length P (rest st)) as Hlen.
    eexists. split; [exact Hk|]. split.
    + exists (pos st), (take n (rest st)), (drop n (rest st)). cbn [g1 pos rest].
      rewrite length_take, Nat.min_l by lia.
      split; [reflexivity|]. split.
      { intros E. apply (f_equal length) in E. rewrite length_take in E.
        simpl in E. lia. }
      split; [now apply forallb_take_takeWhile|]. split; [lia|].
      rewrite Nat.sub_diag. cbn [drop]. now rewrite take_drop.
    + exists n. cbn [pos rest]. now split.
  - rewrite rmatch_Cat in H. apply (rmatch_group_free r1 Hg1) in H.
    destruct H as (st1 & H & G1 & n1 & P1 & R1).
    apply IH2 in H. destruct H as (st' & Hk & (a & g & tail & Ga & Hne & Hall & Hpos & Hd)
                                      & m & P2 & R2).
    exists st'. split; [exact Hk|]. split.
    + exists a, g, tail. repeat split; try assumption; [lia|].
      rewrite <- Hd, R1, drop_drop. f_equal. lia.
    + exists (n1 + m). split; [lia|]. now rewrite R2, R1, drop_drop.
  - rewrite rmatch_Cat in H. apply IH1 in H.
    destruct H as (st1 & H & (a & g & tail & Ga & Hne & Hall & Hpos & Hd) & m & P1 & R1).
    apply (rmatch_group_free r2 Hg2) in H.
    destruct H as (st' & Hk & G2 & n2 & P2 & R2).
    exists st'. split; [exact Hk|]. split.
    + exists a, g, tail. repeat split; try assumption. congruence.
    + exists (m + n2). split; [lia|]. now rewrite R2, R1, drop_drop.
  - rewrite rmatch_Alt in H. destruct (rmatch r1 st k) as [y|] eqn:E.
    + injection H as ->. now apply IH1 in E.
    + now apply IH2 in H.
Qed.

(** [re.search] with a pattern that captures a run of [P]: group 1 of the
    match is a non-empty run of [P]. *)
Lemma search_captures (P : N -> bool) (r : regex) (s : str) (m : match_obj) :
  captures P r ->
  search r s = Some m ->
  exists g, group1 m = Some g /\ g <> [] /\ forallb P g = true.
Proof.
  intros Hc. unfold search.
  assert (H : forall sfx i, drop i s = sfx ->
                search_from r s i sfx = Some m ->
                exists g, group1 m = Some g /\ g <> [] /\ forallb P g = true).
  { induction sfx as [|c sfx IH]; intros i Hd Hs; cbn [search_from] in Hs.
    - destruct (rmatch r (MState i [] None) Some) as [st|] eqn:E; [|discriminate].
      injection Hs as <-. apply (rmatch_captures P r Hc) in E.
      destruct E as (st' & [= ->] & (a & g & tail & Ga & Hne & Hall & Hpos & Hd') & _).
      cbn [pos rest] in *. rewrite drop_nil in Hd'. now destruct g.
    - destruct (rmatch r (MState i (c :: sfx) None) Some) as [st|] eqn:E.
      + injection Hs as <-. apply (rmatch_captures P r Hc) in E.
        destruct E as (st' & [= ->] & (a & g & tail & Ga & Hne & Hall & Hpos & Hd') & _).
        cbn [pos rest] in *. exists g. split; [|now split].
        unfold mk_match. cbn [group1]. rewrite Ga. f_equal.
        rewrite <- Hd, drop_drop in Hd'.
        replace (i + (a - i)) with a in Hd' by lia.
        now apply substr_prefix in Hd'.
      + apply (IH (S i)); [|exact Hs]. eapply drop_cons_tail; eauto. }
  now apply (H s 0).
Qed.

(** *** The original price of the Sathya store *)

Lemma captures_rupee_amount : captures is_digit_or_comma re_rupee_amount.
Proof. apply captures_after; [reflexivity | apply captures_group]. Qed.

Lemma captures_mrp_patterns : Forall (captures is_digit_or_comma) mrp_patterns.
Proof.
  unfold mrp_patterns. repeat apply Forall_cons_2; [| | | |constructor].
  - repeat (apply captures_after; [reflexivity|]). apply captures_group.
  - repeat (apply captures_after; [reflexivity|]). apply captures_group.
  - apply captures_after; [reflexivity|].
    apply captures_before; [apply captures_group | reflexivity].
  - apply captures_after; [reflexivity|].
    apply captures_before; [apply captures_group | reflexivity].
Qed.

Lemma price_of_match (r : regex) (s : str) (m : match_obj) :
  captures is_digit_or_comma r ->
  search r s = Some m ->
  is_clean_price (rupee :: group1_text m) = true.
Proof.
  intros Hc Hs. destruct (search_captures _ r s m Hc Hs) as (g & Hg & Hne & Hall).
  unfold group1_text. rewrite Hg. change (default [] (Some g)) with g.
  unfold is_clean_price. apply orb_true_iff. right.
  rewrite N.eqb_refl, Hall. now destruct g.
Qed.

Lemma mrp_by_patterns_shape (text_content : str) (patterns : list regex) (price : str) :
  Forall (captures is_digit_or_comma) patterns ->
  mrp_by_patterns text_content patterns = Some price ->
  is_clean_price price = true.
Proof.
  induction 1 as [|r patterns Hr _ IH]; cbn [mrp_by_patterns]; [discriminate|].
  destruct (search r text_content) as [m|] eqn:E; [|exact IH].
  intros [= <-]. now apply (price_of_match r text_content).
Qed.

Lemma mrp_step_shape (soup : node) (selector price : str) :
  mrp_step soup selector = Return price -> is_clean_price price = true.
Proof.
  unfold mrp_step.
  destruct (contains (py ":contains(") selector); [|discriminate].
  destruct (text_to_find selector) as [t|]; [|discriminate].
  destruct (re_compile_i t) as [r|]; [|discriminate].
  destruct (find_all_string soup r) as [|[s0 parent] more]; [discriminate|].
  destruct (search re_rupee_amount (get_text_strip parent)) as [m|] eqn:E;
    [|discriminate].
  intros [= <-]. apply (price_of_match re_rupee_amount _ m captures_rupee_amount E).
Qed.

Lemma mrp_by_selectors_shape (soup : node) (selectors : list str) (price : str) :
  mrp_by_selectors soup selectors = Return price -> is_clean_price price = true.
Proof.
  induction selectors as [|selector selectors IH]; cbn [mrp_by_selectors];
    [discriminate|].
  destruct (mrp_step soup selector) as [v| |] eqn:E; [|exact IH|discriminate].
  intros [= <-]. now apply (mrp_step_shape soup selector).
Qed.

Lemma mrp_step_same (soup : node) (selector : str) :
  In selector mrp_selectors ->
  mrp_step soup selector = mrp_step soup (sel ["span:contains("; "MRP"; ")"]).
Proof.
  intros [<- | [<- | [<- | []]]]; [reflexivity| |]; unfold mrp_step;
    repeat match goal with
           | |- context [contains ?a ?b] =>
             replace (contains a b) with true by (vm_compute; reflexivity)
           | |- context [text_to_find ?a] =>
             replace (text_to_find a) with (Some (py "MRP")) by (vm_compute; reflexivity)
           end; reflexivity.
Qed.

Lemma extract_sathya_original_price_shape (soup : node) :
  is_clean_price (extract_sathya_original_price' soup) = true.
Proof.
  unfold extract_sathya_original_price'.
  destruct (mrp_by_selectors soup mrp_selectors) as [v| |] eqn:E.
  - now apply (mrp_by_selectors_shape soup mrp_selectors).
  - destruct (mrp_by_patterns (get_text_strip soup) mrp_patterns) as [v|] eqn:E2.
    + apply (mrp_by_patterns_shape _ _ _ captures_mrp_patterns E2).
    + vm_compute. reflexivity.
  - vm_compute. reflexivity.
Qed.

(** X21: the original price of the Sathya store.  What
    [extract_sathya_original_price] returns is the sentinel or the rupee
    sign followed by one or more digits and commas, whatever the fragment:
    it already has the shape of a cleaned price.  Its three selectors all
    search the fragment for the same text, so the loop over them does what
    its first iteration does. *)
Theorem sathya_original_price_shape (soup : node) :
  is_clean_price (extract_sathya_original_price' soup) = true /\
  mrp_by_selectors soup mrp_selectors =
    mrp_step soup (sel ["span:contains("; "MRP"; ")"]).
Proof.
  split; [apply extract_sathya_original_price_shape|].
  unfold mrp_selectors. cbn [mrp_by_selectors].
  rewrite (mrp_step_same soup (sel ["div:contains("; "MRP"; ")"]))
    by (right; left; reflexivity).
  rewrite (mrp_step_same soup (sel ["p:contains("; "MRP"; ")"]))
    by (right; right; left; reflexivity).
  now destruct (mrp_step soup (sel ["span:contains("; "MRP"; ")"])).
Qed.

(** *** The retry loop *)

Lemma products_of_site_run (site_key : str) (s : scraper) :
  products_of_site site_key s = (Ok (site_products site_key s), s).
Proof. reflexivity. Qed.

(** The records of a site that the session holds are still found after it
    has been extended. *)
Lemma site_products_kept (P : product -> Prop) (n : nat) (site_key : str)
    (s s' : scraper) (p : nat) :
  extends_by P n s s' ->
  In p (site_products site_key s) -> In p (site_products site_key s').
Proof.
  intros ((hs & Hh) & (new & Hp & _)). unfold site_products.
  rewrite !filter_In. intros [Hin Hf]. split.
  - rewrite Hp. apply in_or_app. now left.
  - destruct (heap s !! p) as [d|] eqn:Hd; [|discriminate].
    rewrite Hh. now rewrite (lookup_app_l_Some _ _ _ _ Hd).
Qed.

(** A record accepted for a site is found among the records of the site. *)
Lemma site_products_new (n : nat) (site_key : str) (s s' : scraper) :
  extends_by (accepted_record site_key) n s s' ->
  products s' <> products s ->
  site_products site_key s' <> [].
Proof.
  intros (_ & (new & Hp & _ & F)) Hne.
  destruct new as [|l new]; [now rewrite app_nil_r in Hp|].
  apply Forall_cons in F. destruct F as [(_ & d & Hd & Hsite & _) _].
  assert (Hin : In l (site_products site_key s')).
  { apply filter_In. split.
    - rewrite Hp. apply in_or_app. right. now left.
    - rewrite Hd. now apply bool_decide_eq_true. }
  intros E. now rewrite E in Hin.
Qed.

(** X22: when the retry loop stops.  The loop of [main] for one site never
    raises, whatever [scrape_site] raises.  After an attempt that returns,
    it looks for records of the site in the whole session: when the session
    held one before the attempt, or the attempt has accepted one, it makes
    no further attempt.  An attempt that raises (the crawler's context
    manager, or a site that is not configured) is followed by the attempts
    that are left, from the session it has left behind, without a look at
    the records: also when it has accepted some. *)
Theorem retry_until_a_record (attempts : nat) (site search_query : str) (s : scraper) :
  let r := scrape_site site None (Some search_query) s in
  fst (scrape_with_retries (S attempts) site search_query s) = Ok tt /\
  (fst r = Ok tt ->
   site_products site s <> [] \/ products (snd r) <> products s ->
   scrape_with_retries (S attempts) site search_query s = (Ok tt, snd r)) /\
  (forall e, fst r = Raise e ->
   scrape_with_retries (S attempts) site search_query s =
   scrape_with_retries attempts site search_query (snd r)).
Proof.
  cbv zeta. split; [|split].
  - destruct (scrape_with_retries_returns (S attempts) site search_query s) as [[] H].
    exact H.
  - intros Hret Hrec.
    destruct (accepts_some_scrape_site site None (Some search_query) s) as [n Hn].
    assert (Hfound : site_products site
                       (snd (scrape_site site None (Some search_query) s)) <> []).
    { destruct Hrec as [Hold | Hnew]; [|now apply (site_products_new n site s)].
      destruct (site_products site s) as [|p ps] eqn:Hp; [congruence|].
      intros E.
      pose proof (site_products_kept _ n site s _ p Hn) as Hk.
      rewrite Hp, E in Hk. now apply Hk; left. }
    cbn [scrape_with_retries]. unfold bind at 1, try_except, bind at 1.
    destruct (scrape_site site None (Some search_query) s) as [[[]|e] s1];
      cbn [fst snd] in *; [|discriminate].
    unfold bind. rewrite products_of_site_run. unfold ret.
    now destruct (site_products site s1).
  - intros e He. cbn [scrape_with_retries]. unfold bind at 1, try_except, bind at 1.
    destruct (scrape_site site None (Some search_query) s) as [[[]|e'] s1];
      cbn [fst snd] in *; [discriminate | reflexivity].
Qed.

(** *** One tier per call *)

Lemma gate_open_nothing_accepted (P : product -> Prop) (n : nat) (site_key : str)
    (s s1 : scraper) :
  (forall d, P d -> fields d !! "site" = Some site_key) ->
  extends_by P n s s1 ->
  fst (no_products_of_site site_key s1) = Ok true ->
  products s1 = products s.
Proof.
  intros HP (_ & (new & Hnew & _ & F)) Hgate.
  destruct new as [|l new]; [now rewrite app_nil_r in Hnew|]. exfalso.
  unfold no_products_of_site, bind, get_products, products_of_site, ret in Hgate.
  cbn [fst] in Hgate. injection Hgate as Hgate.
  apply orb_true_iff in Hgate. destruct Hgate as [Hgate | Hgate].
  - rewrite Hnew in Hgate. now destruct (products s).
  - apply Nat.eqb_eq in Hgate.
    apply Forall_cons in F. destruct F as [(_ & d & Hd & Hs) _]. apply HP in Hs.
    assert (Hin : In l (products s1)).
    { rewrite Hnew. apply in_or_app. right. now left. }
    match type of Hgate with
    | length (List.filter ?f _) = 0 =>
      assert (Hf : In l (List.filter f (products s1)))
    end.
    { apply filter_In. split; [exact Hin|]. rewrite Hd.
      now apply bool_decide_eq_true. }
    destruct (List.filter _ (products s1)); [contradiction | discriminate].
Qed.

Lemma no_products_of_site_run (site_key : str) (s : scraper) :
  exists b, no_products_of_site site_key s = (Ok b, s).
Proof. eexists. reflexivity. Qed.

Lemma quiet_alternative_loop_any (allowed : event -> Prop) soup site_key search_query
    selectors :
  (forall selector, allowed (EvSelect selector)) ->
  (forall i, allowed (EvCandidate i)) ->
  quiet allowed (alternative_loop soup site_key search_query selectors).
Proof.
  intros Hsel Hcand.
  assert (Hc : forall ie, quiet allowed (alternative_candidate site_key search_query ie)).
  { intros ie. unfold alternative_candidate. quiet_steps; apply Hcand. }
  induction selectors as [|x l IH]; cbn [alternative_loop]; quiet_steps;
    first [apply Hsel | apply Hc].
Qed.

(** What tier 2 emits: its entry, then queries and candidates. *)
Lemma try_alternative_parsing_events result config site_key search_query (s : scraper) :
  exists evs,
    try_alternative_parsing result config site_key search_query s =
      (Ok tt, snd (try_alternative_parsing result config site_key search_query s)) /\
    log (snd (try_alternative_parsing result config site_key search_query s)) =
      log s ++ EvAlternative :: evs /\
    Forall (fun e => e <> EvAggressive) evs.
Proof.
  unfold try_alternative_parsing, bind at 1 2 3, emit at 1 2 3. cbv beta iota.
  rewrite try_ret_unit. cbn [snd].
  match goal with
  | |- context [alternative_loop ?a ?b ?c ?d ?s0] =>
    destruct (quiet_alternative_loop_any (fun e => e <> EvAggressive) a b c d
                (fun _ => ltac:(discriminate)) (fun _ => ltac:(discriminate)) s0)
      as (evs & Hl & Hf)
  end.
  exists evs. split; [reflexivity|]. split; [|exact Hf].
  rewrite Hl. cbn [log]. now rewrite <- app_assoc.
Qed.

(** What tier 3 emits: its entry. *)
Lemma try_aggressive_parsing_events result config site_key search_query (s : scraper) :
  try_aggressive_parsing result config site_key search_query s =
    (Ok tt, snd (try_aggressive_parsing result config site_key search_query s)) /\
  log (snd (try_aggressive_parsing result config site_key search_query s)) =
    log s ++ [EvAggressive].
Proof.
  unfold try_aggressive_parsing, bind at 1 2 3, emit at 1 2 3. cbv beta iota zeta.
  rewrite try_ret_unit. cbn [snd]. split; [reflexivity|].
  match goal with
  | |- context [parse_text_content ?a ?b ?c ?s0] =>
    destruct (quiet_parse_text_content (fun _ => False) a b c s0) as (evs & Hl & Hf)
  end.
  rewrite Hl. destruct evs as [|e evs]; [now rewrite app_nil_r|].
  apply Forall_cons in Hf. now destruct Hf.
Qed.

Lemma extends_by_nothing (P : product -> Prop) (s s' : scraper) (hs : list product) :
  heap s' = heap s ++ hs -> products s' = products s -> extends_by P 0 s s'.
Proof.
  intros Hh Hp. split; [now exists hs|].
  exists []. rewrite app_nil_r. repeat split; [exact Hp | simpl; lia | constructor].
Qed.

Lemma fallback_record_site keys site_key search_query d :
  fallback_record keys site_key search_query d -> fields d !! "site" = Some site_key.
Proof. now intros [_ [H _]]. Qed.

(** The [try] block of [scrape_site], tier by tier. *)
Lemma one_tier_per_block (config : config) (url site_key : str)
    (search_query : option str) (s : scraper) :
  let s' := snd (fetch_and_parse config url site_key search_query s) in
  let evs := drop (length (log s)) (log s') in
  ((EvAlternative ∉ evs) /\ (EvAggressive ∉ evs) /\
   exists n, extends_by (accepted_record site_key) n s s') \/
  ((EvAlternative ∈ evs) /\ (EvAggressive ∉ evs) /\
   extends_by (fallback_record tier2_unfilled site_key None) 10 s s') \/
  ((EvAlternative ∈ evs) /\ (EvAggressive ∈ evs) /\
   extends_by (fallback_record tier3_unfilled site_key search_query) 20 s s').
Proof.
  cbv zeta.
  remember (snd (fetch_and_parse config url site_key search_query s)) as s' eqn:Hs'.
  assert (Hquiet : forall s', log s' = log s \/
                     (exists url', log s' = log s ++ [EvFetch url']) ->
            (EvAlternative ∉ drop (length (log s)) (log s')) /\
            (EvAggressive ∉ drop (length (log s)) (log s'))).
  { intros s1 [-> | [url' ->]].
    - rewrite drop_all. split; apply not_elem_of_nil.
    - rewrite drop_app_length. split; intros H;
        apply list_elem_of_singleton in H; discriminate. }
  assert (Htier1 : forall s1 (hs : list product) n,
            log s1 = log s \/ (exists url', log s1 = log s ++ [EvFetch url']) ->
            extends_by (accepted_record site_key) n s s1 ->
            (EvAlternative ∉ drop (length (log s)) (log s1)) /\
            (EvAggressive ∉ drop (length (log s)) (log s1)) /\
            exists n, extends_by (accepted_record site_key) n s s1).
  { intros s1 hs n Hl He. destruct (Hquiet s1 Hl) as [H1 H2].
    split; [exact H1|]. split; [exact H2|]. now exists n. }
  unfold fetch_and_parse in Hs'.
  unfold bind at 1, tick at 1, bind at 1, emit at 1 in Hs'.
  cbn [world heap products log] in Hs'.
  set (s0 := Scraper (heap s) (products s) (log s ++ [EvFetch url]) (S (world s))) in *.
  assert (Hl0 : log s0 = log s \/ (exists url', log s0 = log s ++ [EvFetch url'])).
  { right. now exists url. }
  assert (He0 : extends_by (accepted_record site_key) 0 s s0)
    by now apply extends_by_same.
  destruct (arun (world s) url (Some (product_selector config))) as [result|].
  2:{ left. unfold raise in Hs'; cbn [snd] in Hs'. subst s'.
      now apply (Htier1 s0 [] 0). }
  destruct (negb (success result)).
  { left. unfold ret in Hs'; cbn [snd] in Hs'. subst s'. now apply (Htier1 s0 [] 0). }
  destruct (structured_parsing_grows result config site_key search_query s0)
    as [n1 Hg1].
  destruct (accepts_some_structured_parsing result config site_key search_query s0)
    as [n1' He1].
  unfold bind at 1 in Hs'.
  destruct (structured_parsing result config site_key search_query s0)
    as [[[]|e] s1] eqn:Hsp; cbn [snd] in Hg1, He1.
  2:{ left. cbn [snd] in Hs'. subst s'. apply (Htier1 s1 [] n1').
      - right. exists url. destruct Hg1 as (-> & _). reflexivity.
      - apply (extends_by_trans _ 0 n1' s s0 s1 He0 He1). }
  unfold bind at 1 in Hs'.
  destruct (no_products_of_site_run site_key s1) as [none Hgate].
  rewrite Hgate in Hs'. destruct none.
  2:{ left. unfold ret in Hs'; cbn [snd] in Hs'. subst s'. apply (Htier1 s1 [] n1').
      - right. exists url. destruct Hg1 as (-> & _). reflexivity.
      - apply (extends_by_trans _ 0 n1' s s0 s1 He0 He1). }
  right.
  assert (Hp1 : products s1 = products s).
  { apply (gate_open_nothing_added n1 site_key s0 s1 Hg1). now rewrite Hgate. }
  destruct Hg1 as (Hl1 & (hs1 & Hh1) & _). unfold s0 in Hh1. cbn [heap] in Hh1.
  destruct (try_alternative_parsing_events result config site_key None s1)
    as (evs2 & Hrun2 & Hlog2 & Hf2).
  pose proof (accepts_try_alternative_parsing result config site_key None s1) as He2.
  unfold bind at 1 in Hs'. rewrite Hrun2 in Hs'.
  set (s2 := snd (try_alternative_parsing result config site_key None s1)) in *.
  assert (Hlog : log s2 = log s ++ EvFetch url :: EvAlternative :: evs2).
  { rewrite Hlog2, Hl1. unfold s0. cbn [log]. now rewrite <- app_assoc. }
  destruct (no_products_of_site_run site_key s2) as [none Hgate2].
  unfold bind at 1 in Hs'. rewrite Hgate2 in Hs'. destruct none.
  - right.
    assert (Hp2 : products s2 = products s1).
    { apply (gate_open_nothing_accepted _ 10 site_key s1 s2
               (fallback_record_site _ _ _) He2). now rewrite Hgate2. }
    destruct He2 as ((hs2 & Hh2) & _).
    destruct (try_aggressive_parsing_events result config site_key search_query s2)
      as [_ Hlog3].
    pose proof (accepts_try_aggressive_parsing result config site_key search_query s2)
      as He3.
    rewrite <- Hs' in Hlog3, He3. rewrite Hlog3, Hlog, <- app_assoc, drop_app_length.
    split; [|split].
    + cbn [app]. apply list_elem_of_further, list_elem_of_here.
    + apply elem_of_app. right. apply list_elem_of_here.
    + apply (extends_by_trans _ 0 20 s s2 s'); [|exact He3].
      apply (extends_by_nothing _ s s2 (hs1 ++ hs2)); [|congruence].
      now rewrite Hh2, Hh1, app_assoc.
  - left. unfold ret in Hs'; cbn [snd] in Hs'. subst s'.
    rewrite Hlog, drop_app_length. split; [|split].
    + apply list_elem_of_further, list_elem_of_here.
    + intros Hin. apply elem_of_cons in Hin. destruct Hin as [Hin | Hin]; [discriminate|].
      apply elem_of_cons in Hin. destruct Hin as [Hin | Hin]; [discriminate|].
      rewrite Forall_forall in Hf2. now apply (Hf2 _ Hin).
    + apply (extends_by_trans _ 0 10 s s1 s2); [|exact He2].
      now apply (extends_by_nothing _ s s1 hs1).
Qed.

(** X23: one tier per call.  The records a call of [scrape_site] accepts
    come from one tier only.  Either tier 2 is not entered, and they are
    records of tier 1; or tier 2 is entered and tier 3 is not, tier 1 has
    accepted nothing, and they are at most ten records of tier 2, which
    carry the sentinel as their search query whatever query the call was
    given (the call of [try_alternative_parsing] passes none); or tier 3 is
    entered, tiers 1 and 2 have accepted nothing, and they are at most
    twenty records of tier 3, with the search query of the call. *)
Theorem one_tier_per_call (site_key : str) (custom_url search_query : option str)
    (s : scraper) :
  let s' := snd (scrape_site site_key custom_url search_query s) in
  let evs := emitted (scrape_site site_key custom_url search_query) s in
  ((EvAlternative ∉ evs) /\ (EvAggressive ∉ evs) /\
   exists n, extends_by (accepted_record site_key) n s s') \/
  ((EvAlternative ∈ evs) /\ (EvAggressive ∉ evs) /\
   extends_by (fallback_record tier2_unfilled site_key None) 10 s s') \/
  ((EvAlternative ∈ evs) /\ (EvAggressive ∈ evs) /\
   extends_by (fallback_record tier3_unfilled site_key search_query) 20 s s').
Proof.
  cbv zeta. unfold emitted.
  assert (Hnone : forall s1, heap s1 = heap s -> products s1 = products s ->
                             log s1 = log s ->
            (EvAlternative ∉ drop (length (log s)) (log s1)) /\
            (EvAggressive ∉ drop (length (log s)) (log s1)) /\
            exists n, extends_by (accepted_record site_key) n s s1).
  { intros s1 Hh Hp Hl. rewrite Hl, drop_all.
    split; [apply not_elem_of_nil|]. split; [apply not_elem_of_nil|].
    exists 0. now apply extends_by_same. }
  destruct (lookup_config site_key site_configs) as [config|] eqn:Hcfg.
  2:{ left. unfold scrape_site. rewrite Hcfg. now apply Hnone. }
  rewrite (scrape_site_run site_key config custom_url search_query s Hcfg).
  destruct (crawler_enter (world s)) as [e|]; [left; now apply Hnone|].
  pose proof (one_tier_per_block config (str_or custom_url (cfg_url config)) site_key
                search_query s) as Hblock.
  cbv zeta in Hblock.
  set (s1 := snd (fetch_and_parse config (str_or custom_url (cfg_url config)) site_key
                    search_query s)) in *.
  destruct (close_crawler_state s1) as (Hh & Hp & Hl).
  assert (Hclose : forall P n, extends_by P n s s1 ->
                               extends_by P n s (snd (close_crawler s1))).
  { intros P n He. rewrite <- (Nat.add_0_r n).
    eapply extends_by_trans; [exact He | apply accepts_close_crawler]. }
  rewrite Hl.
  destruct Hblock as [(H1 & H2 & n & He) | [(H1 & H2 & He) | (H1 & H2 & He)]].
  - left. split; [exact H1|]. split; [exact H2|]. exists n. now apply Hclose.
  - right. left. split; [exact H1|]. split; [exact H2|]. now apply Hclose.
  - right. right. split; [exact H1|]. split; [exact H2|]. now apply Hclose.
Qed.
End Scraper.

(* ===================================================================== *)
(** ** Concrete instances *)
(* ===================================================================== *)

Import Fixtures.

(** C1, as stated, fails for the offers field: on the card
    [<div><span>10% off</span><b>Free gift</b></div>] with the selectors
    [span] and [b], the first selector returns a text, and
    [extract_offers_with_config] still evaluates the second one, whose text
    ends up in the result. *)
Lemma offers_evaluates_later_selectors :
  try_selector by_tag_name literal_pattern offer_card (py "span") = Some (py "10% off") /\
  extract_offers_traced by_tag_name literal_pattern offer_card [py "span"; py "b"] [] =
    ([py "10% off"; py "Free gift"], [py "span"; py "b"]).
Proof. split; vm_compute; reflexivity. Qed.

(** On the same card the single-valued resolver stops at [span]: [h2] before
    it selects nothing, [b] after it is not evaluated. *)
Lemma first_match_wins_witness :
  Forall (fun s => try_selector by_tag_name literal_pattern offer_card s = None)
         [py "h2"] /\
  try_selector by_tag_name literal_pattern offer_card (py "span") = Some (py "10% off") /\
  extract_with_multiple_selectors_traced by_tag_name literal_pattern offer_card
    ([py "h2"] ++ py "span" :: [py "b"]) = (py "10% off", [py "h2"] ++ [py "span"]).
Proof.
  assert (H1 : Forall (fun s => try_selector by_tag_name literal_pattern offer_card s = None)
                      [py "h2"]).
  { constructor; [vm_compute; reflexivity | constructor]. }
  assert (H2 : try_selector by_tag_name literal_pattern offer_card (py "span")
               = Some (py "10% off")).
  { vm_compute; reflexivity. }
  split; [exact H1|]. split; [exact H2|].
  exact (proj1 (first_match_wins by_tag_name literal_pattern offer_card
                  [py "h2"] [py "b"] (py "span") (py "10% off") (py "Discount")
                  H1 H2)).
Defined.

(** C2, as stated, fails for the delivery text: on
    [<div><span>Free delivery <b>tomorrow</b></span></div>] the pattern is
    found in the string [Free delivery ], whose parent is the [span];
    [extract_delivery_info] returns the string, stripped, and not the text of
    the [span]. *)
Lemma delivery_returns_matched_string :
  find_all_string delivery_card re_delivery = [(py "Free delivery ", delivery_span)] /\
  extract_delivery_info by_tag_name delivery_card = py "Free delivery" /\
  get_text_strip delivery_span = py "Free deliverytomorrow" /\
  extract_delivery_info by_tag_name delivery_card <> get_text_strip delivery_span.
Proof.
  split; [vm_compute; reflexivity|].
  split; [vm_compute; reflexivity|].
  split; [vm_compute; reflexivity|].
  vm_compute. discriminate.
Qed.

(** On the same card the resolver, given the selector
    [span:contains(...delivery...)], returns the text of the [span], while
    [extract_delivery_info], none of whose structural selectors selects
    anything there, returns the string. *)
Lemma contains_returns_parent_text_witness :
  text_to_find (sel ["span:contains("; "delivery"; ")"]) = Some (py "delivery") /\
  find_all_string delivery_card (WordI (py "delivery")) =
    [(py "Free delivery ", delivery_span)] /\
  extract_with_multiple_selectors by_tag_name literal_pattern delivery_card
    ([py "h2"] ++ sel ["span:contains("; "delivery"; ")"] :: [py "b"]) (py "Delivery") =
    get_text_strip delivery_span /\
  extract_delivery_info by_tag_name delivery_card = strip (py "Free delivery ").
Proof.
  assert (H1 : text_to_find (sel ["span:contains("; "delivery"; ")"]) = Some (py "delivery"))
    by (vm_compute; reflexivity).
  assert (H2 : find_all_string delivery_card (WordI (py "delivery")) =
               [(py "Free delivery ", delivery_span)])
    by (vm_compute; reflexivity).
  assert (H3 : find_all_string delivery_card re_delivery =
               [(py "Free delivery ", delivery_span)])
    by (vm_compute; reflexivity).
  split; [exact H1|]. split; [exact H2|].
  destruct (contains_returns_parent_text by_tag_name literal_pattern delivery_card
              [py "h2"] [py "b"] (sel ["span:contains("; "delivery"; ")"])
              (py "delivery") (py "Free delivery ") (py "Delivery")
              (WordI (py "delivery")) delivery_span []) as (Ha & Hb & _).
  - constructor; [vm_compute; reflexivity | constructor].
  - vm_compute; reflexivity.
  - exact H1.
  - reflexivity.
  - exact H2.
  - split; [exact Ha|]. apply (Hb _ _ _ H3).
    repeat (constructor; [intros _; right; vm_compute; reflexivity|]).
    constructor.
Defined.

(** C3, as stated, fails on the name: [SponsoredSponsored Phone] is cleaned
    to [Sponsored Phone], and cleaning that again gives [Phone]. *)
Lemma cleaning_twice_differs :
  let s0 := Scraper [twice_sponsored_dict] [] [] 0 in
  let s1 := snd (clean_product_data 0 s0) in
  let s2 := snd (clean_product_data 0 s1) in
  (heap s1 !! 0) ≫= (fun d => fields d !! "name") = Some (py "Sponsored Phone") /\
  (heap s2 !! 0) ≫= (fun d => fields d !! "name") = Some (py "Phone") /\
  heap s2 !! 0 <> heap s1 !! 0.
Proof.
  cbv zeta. split; [vm_compute; reflexivity|]. split; [vm_compute; reflexivity|].
  intros H.
  apply (f_equal (fun o => o ≫= (fun d : product => fields d !! "name"))) in H.
  vm_compute in H. discriminate.
Qed.

(** A dict with a price, which the cleaning gets through. *)
Lemma cleaning_twice_witness :
  let s := Scraper [sponsored_dict] [] [] 0 in
  heap s !! 0 = Some sponsored_dict /\
  fst (clean_product_data 0 s) = Ok 0 /\
  fst (clean_product_data 0 (snd (clean_product_data 0 s))) = Ok 0 /\
  exists d1 d2,
    heap (snd (clean_product_data 0 s)) !! 0 = Some d1 /\
    heap (snd (clean_product_data 0 (snd (clean_product_data 0 s)))) !! 0 = Some d2 /\
    (forall k, k <> "name" -> fields d2 !! k = fields d1 !! k) /\
    (forall name1, fields d1 !! "name" = Some name1 ->
       Forall (fun p => startswith name1 p = false) prefixes_to_remove ->
       d2 = d1).
Proof.
  assert (H : fst (clean_product_data 0 (Scraper [sponsored_dict] [] [] 0)) = Ok 0)
    by (vm_compute; reflexivity).
  split; [reflexivity|]. split; [exact H|].
  apply (cleaning_twice 0 (Scraper [sponsored_dict] [] [] 0) sponsored_dict eq_refl H).
Defined.

(** A record with a price and a rating, under each of the four names. *)
Lemma name_rejection_examples_witness :
  let verdict name :=
    fst ((d <- new_dict (Product (<["name" := name]> rated_entries) 1 []) ;;
          validate_product_data d (py "flipkart")) empty_session) in
  cleaning_returns (Product rated_entries 1 []) = true /\
  verdict (py "Sponsored") = Ok false /\
  verdict (py "12345") = Ok false /\
  verdict (py "₹499") = Ok false /\
  verdict (py "Noise ColorFit Pulse 2 Smartwatch") = Ok true.
Proof.
  cbv zeta. split; [reflexivity|].
  exact (name_rejection_examples rated_entries 1 [] empty_session (py "flipkart")
           eq_refl).
Defined.

(** C10: the code at a raw field map without a current price.  For the map
    with the name [Sponsored], the rating [4.2 stars] and the reviews
    [230 ratings], [validate_product_data] raises the [UnboundLocalError] of
    the cleaning and gives no verdict.  The name has been cleaned in place
    (it is empty now); the rating and the reviews, which the cleaning rules
    turn into [4.2] and [230], are as they were. *)
Lemma validate_raises_on_unpriced_dict :
  let s := Scraper [unpriced_dict] [] [] 0 in
  let r := validate_product_data 0 (py "amazon") s in
  fst r = Raise (UnboundLocalError "re") /\
  (heap (snd r) !! 0) ≫= (fun d => fields d !! "name") = Some [] /\
  (heap (snd r) !! 0) ≫= (fun d => fields d !! "rating") = Some (py "4.2 stars") /\
  (heap (snd r) !! 0) ≫= (fun d => fields d !! "reviews") = Some (py "230 ratings") /\
  clean_rating (py "4.2 stars") = py "4.2" /\
  clean_reviews (py "230 ratings") = py "230".
Proof. cbv zeta. repeat split; vm_compute; reflexivity. Qed.

(** A name of four characters under the lenient profile, and one of seven
    characters under the strict one. *)
Lemma site_minimum_witness :
  fst (validate_product_data 0 (py "sathya") (Scraper [short_name_dict] [] [] 0)) = Ok false /\
  fst (validate_product_data 0 (py "amazon") (Scraper [medium_name_dict] [] [] 0)) = Ok false.
Proof.
  split.
  - apply (site_minimum_is_additional_floor 0 _ short_name_dict
             (clean_dict short_name_dict) (py "Mini") (py "sathya")).
    + reflexivity.
    + vm_compute; reflexivity.
    + vm_compute; reflexivity.
    + vm_compute; reflexivity.
    + left. vm_compute. lia.
  - apply (site_minimum_is_additional_floor 0 _ medium_name_dict
             (clean_dict medium_name_dict) (py "Phone X") (py "amazon")).
    + reflexivity.
    + vm_compute; reflexivity.
    + vm_compute; reflexivity.
    + vm_compute; reflexivity.
    + right. split; [reflexivity | vm_compute; lia].
Defined.

(** C8, as stated, fails: run on the four lines of the example as the
    visible text of a page, the heuristic extractor accepts no record. *)
Lemma heuristic_extractor_accepts_nothing :
  try_aggressive_parsing text_document epoch (CrawlResult true mouse_text [])
    amazon_config (py "amazon") None empty_session =
  (Ok tt, Scraper [] [] [EvAggressive] 0).
Proof. vm_compute. reflexivity. Qed.

(** A dict that validation rejects and that is not left as it was: the name
    [Sponsored] is now empty and the price [Rs. 1,299] is now [₹1,299]. *)
Lemma validate_cleans_in_place_witness :
  let s := Scraper [sponsored_dict] [] [] 0 in
  let r := validate_product_data 0 (py "amazon") s in
  heap s !! 0 = Some sponsored_dict /\
  fst r = Ok false /\
  (heap (snd r) !! 0) ≫= (fun d => fields d !! "name") = Some [] /\
  (heap (snd r) !! 0) ≫= (fun d => fields d !! "current_price") = Some (py "₹1,299") /\
  exists d', heap (snd r) !! 0 = Some d' /\
             fields d' !! "name" =
               (fun v => if truthy v then clean_name v else v)
                 <$> (fields sponsored_dict !! "name").
Proof.
  cbv zeta. split; [reflexivity|]. split; [vm_compute; reflexivity|].
  split; [vm_compute; reflexivity|]. split; [vm_compute; reflexivity|].
  destruct (validate_cleans_in_place 0 (py "amazon")
              (Scraper [sponsored_dict] [] [] 0) sponsored_dict eq_refl)
    as (d' & H1 & _ & H2 & _).
  exists d'. split; [exact H1 | exact H2].
Defined.

(** A run in which tier 2 is entered: the page is a list of [article]
    elements, which neither the configured selector nor the fallback
    selectors of tier 1 select; tier 2 issues seven queries, the seventh
    ([article]) selects the two elements, and the eighth is never issued. *)
Lemma generic_extractor_gate_witness :
  emitted (scrape_site by_tag_name literal_pattern parse_listing crawl_ok
             crawler_fine crawler_fine epoch no_name no_name no_image
             (py "amazon") None None) empty_session =
    EvFetch (cfg_url amazon_config) :: EvAlternative
      :: map EvSelect (take 7 alternative_selectors)
      ++ [EvCandidate 0; EvCandidate 1] /\
  exists config result,
    lookup_config (py "amazon") site_configs = Some config /\
    crawl_ok 0 (str_or None (cfg_url config)) (Some (product_selector config)) = Some result /\
    success result = true.
Proof.
  split; [vm_compute; reflexivity|].
  destruct (generic_extractor_gate by_tag_name literal_pattern parse_listing crawl_ok
              crawler_fine crawler_fine epoch no_name no_name no_image
              (py "amazon") None None empty_session)
    as (config & result & H1 & H2 & H3 & _).
  - apply (bool_decide_unpack _). vm_compute. exact I.
  - exists config, result. repeat split; assumption.
Defined.


(** Two dicts, cleaned.  The first has a boilerplate name and an unclean
    price: the function returns, the price has its cleaned shape and the
    site entry is as it was.  The second has a rating and no price: the
    function raises, and the rating is as it was. *)
Lemma cleaning_postcondition_witness :
  let s := Scraper [sponsored_dict; unpriced_dict] [] [] 0 in
  (heap s !! 0 = Some sponsored_dict /\
   fst (clean_product_data 0 s) = Ok 0 /\
   exists d',
     heap (snd (clean_product_data 0 s)) !! 0 = Some d' /\
     entry_is is_clean_price d' "current_price" /\
     fields d' !! "site" = fields sponsored_dict !! "site") /\
  (heap s !! 1 = Some unpriced_dict /\
   fst (clean_product_data 1 s) = Raise (UnboundLocalError "re") /\
   exists d',
     heap (snd (clean_product_data 1 s)) !! 1 = Some d' /\
     fields d' !! "rating" = Some (py "4.2 stars")).
Proof.
  cbv zeta. split.
  - destruct (cleaning_postcondition 0 (Scraper [sponsored_dict; unpriced_dict] [] [] 0)
                sponsored_dict eq_refl)
      as (d' & Hs & _ & Hother & _ & _ & Hret & Hprice & _).
    split; [reflexivity|]. split; [exact Hret|].
    exists d'. split; [now rewrite Hs|]. split; [exact Hprice|].
    apply Hother; discriminate.
  - destruct (cleaning_postcondition 1 (Scraper [sponsored_dict; unpriced_dict] [] [] 0)
                unpriced_dict eq_refl)
      as (d' & Hs & _ & _ & _ & _ & Hret & Hkept).
    split; [reflexivity|]. split; [exact Hret|].
    exists d'. split; [now rewrite Hs|].
    rewrite Hkept by discriminate. reflexivity.
Defined.

(** A page with one product: the price line is the only anchor, the
    delivery line follows it, and tier 3 finds nothing. *)
Lemma last_chunk_is_dropped_witness :
  substantial_lines single_product_text =
    [py "Wireless Mouse"] ++ py "Price ₹799 only" :: [py "Ships tomorrow"] /\
  product_chunks_of single_product_text = [] /\
  parse_text_content epoch single_product_text (py "amazon") None empty_session =
    (Ok tt, empty_session).
Proof.
  assert (H : substantial_lines single_product_text =
              [py "Wireless Mouse"] ++ py "Price ₹799 only" :: [py "Ships tomorrow"])
    by (vm_compute; reflexivity).
  split; [exact H|].
  apply (last_chunk_is_dropped epoch single_product_text [py "Wireless Mouse"]
           [py "Ships tomorrow"] (py "Price ₹799 only") (py "amazon") None empty_session H).
  - constructor; [vm_compute; reflexivity | constructor].
  - vm_compute; reflexivity.
  - constructor; [vm_compute; reflexivity | constructor].
  - simpl; lia.
Defined.



(** The lenient profiles on a name of seven characters, which the strict
    one rejects. *)
Lemma site_profiles_witness :
  name_checks (py "Phone X") (py "meesho") = name_checks (py "Phone X") (py "sathya") /\
  name_checks (py "Phone X") (py "amazon") =
    name_checks (py "Phone X") (py "sathya") && negb (Nat.ltb (length (py "Phone X")) 10).
Proof.
  destruct (site_profiles (py "Phone X") (py "sathya") (py "meesho")) as [H1 H2].
  - vm_compute. discriminate.
  - split; [apply H1; vm_compute; discriminate | exact H2].
Defined.

(** A record with two offers: the cell is the two texts joined, and
    splitting it gives them back. *)
Lemma offers_cell_round_trip_witness :
  offers_str offers_dict = py "10% off; Free gift" /\
  match offers_str offers_dict with
  | [] => []
  | cell => split cell (py "; ")
  end = offers offers_dict.
Proof.
  split; [vm_compute; reflexivity|].
  apply (offers_cell_round_trip offers_dict).
  repeat constructor; try (vm_compute; discriminate).
Defined.

(** A run in which the first attempt accepts a record: the loop stops
    there, after a single fetch. *)
Lemma retry_until_a_record_witness :
  scrape_with_retries by_tag_name literal_pattern parse_listing crawl_ok
    crawler_fine crawler_fine epoch no_name no_name no_image
    3 (py "amazon") (py "mobile phones") empty_session =
  (Ok tt,
   snd (scrape_site by_tag_name literal_pattern parse_listing crawl_ok
          crawler_fine crawler_fine epoch no_name no_name no_image
          (py "amazon") None (Some (py "mobile phones")) empty_session)) /\
  fetches (log (snd (scrape_with_retries by_tag_name literal_pattern parse_listing crawl_ok
                       crawler_fine crawler_fine epoch no_name no_name no_image
                       3 (py "amazon") (py "mobile phones") empty_session))) = 1.
Proof.
  split; [|vm_compute; reflexivity].
  apply (retry_until_a_record by_tag_name literal_pattern parse_listing crawl_ok
           crawler_fine crawler_fine epoch no_name no_name no_image
           2 (py "amazon") (py "mobile phones") empty_session).
  - vm_compute. reflexivity.
  - right. vm_compute. discriminate.
Defined.

(** Two calls for a configured site that raise.  In the first the crawler
    does not open: nothing is fetched.  In the second it opens, the page is
    fetched and tier 2 accepts a record, and closing the crawler raises:
    the exception leaves [scrape_site] and the record stays. *)
Lemma scrape_site_error_behaviour_witness :
  scrape_site by_tag_name literal_pattern parse_listing crawl_ok
    crawler_late crawler_fine epoch no_name no_name no_image
    (py "amazon") None None empty_session =
  (Raise CrawlerError, Scraper [] [] [] 1) /\
  (let r := scrape_site by_tag_name literal_pattern parse_listing crawl_ok
              crawler_fine crawler_stuck epoch no_name no_name no_image
              (py "amazon") None None empty_session in
   fst r = Raise CrawlerError /\ products (snd r) = [0] /\
   fetches (log (snd r)) = 1).
Proof.
  split.
  - pose proof (scrape_site_error_behaviour by_tag_name literal_pattern parse_listing
                  crawl_ok crawler_late crawler_fine epoch no_name no_name no_image
                  (py "amazon") None None empty_session) as H.
    vm_compute in H. vm_compute. exact H.
  - pose proof (scrape_site_error_behaviour by_tag_name literal_pattern parse_listing
                  crawl_ok crawler_fine crawler_stuck epoch no_name no_name no_image
                  (py "amazon") None None empty_session) as H.
    cbv zeta. change (lookup_config (py "amazon") site_configs)
      with (Some amazon_config) in H.
    cbv beta iota zeta in H. cbn [crawler_fine crawler_stuck] in H. rewrite H.
    repeat split; vm_compute; reflexivity.
Defined.

(** A call in which tier 1 meets the unbound name.  The one fragment of
    the page holds its rupee sign in a comment: the text-containment
    selector of the price finds the comment and resolves to the text of its
    parent, which is empty; the cleaning of the candidate raises on its
    rating; the exception is caught in the loop over the candidates and the
    candidate is dropped.  Tier 1 has accepted nothing, and the call goes
    on to tier 2 and tier 3. *)
Lemma one_tier_per_call_witness :
  let run := scrape_site by_tag_name literal_pattern parse_comment_card crawl_fragment
               crawler_fine crawler_fine epoch vivo_name no_name no_image
               (py "sathya") None None in
  fst (run empty_session) = Ok tt /\
  products (snd (run empty_session)) = [] /\
  (heap (snd (run empty_session)) !! 0) ≫= (fun d => fields d !! "current_price") =
    Some [] /\
  (heap (snd (run empty_session)) !! 0) ≫= (fun d => fields d !! "rating") = Some NA /\
  (EvAlternative ∈ emitted run empty_session) /\
  (EvAggressive ∈ emitted run empty_session) /\
  extends_by (fallback_record tier3_unfilled (py "sathya") None) 20 empty_session
    (snd (run empty_session)).
Proof.
  cbv zeta.
  split; [vm_compute; reflexivity|]. split; [vm_compute; reflexivity|].
  split; [vm_compute; reflexivity|]. split; [vm_compute; reflexivity|].
  assert (H2 : EvAlternative ∈
               emitted (scrape_site by_tag_name literal_pattern parse_comment_card
                          crawl_fragment crawler_fine crawler_fine epoch vivo_name
                          no_name no_image (py "sathya") None None) empty_session).
  { apply (bool_decide_unpack _). vm_compute. exact I. }
  assert (H3 : EvAggressive ∈
               emitted (scrape_site by_tag_name literal_pattern parse_comment_card
                          crawl_fragment crawler_fine crawler_fine epoch vivo_name
                          no_name no_image (py "sathya") None None) empty_session).
  { apply (bool_decide_unpack _). vm_compute. exact I. }
  split; [exact H2|]. split; [exact H3|].
  destruct (one_tier_per_call by_tag_name literal_pattern parse_comment_card
              crawl_fragment crawler_fine crawler_fine epoch vivo_name no_name no_image
              (py "sathya") None None empty_session)
    as [(H & _) | [(_ & H & _) | (_ & _ & H)]].
  - now destruct (H H2).
  - now destruct (H H3).
  - exact H.
Defined.

(** X24: the helpers in a record of tier 1.  With [extract_product_image]
    and [extract_sathya_original_price] as the source defines them,
    [extract_product_data_with_config] always builds a dict, whose image
    entry never starts with a slash, and whose original price, when the
    site is [sathya], is the sentinel or the rupee sign followed by digits
    and commas. *)
Theorem helper_entries_of_a_record
    (css_select : str -> node -> option (list node)) (re_compile_i : str -> option regex)
    (isoformat_now : nat -> str) (extract_sathya_name : node -> str) (lower : str -> str)
    (soup : node) (index : Z) (config : config) (site_key : str)
    (search_query : option str) (s : scraper) :
  exists d w,
    extract_product_data_with_config css_select re_compile_i isoformat_now
      extract_sathya_name (extract_sathya_original_price' re_compile_i)
      (fun soup selectors site_key =>
         extract_product_image' css_select re_compile_i lower soup selectors
           (Some site_key))
      soup index config site_key search_query s =
    (Ok (Some (length (heap s))),
     Scraper (heap s ++ [d]) (products s) (log s) w) /\
    (exists url, fields d !! "image_url" = Some url /\
                 startswith url (py "/") = false) /\
    (site_key = py "sathya" -> entry_is is_clean_price d "original_price").
Proof.
  unfold extract_product_data_with_config. cbv zeta.
  eexists _, _. split; [reflexivity|]. split.
  - eexists. split.
    + unfold product_dict; cbn [fields].
      repeat (rewrite lookup_insert_ne by discriminate). apply lookup_insert_eq.
    + apply extract_product_image_absolute.
  - intros -> v. unfold product_dict; cbn [fields].
    repeat (rewrite lookup_insert_ne by discriminate). rewrite lookup_insert_eq.
    rewrite str_eqb_refl. intros [= <-]. right.
    apply extract_sathya_original_price_shape.
Qed.
